(** * Superdesign: design catalog, metadata store and view-state machine

    A shallow embedding of the TypeScript sources

      - [webview/store/canvasStore.ts]       (the zustand store of the canvas)
      - [StudioView], [CompareView], [App]   (the components that read it)
      - [types/designMetadata.ts]            (metadata records and their guard)
      - [services/designManager.ts]          (the file-backed metadata store)
      - [services/canvasMessageHandler.ts]   (the host side of the channel)
      - [GalleryView], [GalleryToolbar], [DesignCard]
      - [services/devServer.ts]              (the development server)

    Stateful and throwing code is written in a state-and-exception monad in
    which the state survives a [throw], as it does in JavaScript. *)

From Stdlib Require Import String Ascii ZArith List Bool Lia.
From stdpp Require Import base option list gmap strings fin_maps pretty.

Set Warnings "-register-all".

Local Open Scope string_scope.
Local Open Scope Z_scope.

(** ** JavaScript values that cross the JSON boundary *)

Module Js.

(** The values [JSON.parse] returns.  JSON has no date literal, and what
    the [Date] constructor makes of a string is the business of the
    JavaScript engine.  So a document is written down with the reading of
    its date strings: in a position the code gives to [new Date]
    ([createdAt], [updatedAt], [lastUpdated]), a string that the
    constructor reads as the time value [t] (milliseconds since the epoch)
    is [JDate t], whatever its spelling, and [JStr s] is a string it reads
    as Invalid Date.  The string [Date.prototype.toJSON] prints for [t] is
    read back as [t], so it is a [JDate t]; the code writes no other date
    string.  In every other position a string is [JStr s].  Numbers are
    the integral ones.  [JObj] lists the properties of an object, each
    name once. *)
Inductive json : Type :=
  | JNull
  | JBool (b : bool)
  | JNum (n : Z)
  | JStr (s : string)
  | JDate (t : Z)
  | JArr (items : list json)
  | JObj (props : list (string * json)).

(** A property read or an optional argument: [None] is [undefined]. *)
Definition value : Type := option json.

(** A [Date] object: its time value, or [None] for Invalid Date (NaN). *)
Definition Date : Type := option Z.

Inductive js_type : Type :=
  | TUndefined | TObject | TBoolean | TNumber | TString.

Definition js_type_eqb (a b : js_type) : bool :=
  match a, b with
  | TUndefined, TUndefined | TObject, TObject | TBoolean, TBoolean
  | TNumber, TNumber | TString, TString => true
  | _, _ => false
  end.

(** [typeof v]; note [typeof null === 'object']. *)
Definition typeof (v : value) : js_type :=
  match v with
  | None => TUndefined
  | Some JNull => TObject
  | Some (JBool _) => TBoolean
  | Some (JNum _) => TNumber
  | Some (JStr _) | Some (JDate _) => TString
  | Some (JArr _) | Some (JObj _) => TObject
  end.

(** ToBoolean. *)
Definition truthy (v : value) : bool :=
  match v with
  | None | Some JNull => false
  | Some (JBool b) => b
  | Some (JNum n) => negb (n =? 0)
  | Some (JStr s) => negb (String.eqb s "")
  | Some (JDate _) | Some (JArr _) | Some (JObj _) => true
  end.

Fixpoint assoc (k : string) (ps : list (string * json)) : value :=
  match ps with
  | [] => None
  | (k', v) :: ps' => if String.eqb k k' then Some v else assoc k ps'
  end.

(** [v.k] for a value that is neither [null] nor [undefined]: primitives
    and arrays have no property of the names read here. *)
Definition get_prop (k : string) (v : json) : value :=
  match v with
  | JObj ps => assoc k ps
  | _ => None
  end.

(** [v === s] for a string literal [s]. *)
Definition is_string (v : value) (s : string) : bool :=
  match v with
  | Some (JStr t) => String.eqb t s
  | _ => false
  end.

(** [a || b] on values. *)
Definition or_else (a b : value) : value := if truthy a then a else b.

(** [a || b] on [string | null | undefined]: the empty string is falsy. *)
Definition or_id (a b : option string) : option string :=
  match a with
  | Some s => if String.eqb s "" then b else Some s
  | None => b
  end.

(** The largest time value of a [Date] (TimeClip). *)
Definition max_time : Z := 8640000000000000.

(** [new Date(v)] for a property read from parsed JSON: [JDate t] is a
    string read as [t] and [JStr s] one read as Invalid Date (see [json]).
    Of an object the constructor parses the string conversion, which is
    no date; the documents considered hold no array in a date position
    (its string conversion is the list of its elements). *)

Definition new_Date (v : value) : Date :=
  match v with
  | None => None
  | Some JNull => Some 0
  | Some (JBool b) => Some (if b then 1 else 0)
  | Some (JNum n) => if (Z.abs n <=? max_time) then Some n else None
  | Some (JDate t) => Some t
  | Some (JStr _) | Some (JArr _) | Some (JObj _) => None
  end.

(** [a < b] on dates: false as soon as one side is NaN. *)
Definition date_lt (a b : Date) : bool :=
  match a, b with
  | Some x, Some y => x <? y
  | _, _ => false
  end.

(** How [JSON.stringify] prints a [Date]: Invalid Date becomes [null]. *)
Definition date_to_json (d : Date) : json :=
  match d with
  | Some t => JDate t
  | None => JNull
  end.

(** [String.prototype.endsWith], [includes] and [replace] with a string
    pattern (first occurrence only). *)
Definition endsWith (s suffix : string) : bool :=
  let n := String.length s in
  let m := String.length suffix in
  (m <=? n)%nat && String.eqb (String.substring (n - m) m s) suffix.

Definition includes (s sub : string) : bool :=
  match String.index 0 sub s with
  | Some _ => true
  | None => false
  end.

Definition replace (s pat rep : string) : string :=
  match String.index 0 pat s with
  | Some i =>
      String.append (String.substring 0 i s)
        (String.append rep
           (String.substring (i + String.length pat)
              (String.length s - (i + String.length pat)) s))
  | None => s
  end.

End Js.

Import Js.

(** ** The catalog entry sent over the channel ([DesignFile]) *)

Inductive Viewport : Type := mobile | tablet | desktop.

(** [status] and [parentDesign] are copied from a metadata record without a
    check, so they are values.  [filePath] is the webview URI of the file;
    the URI is one-to-one in the file name, which stands for it here.  The
    [content] field (the file body with its stylesheets inlined) is not
    read by any operation below and is left out. *)
Record DesignFile : Type := mkDesignFile {
  name : string;
  filePath : string;
  viewport : Viewport;
  status : json;
  timestamp : Z;
  parentDesign : value
}.

(** ** The messages of the synchronization channel *)

Module Channel.

(** What the webview gives to [vscode.postMessage] ([message.command] and
    its arguments); [unknown_command] is any other command. *)
Inductive Request : Type :=
  | canvas_ready
  | design_setPrimary (designId : option string)
  | design_action (designId : string) (action : string) (val : value)
  | chat_setContext (fileUri : string)
  | unknown_command.

(** What the host gives to [webview.postMessage]. *)
Inductive Notification : Type :=
  | designs_list (designs : list DesignFile)
  | designs_changed
  | error_message (error : string)
  | design_primarySet (designId : option string).

End Channel.

Import Channel.

(** ** The canvas store (webview/store/canvasStore.ts) *)

Module CanvasStore.

Inductive ViewMode : Type := gallery | compare | studio.

Inductive StatusFilter : Type :=
  | status_all | status_draft | status_review | status_approved
  | status_archived.

Inductive ViewportFilter : Type :=
  | viewport_all | viewport_mobile | viewport_tablet | viewport_desktop.

Record Filters : Type := mkFilters {
  filter_status : StatusFilter;
  filter_viewport : ViewportFilter;
  filter_search : string
}.

(** The fields of the zustand store, and [posted]: what the actions have
    handed to [vscode.postMessage] so far. *)
Record State : Type := mkState {
  mode : ViewMode;
  designs : list DesignFile;
  primaryDesignId : option string;
  compareSet : list string;
  studioDesignId : option string;
  filters : Filters;
  isLoading : bool;
  error : option string;
  posted : list Request
}.

Definition initial : State :=
  {| mode := gallery; designs := []; primaryDesignId := None;
     compareSet := []; studioDesignId := None;
     filters := {| filter_status := status_all;
                   filter_viewport := viewport_all;
                   filter_search := "" |};
     isLoading := true; error := None; posted := [] |}.

Definition is_studio (m : ViewMode) : bool :=
  match m with studio => true | _ => false end.

(** [setMode(mode, designId?)].  The snapshot given to [vscode.setState] is
    never read back and is not modelled. *)
Definition setMode (m : ViewMode) (designId : option string) (s : State)
  : State :=
  {| mode := m;
     designs := designs s;
     primaryDesignId := primaryDesignId s;
     compareSet := compareSet s;
     studioDesignId :=
       if is_studio m then or_id designId (studioDesignId s)
       else studioDesignId s;
     filters := filters s; isLoading := isLoading s; error := error s;
     posted := posted s |}.

Definition setDesigns (ds : list DesignFile) (s : State) : State :=
  {| mode := mode s; designs := ds;
     primaryDesignId := primaryDesignId s; compareSet := compareSet s;
     studioDesignId := studioDesignId s; filters := filters s;
     isLoading := false; error := error s; posted := posted s |}.

(** [setPrimaryDesignId(id)] sets the field and then posts
    ['design:setPrimary'] to the host, through the VS Code API object
    that [getVsCodeApi] hands out.  The field is set first, so it is as
    below also when no API object is to be had. *)
Definition setPrimaryDesignId (id : option string) (s : State) : State :=
  {| mode := mode s; designs := designs s;
     primaryDesignId := id; compareSet := compareSet s;
     studioDesignId := studioDesignId s; filters := filters s;
     isLoading := isLoading s; error := error s;
     posted := posted s ++ [design_setPrimary id] |}.

Definition includes_id (id : string) (l : list string) : bool :=
  existsb (String.eqb id) l.

Definition with_compare (cs : list string) (m : ViewMode) (s : State)
  : State :=
  {| mode := m; designs := designs s;
     primaryDesignId := primaryDesignId s; compareSet := cs;
     studioDesignId := studioDesignId s; filters := filters s;
     isLoading := isLoading s; error := error s; posted := posted s |}.

(** [addToCompare(id)]: [[...compareSet, id].slice(0, 3)]. *)
Definition addToCompare (id : string) (s : State) : State :=
  if includes_id id (compareSet s) then s
  else
    let newCompareSet := firstn 3 (compareSet s ++ [id]) in
    with_compare newCompareSet
      (if (0 <? length newCompareSet)%nat then compare else mode s) s.

Definition removeFromCompare (id : string) (s : State) : State :=
  let newCompareSet :=
    List.filter (fun cid => negb (String.eqb cid id)) (compareSet s) in
  with_compare newCompareSet
    (if (length newCompareSet =? 0)%nat then gallery else mode s) s.

Definition clearCompare (s : State) : State := with_compare [] gallery s.

Definition setStudioDesignId (id : option string) (s : State) : State :=
  {| mode := mode s; designs := designs s;
     primaryDesignId := primaryDesignId s; compareSet := compareSet s;
     studioDesignId := id; filters := filters s;
     isLoading := isLoading s; error := error s; posted := posted s |}.

(** [updateDesign(designId, updates)]: [updates] is what spreading the
    partial record over an entry does to it.  No component calls it. *)
Definition updateDesign (designId : string)
    (updates : DesignFile -> DesignFile) (s : State) : State :=
  {| mode := mode s;
     designs :=
       List.map (fun d => if String.eqb (name d) designId then updates d
                          else d) (designs s);
     primaryDesignId := primaryDesignId s; compareSet := compareSet s;
     studioDesignId := studioDesignId s; filters := filters s;
     isLoading := isLoading s; error := error s; posted := posted s |}.

Definition setIsLoading (loading : bool) (s : State) : State :=
  {| mode := mode s; designs := designs s;
     primaryDesignId := primaryDesignId s; compareSet := compareSet s;
     studioDesignId := studioDesignId s; filters := filters s;
     isLoading := loading; error := error s; posted := posted s |}.

(** [setFilters(partial)]: the fields present in the argument replace the
    current ones. *)
Definition setFilters (st : option StatusFilter)
    (vp : option ViewportFilter) (q : option string) (s : State) : State :=
  {| mode := mode s; designs := designs s;
     primaryDesignId := primaryDesignId s; compareSet := compareSet s;
     studioDesignId := studioDesignId s;
     filters :=
       {| filter_status := default (filter_status (filters s)) st;
          filter_viewport := default (filter_viewport (filters s)) vp;
          filter_search := default (filter_search (filters s)) q |};
     isLoading := isLoading s; error := error s; posted := posted s |}.

Definition setError (e : option string) (s : State) : State :=
  {| mode := mode s; designs := designs s;
     primaryDesignId := primaryDesignId s; compareSet := compareSet s;
     studioDesignId := studioDesignId s; filters := filters s;
     isLoading := false; error := e; posted := posted s |}.

(** [designs.find(d => d.name === id)]; an [id] of [null] finds nothing. *)
Definition find_design (id : option string) (ds : list DesignFile)
  : option DesignFile :=
  match id with
  | Some i => List.find (fun d => String.eqb (name d) i) ds
  | None => None
  end.

Definition useDesignVariations (designId : string) (s : State)
  : list DesignFile :=
  List.filter (fun d => is_string (parentDesign d) designId) (designs s).

Definition useParentDesign (designId : string) (s : State)
  : option DesignFile :=
  match find_design (Some designId) (designs s) with
  | None => None
  | Some design =>
      match parentDesign design with
      | Some (JStr p) =>
          if String.eqb p "" then None
          else find_design (Some p) (designs s)
      | _ => None
      end
  end.

(** *** What the components render *)

(** [StudioView]: the "No design selected" placeholder, or the frame of the
    active design with its breadcrumb parent and its variation strip. *)
Inductive StudioRender : Type :=
  | studio_empty
  | studio_view (activeDesign : DesignFile)
      (parentDesign : option DesignFile) (variations : list DesignFile).

Definition activeDesignId (s : State) : option string :=
  or_id (studioDesignId s) (primaryDesignId s).

Definition StudioView (s : State) : StudioRender :=
  let id := activeDesignId s in
  match find_design id (designs s) with
  | None => studio_empty
  | Some activeDesign =>
      studio_view activeDesign
        (useParentDesign (default "" id) s)
        (useDesignVariations (default "" id) s)
  end.

(** [CompareView]: the "No designs to compare" placeholder, or one frame
    per catalog entry whose name is in the compare-set. *)
Inductive CompareRender : Type :=
  | compare_empty
  | compare_view (frames : list DesignFile).

Definition CompareView (s : State) : CompareRender :=
  match List.filter (fun d => includes_id (name d) (compareSet s))
          (designs s) with
  | [] => compare_empty
  | ds => compare_view ds
  end.

(** [App.renderView] of the new canvas: the component chosen by [mode]. *)
Inductive Render : Type :=
  | render_gallery
  | render_compare (r : CompareRender)
  | render_studio (r : StudioRender).

Definition renderView (s : State) : Render :=
  match mode s with
  | gallery => render_gallery
  | compare => render_compare (CompareView s)
  | studio => render_studio (StudioView s)
  end.

(** The message listener [App] installs for the new canvas. *)
Definition messageHandler (n : Notification) (s : State) : State :=
  match n with
  | designs_list ds => setDesigns ds s
  | designs_changed => s
  | error_message e => setError (Some e) s
  | design_primarySet _ => s
  end.

(** *** What the components issue *)

(** The store calls the components make; the argument shapes are those of
    the call sites: [setMode('studio', id)] (GalleryView, CompareFrame),
    [setMode('gallery')] (the back buttons of StudioView and CompareView),
    the message listener of App, [setFilters] (GalleryToolbar) and the
    actions taken from the store by the cards, frames, strip and
    breadcrumb. *)
Inductive Event : Type :=
  | open_in_studio (designId : string)
  | back_to_gallery
  | receive (n : Notification)
  | set_primary (designId : string)
  | add_to_compare (designId : string)
  | remove_from_compare (designId : string)
  | clear_compare
  | set_studio (designId : string)
  | set_filters (st : option StatusFilter) (vp : option ViewportFilter)
      (q : option string).

Definition step (e : Event) (s : State) : State :=
  match e with
  | open_in_studio id => setMode studio (Some id) s
  | back_to_gallery => setMode gallery None s
  | receive n => messageHandler n s
  | set_primary id => setPrimaryDesignId (Some id) s
  | add_to_compare id => addToCompare id s
  | remove_from_compare id => removeFromCompare id s
  | clear_compare => clearCompare s
  | set_studio id => setStudioDesignId (Some id) s
  | set_filters st vp q => setFilters st vp q s
  end.

Definition run (es : list Event) (s : State) : State :=
  fold_left (fun s e => step e s) es s.

Inductive reachable : State -> Prop :=
  | reach_initial : reachable initial
  | reach_step e s : reachable s -> reachable (step e s).

(** *** GalleryView and its toolbar *)

Definition status_filter_name (f : StatusFilter) : string :=
  match f with
  | status_all => "all" | status_draft => "draft"
  | status_review => "review" | status_approved => "approved"
  | status_archived => "archived"
  end.

Definition is_status_all (f : StatusFilter) : bool :=
  match f with status_all => true | _ => false end.

Definition viewport_matches (f : ViewportFilter) (v : Viewport) : bool :=
  match f, v with
  | viewport_all, _ => true
  | viewport_mobile, mobile => true
  | viewport_tablet, tablet => true
  | viewport_desktop, desktop => true
  | _, _ => false
  end.

Section Filtered.

(** [String.prototype.toLowerCase] of the JavaScript runtime. *)
Variable toLowerCase : string -> string.

(** The predicate of [useFilteredDesigns]; an empty search is falsy and
    filters nothing. *)
Definition passes_filters (f : Filters) (design : DesignFile) : bool :=
  (is_status_all (filter_status f)
   || is_string (Some (status design)) (status_filter_name (filter_status f)))
  && viewport_matches (filter_viewport f) (viewport design)
  && (String.eqb (filter_search f) ""
      || includes (toLowerCase (name design))
           (toLowerCase (filter_search f))).

Definition useFilteredDesigns (s : State) : list DesignFile :=
  List.filter (passes_filters (filters s)) (designs s).

(** What [GalleryView] renders: the spinner, the error notice, the "No
    designs yet" placeholder, or one card per filtered design. *)
Inductive GalleryRender : Type :=
  | gallery_loading
  | gallery_error (e : string)
  | gallery_empty
  | gallery_grid (cards : list DesignFile).

Definition GalleryView (s : State) : GalleryRender :=
  if isLoading s then gallery_loading
  else
    match or_id (error s) None with
    | Some e => gallery_error e
    | None =>
        match useFilteredDesigns s with
        | [] => gallery_empty
        | cards => gallery_grid cards
        end
    end.

End Filtered.

(** [handleCompareSelected] of GalleryView: [selectedIds] is a [Set],
    walked in insertion order. *)
Definition handleCompareSelected (selectedIds : list string) (s : State)
  : State :=
  fold_left (fun s id => addToCompare id s) selectedIds s.

(** GalleryToolbar offers the Compare button for 2 or 3 selected cards. *)
Definition compare_button_shown (selectedCount : nat) : bool :=
  (2 <=? selectedCount)%nat && (selectedCount <=? 3)%nat.

End CanvasStore.

(** ** Host code: state, exceptions, [try]/[catch] *)

Module Eff.

Inductive Exn : Type :=
  | FileNotFound    (* the path does not exist *)
  | Unavailable     (* the file system refuses the read or the write *)
  | SyntaxError     (* [JSON.parse] *)
  | TypeError.      (* a property of [null] or [undefined] *)

(** A computation over a state [S]: it returns or throws, and in both
    cases leaves a state behind. *)
Definition M (S A : Type) : Type := S -> (Exn + A) * S.

Definition ret {S A} (a : A) : M S A := fun s => (inr a, s).

Definition throw {S A} (e : Exn) : M S A := fun s => (inl e, s).

Definition bind {S A B} (m : M S A) (k : A -> M S B) : M S B :=
  fun s =>
    match m s with
    | (inr a, s') => k a s'
    | (inl e, s') => (inl e, s')
    end.

Definition try_catch {S A} (m : M S A) (handler : Exn -> M S A) : M S A :=
  fun s =>
    match m s with
    | (inl e, s') => handler e s'
    | r => r
    end.

Definition gets {S A} (f : S -> A) : M S A := fun s => (inr (f s), s).

Definition modify {S} (f : S -> S) : M S unit := fun s => (inr tt, f s).

(** Running a computation of a component on the field that holds it. *)
Definition zoom {S T A} (get : T -> S) (set : S -> T -> T) (m : M S A)
  : M T A :=
  fun t => let (r, s') := m (get t) in (r, set s' t).

Fixpoint map_each {S A B} (body : A -> M S B) (l : list A)
  : M S (list B) :=
  match l with
  | [] => ret []
  | x :: l' =>
      bind (body x) (fun y =>
      bind (map_each body l') (fun ys => ret (y :: ys)))
  end.

Definition returns {S A} (m : M S A) (s : S) : Prop :=
  exists a, fst (m s) = inr a.

End Eff.

Import Eff.

Notation "x <- c1 ;; c2" := (bind c1 (fun x => c2))
  (at level 100, c1 at next level, right associativity).
Notation "c1 ;; c2" := (bind c1 (fun _ => c2))
  (at level 100, right associativity).

(** ** Metadata records (types/designMetadata.ts) *)

Inductive DesignStatus : Type :=
  | draft | review | approved | archived | exported.

Definition status_name (st : DesignStatus) : string :=
  match st with
  | draft => "draft" | review => "review" | approved => "approved"
  | archived => "archived" | exported => "exported"
  end.

(** [DesignMetadata].  The two timestamps are [Date] objects once a store
    is loaded; nothing checks the other properties of a record read from
    the file, so each is the value found there ([None] when absent).
    Nothing checks either that the record is a plain object: [elements] is
    [Some l] when it is an array, with the elements [l], which is all that
    [JSON.stringify] prints of it. *)
Module DesignMetadata.

Record t : Type := mk {
  fileName : value;
  status : value;
  createdAt : Date;
  updatedAt : Date;
  parentDesign : value;
  tags : value;
  notes : value;
  exportedTo : value;
  version : value;
  elements : option (list json)
}.

Definition set_status (v : value) (m : t) : t :=
  mk (fileName m) v (createdAt m) (updatedAt m) (parentDesign m) (tags m)
     (notes m) (exportedTo m) (version m) (elements m).

Definition set_createdAt (d : Date) (m : t) : t :=
  mk (fileName m) (status m) d (updatedAt m) (parentDesign m) (tags m)
     (notes m) (exportedTo m) (version m) (elements m).

Definition set_updatedAt (d : Date) (m : t) : t :=
  mk (fileName m) (status m) (createdAt m) d (parentDesign m) (tags m)
     (notes m) (exportedTo m) (version m) (elements m).

End DesignMetadata.

(** The index a property name stands for on an array: the decimal
    spelling, without a leading zero, of a number below [2^32 - 1]. *)
Definition is_digit (c : ascii) : bool :=
  (48 <=? nat_of_ascii c)%nat && (nat_of_ascii c <=? 57)%nat.

Fixpoint digits_value (s : string) (acc : Z) : option Z :=
  match s with
  | EmptyString => Some acc
  | String c rest =>
      if is_digit c
      then digits_value rest (acc * 10 + (Z.of_nat (nat_of_ascii c) - 48))
      else None
  end.

Definition array_index (k : string) : option nat :=
  match k with
  | EmptyString => None
  | String c rest =>
      if Ascii.eqb c "0" && negb (String.eqb rest "") then None
      else
        match digits_value k 0 with
        | Some n => if n <? 4294967295 then Some (Z.to_nat n) else None
        | None => None
        end
  end.

(** [DesignMetadataStore].  [designs] is [None] when the property holds
    [null], which the guard below lets through.  It lets an array through
    as well: [designs_array] is [Some n] when [designs] is an array, of
    length [n].  The table then holds the elements under their indices
    next to the records the methods have put under file names, and
    [JSON.stringify] prints the elements only. *)
Module DesignMetadataStore.

Record t : Type := mk {
  designs : option (gmap string DesignMetadata.t);
  lastUpdated : Date;
  version : value;
  designs_array : option nat
}.

Definition set_designs (d : option (gmap string DesignMetadata.t)) (s : t)
  : t := mk d (lastUpdated s) (version s) (designs_array s).

Definition set_lastUpdated (d : Date) (s : t) : t :=
  mk (designs s) d (version s) (designs_array s).

(** The length of an array after an assignment to its property [k]. *)
Definition grown (k : string) (n : nat) : nat :=
  match array_index k with
  | Some i => Nat.max n (S i)
  | None => n
  end.

(** [store.designs[k] = rec]. *)
Definition assign (k : string) (rec : DesignMetadata.t) (s : t) : t :=
  mk (insert k rec <$> designs s) (lastUpdated s) (version s)
     (grown k <$> designs_array s).

End DesignMetadataStore.

(** [createDefaultMetadata(fileName)], at the time [now]. *)
Definition createDefaultMetadata (now : Z) (fileName : string)
  : DesignMetadata.t :=
  {| DesignMetadata.fileName := Some (JStr fileName);
     DesignMetadata.status := Some (JStr "draft");
     DesignMetadata.createdAt := Some now;
     DesignMetadata.updatedAt := Some now;
     DesignMetadata.parentDesign := None;
     DesignMetadata.tags := Some (JArr []);
     DesignMetadata.notes := Some (JStr "");
     DesignMetadata.exportedTo := None;
     DesignMetadata.version := None;
     DesignMetadata.elements := None |}.

(** [isValidMetadataStore(data)]:
    [data && typeof data === 'object' && typeof data.designs === 'object'
     && typeof data.version === 'string']. *)
Definition isValidMetadataStore (data : json) : bool :=
  truthy (Some data)
  && js_type_eqb (typeof (Some data)) TObject
  && js_type_eqb (typeof (get_prop "designs" data)) TObject
  && js_type_eqb (typeof (get_prop "version" data)) TString.

(** ** The design manager (services/designManager.ts) *)

Module DesignManager.

(** *** What it runs on *)

Record File : Type := mkFile { mtimeMs : Z; body : string }.

(** The text of [design_metadata.json]: [JSON.parse] throws on it, or reads
    a document from it. *)
Inductive FileText : Type :=
  | malformed
  | document (j : json).

Inductive MetadataFile : Type :=
  | no_file
  | unreadable
  | content (c : FileText).

(** The two folders under [.superdesign]. *)
Inductive Folder : Type := design_iterations | design_archive.

(** The calls that change the file system, in the order they are made. *)
Inductive FsCall : Type :=
  | call_createDirectory (d : Folder)
  | call_copy (source target : Folder) (fileName : string)
  | call_delete (d : Folder) (fileName : string)
  | call_unlinkSync (fileName : string)
  | call_writeFile (j : json).

(** The workspace as the manager sees it, and its one field [cache].  A
    folder is [None] while it does not exist.  [writable] says whether the
    file system accepts a write of the metadata file.  [clock] is what
    [new Date()] reads. *)
Record State : Type := mkState {
  iterations : option (gmap string File);
  archive : option (gmap string File);
  metadataFile : MetadataFile;
  writable : bool;
  clock : Z;
  calls : list FsCall;
  cache : option DesignMetadataStore.t
}.

Definition folder (d : Folder) (s : State) : option (gmap string File) :=
  match d with
  | design_iterations => iterations s
  | design_archive => archive s
  end.

Definition set_folder (d : Folder) (v : option (gmap string File))
    (s : State) : State :=
  match d with
  | design_iterations =>
      mkState v (archive s) (metadataFile s) (writable s) (clock s)
        (calls s) (cache s)
  | design_archive =>
      mkState (iterations s) v (metadataFile s) (writable s) (clock s)
        (calls s) (cache s)
  end.

Definition set_metadataFile (f : MetadataFile) (s : State) : State :=
  mkState (iterations s) (archive s) f (writable s) (clock s) (calls s)
    (cache s).

Definition set_cache (c : option DesignMetadataStore.t) (s : State)
  : State :=
  mkState (iterations s) (archive s) (metadataFile s) (writable s)
    (clock s) (calls s) c.

Definition log_call (c : FsCall) (s : State) : State :=
  mkState (iterations s) (archive s) (metadataFile s) (writable s)
    (clock s) (calls s ++ [c]) (cache s).

(** *** [vscode.workspace.fs] and [fs] *)

Definition now : M State Z := gets clock.

Definition readFile : M State FileText :=
  f <- gets metadataFile ;;
  match f with
  | no_file => throw FileNotFound
  | unreadable => throw Unavailable
  | content c => ret c
  end.

Definition JSON_parse (c : FileText) : M State json :=
  match c with
  | malformed => throw SyntaxError
  | document j => ret j
  end.

Definition writeFile (j : json) : M State unit :=
  modify (log_call (call_writeFile j)) ;;
  ok <- gets writable ;;
  if ok then modify (set_metadataFile (content (document j)))
  else throw Unavailable.

Definition stat (d : Folder) : M State unit :=
  dir <- gets (folder d) ;;
  match dir with
  | Some _ => ret tt
  | None => throw FileNotFound
  end.

Definition createDirectory (d : Folder) : M State unit :=
  modify (log_call (call_createDirectory d)) ;;
  dir <- gets (folder d) ;;
  match dir with
  | Some _ => ret tt
  | None => modify (set_folder d (Some ∅))
  end.

Definition read_entry (d : Folder) (fileName : string) : M State File :=
  dir <- gets (folder d) ;;
  match dir ≫= (fun m => m !! fileName) with
  | Some f => ret f
  | None => throw FileNotFound
  end.

(** [fs.copy(source, target, { overwrite: true })]. *)
Definition copy (source target : Folder) (fileName : string)
  : M State unit :=
  modify (log_call (call_copy source target fileName)) ;;
  f <- read_entry source fileName ;;
  dir <- gets (folder target) ;;
  modify (set_folder target (Some (<[fileName := f]> (default ∅ dir)))).

Definition remove_entry (d : Folder) (fileName : string) : M State unit :=
  _ <- read_entry d fileName ;;
  dir <- gets (folder d) ;;
  modify (set_folder d (delete fileName <$> dir)).

Definition delete_file (d : Folder) (fileName : string) : M State unit :=
  modify (log_call (call_delete d fileName)) ;;
  remove_entry d fileName.

Definition unlinkSync (fileName : string) : M State unit :=
  modify (log_call (call_unlinkSync fileName)) ;;
  remove_entry design_iterations fileName.

(** [fs.readdirSync(designDir)], in the order the map lists its keys. *)
Definition readdir (dir : gmap string File) : list string :=
  (map_to_list dir).*1.

(** *** Reading and printing a store *)

Definition is_object (j : json) : bool :=
  match j with
  | JArr _ | JObj _ => true
  | _ => false
  end.

Fixpoint index_props (i : nat) (items : list json)
  : list (string * json) :=
  match items with
  | [] => []
  | x :: rest => (pretty i, x) :: index_props (S i) rest
  end.

(** The own enumerable properties [for (const key in v)] walks; an array
    is walked by its indices. *)
Definition own_props (v : json) : option (list (string * json)) :=
  match v with
  | JObj ps => Some ps
  | JArr items => Some (index_props 0 items)
  | _ => None
  end.

(** One round of the loop in [loadMetadata], on a record that is an
    object or an array: the two dates are replaced by [Date] objects. *)
Definition revive_record (j : json) : DesignMetadata.t :=
  {| DesignMetadata.fileName := get_prop "fileName" j;
     DesignMetadata.status := get_prop "status" j;
     DesignMetadata.createdAt := new_Date (get_prop "createdAt" j);
     DesignMetadata.updatedAt := new_Date (get_prop "updatedAt" j);
     DesignMetadata.parentDesign := get_prop "parentDesign" j;
     DesignMetadata.tags := get_prop "tags" j;
     DesignMetadata.notes := get_prop "notes" j;
     DesignMetadata.exportedTo := get_prop "exportedTo" j;
     DesignMetadata.version := get_prop "version" j;
     DesignMetadata.elements :=
       match j with
       | JArr items => Some items
       | _ => None
       end |}.

(** The whole loop: reading [createdAt] of a [null] record, or setting it
    on a primitive one (the module is strict code), is a [TypeError]. *)
Definition revive_designs (ps : list (string * json))
  : Exn + gmap string DesignMetadata.t :=
  let m : gmap string json := list_to_map ps in
  if forallb (fun kv => is_object kv.2) (map_to_list m)
  then inr (revive_record <$> m)
  else inl TypeError.

(** The valid branch of [loadMetadata] on [data].  Over [null] the loop
    does not run.  The guard has left only [null], arrays and objects in
    [data.designs]. *)
Definition revive (data : json) : Exn + DesignMetadataStore.t :=
  let finish d n :=
    {| DesignMetadataStore.designs := d;
       DesignMetadataStore.lastUpdated :=
         new_Date (get_prop "lastUpdated" data);
       DesignMetadataStore.version := get_prop "version" data;
       DesignMetadataStore.designs_array := n |} in
  match get_prop "designs" data with
  | None | Some JNull => inr (finish None None)
  | Some d =>
      match own_props d with
      | Some ps =>
          match revive_designs ps with
          | inr m =>
              inr (finish (Some m)
                     match d with
                     | JArr items => Some (length items)
                     | _ => None
                     end)
          | inl e => inl e
          end
      | None => inl TypeError
      end
  end.

Definition opt_prop (k : string) (v : value) : list (string * json) :=
  match v with
  | Some j => [(k, j)]
  | None => []
  end.

(** How [JSON.stringify] prints a record: of an array its elements, and
    none of the properties set on it. *)
Definition record_to_json (m : DesignMetadata.t) : json :=
  match DesignMetadata.elements m with
  | Some items => JArr items
  | None =>
      JObj (opt_prop "fileName" (DesignMetadata.fileName m)
            ++ opt_prop "status" (DesignMetadata.status m)
            ++ [("createdAt", date_to_json (DesignMetadata.createdAt m));
                ("updatedAt", date_to_json (DesignMetadata.updatedAt m))]
            ++ opt_prop "parentDesign" (DesignMetadata.parentDesign m)
            ++ opt_prop "tags" (DesignMetadata.tags m)
            ++ opt_prop "notes" (DesignMetadata.notes m)
            ++ opt_prop "exportedTo" (DesignMetadata.exportedTo m)
            ++ opt_prop "version" (DesignMetadata.version m))
  end.

(** How it prints the table: of an array of length [n] the [n] elements,
    [null] where there is none, and no record held under another name. *)
Definition designs_to_json (m : gmap string DesignMetadata.t)
    (shape : option nat) : json :=
  match shape with
  | None => JObj (map_to_list (record_to_json <$> m))
  | Some n =>
      JArr ((fun i : nat =>
               match m !! pretty i with
               | Some rec => record_to_json rec
               | None => JNull
               end) <$> seq 0 n)
  end.

(** The document [JSON.stringify(store, null, 2)] prints. *)
Definition stringify (s : DesignMetadataStore.t) : json :=
  JObj ([("designs",
          match DesignMetadataStore.designs s with
          | None => JNull
          | Some m => designs_to_json m (DesignMetadataStore.designs_array s)
          end);
         ("lastUpdated", date_to_json (DesignMetadataStore.lastUpdated s))]
        ++ opt_prop "version" (DesignMetadataStore.version s)).

Definition createEmptyStore : M State DesignMetadataStore.t :=
  t <- now ;;
  ret {| DesignMetadataStore.designs := Some ∅;
         DesignMetadataStore.lastUpdated := Some t;
         DesignMetadataStore.version := Some (JStr "1.0.0");
         DesignMetadataStore.designs_array := None |}.

(** *** Store objects and record objects

    A variable of type [DesignMetadataStore] holds either the very object
    [this.cache] points to, so that a write through the variable is a write
    to the cache, or an object of its own.  A [DesignMetadata] variable
    holds the record object found under a key of such a store. *)
Inductive StoreRef : Type :=
  | Cached
  | Fresh (s : DesignMetadataStore.t).

Definition MetaRef : Type := (StoreRef * string)%type.

Definition deref (r : StoreRef) : M State DesignMetadataStore.t :=
  match r with
  | Fresh s => ret s
  | Cached =>
      c <- gets cache ;;
      match c with
      | Some s => ret s
      | None => throw TypeError
      end
  end.

Definition update (f : DesignMetadataStore.t -> DesignMetadataStore.t)
    (r : StoreRef) : M State StoreRef :=
  match r with
  | Fresh s => ret (Fresh (f s))
  | Cached => modify (fun st => set_cache (f <$> cache st) st) ;; ret Cached
  end.

(** [store.designs], about to be indexed: a [TypeError] on [null].  The
    table holds the own properties of the object.  A read
    [store.designs[k]] also finds what the object inherits from its
    prototype ([constructor], [toString], ...) when it has no property
    [k] of its own; the lookups in the table below are the reads at every
    name that is not inherited. *)
Definition read_designs (r : StoreRef)
  : M State (gmap string DesignMetadata.t) :=
  s <- deref r ;;
  match DesignMetadataStore.designs s with
  | Some m => ret m
  | None => throw TypeError
  end.

(** A write [delete store.designs[k]] or [store.designs[k].p = ...]. *)
Definition write_designs
    (f : gmap string DesignMetadata.t -> gmap string DesignMetadata.t)
    (r : StoreRef) : M State StoreRef :=
  _ <- read_designs r ;;
  update (fun s =>
    DesignMetadataStore.set_designs (f <$> DesignMetadataStore.designs s) s)
    r.

(** A write [store.designs[k] = rec]. *)
Definition assign_designs (k : string) (rec : DesignMetadata.t)
    (r : StoreRef) : M State StoreRef :=
  _ <- read_designs r ;;
  update (DesignMetadataStore.assign k rec) r.

Definition read_record (ref : MetaRef) : M State DesignMetadata.t :=
  m <- read_designs ref.1 ;;
  match m !! ref.2 with
  | Some rec => ret rec
  | None => throw TypeError
  end.

Definition write_record (f : DesignMetadata.t -> DesignMetadata.t)
    (ref : MetaRef) : M State MetaRef :=
  r <- write_designs (alter f ref.2) ref.1 ;;
  ret (r, ref.2).

(** *** The methods *)

Definition loadMetadata : M State StoreRef :=
  c <- gets cache ;;
  match c with
  | Some _ => ret Cached
  | None =>
      try_catch
        (text <- readFile ;;
         data <- JSON_parse text ;;
         if isValidMetadataStore data then
           match revive data with
           | inr s => modify (set_cache (Some s)) ;; ret Cached
           | inl e => throw e
           end
         else
           (s <- createEmptyStore ;; ret (Fresh s)))
        (fun _ => s <- createEmptyStore ;; ret (Fresh s))
  end.

Definition saveMetadata (store : StoreRef) : M State unit :=
  try_catch
    (t <- now ;;
     store <- update (DesignMetadataStore.set_lastUpdated (Some t)) store ;;
     s <- deref store ;;
     writeFile (stringify s) ;;
     modify (set_cache (Some s)))
    (fun error => throw error).

(** [store.designs[fileName] || null]: the record object, or nothing. *)
Definition getDesignMetadata (fileName : string) : M State (option MetaRef) :=
  store <- loadMetadata ;;
  m <- read_designs store ;;
  ret (match m !! fileName with
       | Some _ => Some (store, fileName)
       | None => None
       end).

(** [store.designs[fileName] = metadata] stores the record object itself;
    its one caller passes the object already held under [fileName]. *)
Definition setDesignMetadata (fileName : string) (metadata : MetaRef)
  : M State unit :=
  store <- loadMetadata ;;
  t <- now ;;
  metadata <- write_record (DesignMetadata.set_updatedAt (Some t)) metadata ;;
  rec <- read_record metadata ;;
  store <- assign_designs fileName rec store ;;
  saveMetadata store.

Definition updateStatus (fileName : string) (status : DesignStatus)
  : M State unit :=
  store <- loadMetadata ;;
  m <- read_designs store ;;
  store <- match m !! fileName with
           | Some _ => ret store
           | None =>
               t <- now ;;
               assign_designs fileName (createDefaultMetadata t fileName)
                 store
           end ;;
  store <- write_designs
             (alter (DesignMetadata.set_status
                       (Some (JStr (status_name status)))) fileName)
             store ;;
  t <- now ;;
  store <- write_designs
             (alter (DesignMetadata.set_updatedAt (Some t)) fileName) store ;;
  saveMetadata store.

Definition archiveDesign (fileName : string) : M State unit :=
  try_catch (stat design_archive)
    (fun _ => createDirectory design_archive) ;;
  try_catch
    (copy design_iterations design_archive fileName ;;
     delete_file design_iterations fileName ;;
     updateStatus fileName archived)
    (fun error => throw error).


Definition ms_per_day : Z := 86400000.

(** The test of the loop in [archiveOldDesigns]. *)
Definition is_old_design (cutoffDate : Date) (metadata : DesignMetadata.t)
  : bool :=
  negb (is_string (DesignMetadata.status metadata) "approved")
  && negb (is_string (DesignMetadata.status metadata) "archived")
  && date_lt (DesignMetadata.createdAt metadata) cutoffDate.

Definition archive_if_old (store : StoreRef) (cutoffDate : Date)
    (archived : Z) (fileName : string) : M State Z :=
  metadata <- read_record (store, fileName) ;;
  if is_old_design cutoffDate metadata then
    try_catch (archiveDesign fileName ;; ret (archived + 1))
      (fun _ => ret archived)
  else ret archived.

Fixpoint archive_each (store : StoreRef) (cutoffDate : Date)
    (fileNames : list string) (archived : Z) : M State Z :=
  match fileNames with
  | [] => ret archived
  | fileName :: rest =>
      archived <- archive_if_old store cutoffDate archived fileName ;;
      archive_each store cutoffDate rest archived
  end.

Section LocalTime.

(** The time zone of the host: [LocalTime t] is the local time value of
    the time value [t], and [UTC] takes a local time value back (the two
    abstract operations of the language specification). *)
Variable LocalTime : Z -> Z.
Variable UTC : Z -> Z.

(** [d.setDate(d.getDate() - daysOld)] on a valid date [d] of time value
    [t], for a whole number [daysOld]: the day of the local calendar moves
    back by [daysOld], the local time of day stays, and the result is
    clipped, so that the date is Invalid Date when it leaves the range of
    time values. *)
Definition setDate_back (t daysOld : Z) : Date :=
  let u := UTC (LocalTime t - daysOld * ms_per_day) in
  if Z.abs u <=? max_time then Some u else None.

(** [archiveOldDesigns(daysOld)].  The loop walks
    [Object.entries(store.designs)]: the keys as they were when it
    started, each with its record object. *)
Definition archiveOldDesigns (daysOld : Z) : M State Z :=
  store <- loadMetadata ;;
  t <- now ;;
  let cutoffDate := setDate_back t daysOld in
  m <- read_designs store ;;
  archive_each store cutoffDate (map_to_list m).*1 0.

End LocalTime.

Definition clearCache : M State unit := modify (set_cache None).

(** *** The other methods *)



(** [deleteDesign(fileName, fromArchive = false)]. *)
Definition deleteDesign (fileName : string) (fromArchive : bool)
  : M State unit :=
  let d := if fromArchive then design_archive else design_iterations in
  try_catch
    (delete_file d fileName ;;
     store <- loadMetadata ;;
     store <- write_designs (delete fileName) store ;;
     saveMetadata store)
    (fun error => throw error).

(** [Object.values(store.designs).filter(d => d.status === status)]. *)
Definition getDesignsByStatus (status : DesignStatus)
  : M State (list DesignMetadata.t) :=
  store <- loadMetadata ;;
  m <- read_designs store ;;
  ret (List.filter
         (fun d => is_string (DesignMetadata.status d) (status_name status))
         (map_to_list m).*2).




(** [vscode.workspace.fs.readDirectory]; every entry of a folder is a
    file. *)
Definition readDirectory (d : Folder) : M State (list string) :=
  dir <- gets (folder d) ;;
  match dir with
  | Some m => ret (readdir m)
  | None => throw FileNotFound
  end.

(** One round of the loop in [syncWithFileSystem]: the store and the
    count of records added so far. *)
Definition sync_one (acc : StoreRef * Z) (fileName : string)
  : M State (StoreRef * Z) :=
  m <- read_designs acc.1 ;;
  match m !! fileName with
  | Some _ => ret acc
  | None =>
      t <- now ;;
      store <- assign_designs fileName (createDefaultMetadata t fileName)
                 acc.1 ;;
      ret (store, acc.2 + 1)
  end.

Fixpoint sync_each (fileNames : list string) (acc : StoreRef * Z)
  : M State (StoreRef * Z) :=
  match fileNames with
  | [] => ret acc
  | fileName :: rest =>
      acc <- sync_one acc fileName ;;
      sync_each rest acc
  end.

Definition is_design_file (name : string) : bool :=
  endsWith name ".html" || endsWith name ".svg".

Definition syncWithFileSystem : M State unit :=
  try_catch
    (files <- readDirectory design_iterations ;;
     let designFiles := List.filter is_design_file files in
     store <- loadMetadata ;;
     r <- sync_each designFiles (store, 0) ;;
     if 0 <? r.2 then saveMetadata r.1 else ret tt)
    (fun _ => ret tt).

End DesignManager.

(** ** The host side of the channel (services/canvasMessageHandler.ts) *)

Module CanvasMessageHandler.
Import DesignManager.

(** The handler's fields and what it talks to: the design manager with the
    workspace under it, the [superdesign.primaryDesign] workspace setting,
    the messages given to [webview.postMessage], and the answer the user
    gives to the modal of [deleteDesign] ([true] for 'Delete').  The
    clipboard, the browser and the notification toasts are not modelled. *)
Record State : Type := mkState {
  manager : DesignManager.State;
  primaryDesignId : option string;
  configuration : option string;
  outbox : list Notification;
  confirms : bool
}.

Definition set_manager (m : DesignManager.State) (h : State) : State :=
  mkState m (primaryDesignId h) (configuration h) (outbox h) (confirms h).

Definition set_primaryDesignId (id : option string) (h : State) : State :=
  mkState (manager h) id (configuration h) (outbox h) (confirms h).

Definition set_configuration (id : option string) (h : State) : State :=
  mkState (manager h) (primaryDesignId h) id (outbox h) (confirms h).

Definition post (n : Notification) (h : State) : State :=
  mkState (manager h) (primaryDesignId h) (configuration h)
    (outbox h ++ [n]) (confirms h).

Definition designManager {A} (m : M DesignManager.State A) : M State A :=
  zoom manager set_manager m.

Definition postMessage (n : Notification) : M State unit := modify (post n).

Definition loadPrimaryDesign : M State unit :=
  c <- gets configuration ;;
  modify (set_primaryDesignId c).

Definition savePrimaryDesign : M State unit :=
  id <- gets primaryDesignId ;;
  modify (set_configuration id).

(** [metadata?.status === 'exported' ? 'archived'
     : (metadata?.status || 'draft')]. *)
Definition shown_status (v : value) : json :=
  if is_string v "exported" then JStr "archived"
  else default (JStr "draft") (or_else v (Some (JStr "draft"))).

Definition viewport_of (file : string) : Viewport :=
  if includes file "mobile" then mobile
  else if includes file "tablet" then tablet
  else desktop.

(** One round of the loop in [getDesignFiles]. *)
Definition design_of (file : string) : M DesignManager.State DesignFile :=
  stats <- read_entry design_iterations file ;;
  metadata <- getDesignMetadata file ;;
  rec <- match metadata with
         | Some ref => (m <- read_record ref ;; ret (Some m))
         | None => ret None
         end ;;
  ret {| name := replace file ".html" "";
         filePath := file;
         viewport := viewport_of file;
         status := shown_status (rec ≫= DesignMetadata.status);
         timestamp := mtimeMs stats;
         parentDesign := rec ≫= DesignMetadata.parentDesign |}.

(** [designs.sort((a, b) => b.timestamp - a.timestamp)]: newest first,
    entries of equal time in the order they had. *)
Fixpoint insert_newest_first (d : DesignFile) (l : list DesignFile)
  : list DesignFile :=
  match l with
  | [] => [d]
  | x :: rest =>
      if timestamp d <? timestamp x then x :: insert_newest_first d rest
      else d :: x :: rest
  end.

Definition sort_newest_first (l : list DesignFile) : list DesignFile :=
  foldr insert_newest_first [] l.

Definition getDesignFiles : M DesignManager.State (list DesignFile) :=
  dir <- gets iterations ;;
  match dir with
  | None => ret []
  | Some d =>
      let htmlFiles := List.filter (fun f => endsWith f ".html") (readdir d) in
      designs <- map_each design_of htmlFiles ;;
      ret (sort_newest_first designs)
  end.

Definition sendDesignsList : M State unit :=
  try_catch
    (designs <- designManager getDesignFiles ;;
     postMessage (designs_list designs))
    (fun _ => postMessage (error_message "Failed to load designs")).

Definition setPrimaryDesign (designId : option string) : M State unit :=
  modify (set_primaryDesignId designId) ;;
  savePrimaryDesign ;;
  postMessage (design_primarySet designId).

(** The handler's own [deleteDesign], behind its confirmation modal. *)
Definition deleteDesign (fileName : string) : M State unit :=
  confirm <- gets confirms ;;
  if confirm then
    designManager
      (unlinkSync fileName ;;
       store <- loadMetadata ;;
       store <- write_designs (delete fileName) store ;;
       saveMetadata store)
  else ret tt.

Definition copyPromptToClipboard (fileName : string) : M State unit :=
  _ <- designManager (getDesignMetadata fileName) ;;
  ret tt.

Definition handleDesignAction (designId action : string) (val : value)
  : M State unit :=
  let fileName := String.append designId ".html" in
  if String.eqb action "setStatus" then
    metadata <- designManager (getDesignMetadata fileName) ;;
    match metadata with
    | Some ref =>
        ref <- designManager
                 (write_record (DesignMetadata.set_status val) ref) ;;
        designManager (setDesignMetadata fileName ref)
    | None => ret tt
    end ;;
    sendDesignsList
  else if String.eqb action "copyPrompt" then copyPromptToClipboard fileName
  else if String.eqb action "copyPath" then ret tt
  else if String.eqb action "openExternal" then ret tt
  else if String.eqb action "archive" then
    designManager (archiveDesign fileName) ;;
    sendDesignsList
  else if String.eqb action "delete" then
    deleteDesign fileName ;;
    sendDesignsList
  else ret tt.

Definition handleMessage (message : Request) : M State unit :=
  match message with
  | canvas_ready => sendDesignsList
  | design_setPrimary designId => setPrimaryDesign designId
  | design_action designId action val =>
      handleDesignAction designId action val
  | chat_setContext _ => ret tt
  | unknown_command => ret tt
  end.

(** Each of the three callbacks of the file watcher. *)
Definition onDidChange : M State unit := sendDesignsList.

End CanvasMessageHandler.

(** ** The age label of a card (DesignCard.formatDate) *)

Module DesignCard.

(** 'Just now', '<n>m ago', '<n>h ago', '<n>d ago', or the locale's
    rendering of the date. *)
Inductive Label : Type :=
  | just_now
  | minutes_ago (n : Z)
  | hours_ago (n : Z)
  | days_ago (n : Z)
  | locale_date (date : Date).

(** [formatDate(timestamp)] at the time [now]; with an Invalid Date every
    comparison is false. *)
Definition formatDate (now timestamp : Z) : Label :=
  let date := new_Date (Some (JNum timestamp)) in
  match date with
  | None => locale_date date
  | Some t =>
      let diffMs := now - t in
      let diffMins := diffMs / 60000 in
      let diffHours := diffMs / 3600000 in
      let diffDays := diffMs / 86400000 in
      if diffMins <? 1 then just_now
      else if diffMins <? 60 then minutes_ago diffMins
      else if diffHours <? 24 then hours_ago diffHours
      else if diffDays <? 7 then days_ago diffDays
      else locale_date date
  end.

End DesignCard.

(** ** The development server (services/devServer.ts) *)

Module DevServer.

(** The fields of the server object, and the ports of the machine that
    other processes hold.  [server] says whether [this.server] has been
    set. *)
Record State : Type := mkState {
  port : Z;
  isRunning : bool;
  server : bool;
  busy : gset Z
}.

(** What the methods throw: 'No available ports found in range
    3456-3506', the error of a [listen] that fails, and 'Dev server is not
    running. Call start() first.'. *)
Inductive Failure : Type :=
  | no_port
  | listen_error
  | not_running.

Definition initial (taken : gset Z) : State :=
  {| port := 0; isRunning := false; server := false; busy := taken |}.

(** [isPortAvailable(port)] for a port number a socket can be bound to:
    the probe server listens unless the port is held. *)
Definition isPortAvailable (s : State) (p : Z) : bool :=
  bool_decide (p ∉ busy s).

(** The loop of [findAvailablePort]: [n] ports from [p] on. *)
Fixpoint scan (s : State) (p : Z) (n : nat) : option Z :=
  match n with
  | O => None
  | S n' => if isPortAvailable s p then Some p else scan s (p + 1) n'
  end.

Definition findAvailablePort (s : State) (startPort : Z) : Failure + Z :=
  match scan s startPort 50 with
  | Some p => inr p
  | None => inl no_port
  end.

(** [start()].  The port found is kept in [this.port] before [listen];
    [listens] says whether that [listen] succeeds (another process may
    take the port after the probe). *)
Definition start (listens : bool) (s : State) : (Failure + Z) * State :=
  if isRunning s then (inr (port s), s)
  else
    match findAvailablePort s 3456 with
    | inr p =>
        (if listens then inr p else inl listen_error,
         {| port := p; isRunning := listens; server := true;
            busy := busy s |})
    | inl e => (inl e, s)
    end.

Definition getDesignUrl (s : State) (fileName : string) : Failure + string :=
  if isRunning s then
    inr (String.append "http://localhost:"
           (String.append (pretty (port s))
              (String.append "/.superdesign/design_iterations/" fileName)))
  else inl not_running.

Definition getPort (s : State) : Z := port s.

Definition isServerRunning (s : State) : bool := isRunning s.

Definition stop (s : State) : State :=
  if server s then
    {| port := port s; isRunning := false; server := true; busy := busy s |}
  else s.

End DevServer.

(** * Specification vocabulary and examples *)

(** ** The canvas store *)

Module CanvasStoreSpec.
Import CanvasStore.

(** Example catalog entries and states. *)
Definition entry (n : string) : DesignFile :=
  {| name := n; filePath := String.append n ".html"; viewport := desktop;
     status := JStr "draft"; timestamp := 0; parentDesign := None |}.

Definition studio_on_a : State :=
  run [receive (designs_list [entry "a"]); open_in_studio "a"] initial.

Definition compare_abc : State :=
  run [add_to_compare "a"; add_to_compare "b"; add_to_compare "c"] initial.

Definition compare_ab : State :=
  run [add_to_compare "a"; add_to_compare "b"] initial.

(** Compare mode comes with a member to compare. *)
Definition compare_has_member (s : State) : Prop :=
  mode s = compare -> compareSet s <> [].

(** The primary pointer after a run: the argument of the last
    [set_primary], whatever catalogs arrived in between. *)
Fixpoint last_primary (es : list Event) (acc : option string)
  : option string :=
  match es with
  | [] => acc
  | set_primary id :: es' => last_primary es' (Some id)
  | _ :: es' => last_primary es' acc
  end.

End CanvasStoreSpec.

(** ** The design manager *)

Module DesignManagerSpec.
Import DesignManager.

(** No name that an object or an array inherits from its prototype has a
    dot in it: at a file name with an extension, a read
    [store.designs[fileName]] is a lookup among the own properties. *)
Definition has_extension (k : string) : bool := includes k ".".

(** The store [createEmptyStore] makes at time [t]. *)
Definition empty_store (t : Z) : DesignMetadataStore.t :=
  {| DesignMetadataStore.designs := Some ∅;
     DesignMetadataStore.lastUpdated := Some t;
     DesignMetadataStore.version := Some (JStr "1.0.0");
     DesignMetadataStore.designs_array := None |}.

(** The state [loadMetadata] leaves: the cache is filled when it was empty
    and the file holds a document that passes the guard and the loop. *)
Definition settle (st : State) : State :=
  match cache st, metadataFile st with
  | None, content (document data) =>
      if isValidMetadataStore data then
        match revive data with
        | inr s => set_cache (Some s) st
        | inl _ => st
        end
      else st
  | _, _ => st
  end.

(** The store object [loadMetadata] returns. *)
Definition loaded (st : State) : StoreRef :=
  match cache (settle st) with
  | Some _ => Cached
  | None => Fresh (empty_store (clock st))
  end.

(** The store a read goes to. *)
Definition view (st : State) : DesignMetadataStore.t :=
  match cache (settle st) with
  | Some s => s
  | None => empty_store (clock st)
  end.

(** A file that is missing, unreadable, not JSON, or a document the guard
    rejects: the fresh empty store is returned and nothing is cached. *)
Definition rejected (f : MetadataFile) : Prop :=
  match f with
  | no_file | unreadable | content malformed => True
  | content (document data) => isValidMetadataStore data = false
  end.

Definition table (st : State) : option (gmap string DesignMetadata.t) :=
  DesignMetadataStore.designs (view st).

(** Whether that table is an array, and then of which length. *)
Definition shape (st : State) : option nat :=
  DesignMetadataStore.designs_array (view st).

(** [store.designs] of the store [loadMetadata] returns, as
    [archiveOldDesigns] and [updateStatus] read it. *)
Definition read_table : M State (gmap string DesignMetadata.t) :=
  store <- loadMetadata ;;
  read_designs store.

(** The record a read of [fileName] finds: the value of
    [getDesignMetadata(fileName)] as its caller sees it. *)
Definition record_of (fileName : string)
  : M State (option DesignMetadata.t) :=
  metadata <- getDesignMetadata fileName ;;
  match metadata with
  | Some ref => (m <- read_record ref ;; ret (Some m))
  | None => ret None
  end.

(** The table after [updateStatus(fileName, status)] at time [t]. *)
Definition status_written (fileName : string) (status : DesignStatus)
    (t : Z) (m : gmap string DesignMetadata.t)
  : gmap string DesignMetadata.t :=
  alter (DesignMetadata.set_updatedAt (Some t)) fileName
    (alter (DesignMetadata.set_status (Some (JStr (status_name status))))
       fileName
       (match m !! fileName with
        | Some _ => m
        | None => <[fileName := createDefaultMetadata t fileName]> m
        end)).

(** The shape of the table after a method has made a default record for
    [fileName] where there was none. *)
Definition shape_written (fileName : string)
    (m : gmap string DesignMetadata.t) (shape : option nat) : option nat :=
  match m !! fileName with
  | Some _ => shape
  | None => DesignMetadataStore.grown fileName <$> shape
  end.

Definition store_written (fileName : string) (status : DesignStatus)
    (st : State) (m : gmap string DesignMetadata.t) : DesignMetadataStore.t :=
  {| DesignMetadataStore.designs :=
       Some (status_written fileName status (clock st) m);
     DesignMetadataStore.lastUpdated := Some (clock st);
     DesignMetadataStore.version := DesignMetadataStore.version (view st);
     DesignMetadataStore.designs_array := shape_written fileName m (shape st)
  |}.

(** The state after the first statement of [archiveDesign]. *)
Definition ensure_archive (st : State) : State :=
  match archive st with
  | Some _ => st
  | None =>
      set_folder design_archive (Some ∅)
        (log_call (call_createDirectory design_archive) st)
  end.

(** The state after its copy of [file] and its delete of the source. *)
Definition moved (fileName : string) (file : File) (st : State) : State :=
  let st1 := ensure_archive st in
  let st2 :=
    log_call (call_copy design_iterations design_archive fileName) st1 in
  let st3 :=
    set_folder design_archive
      (Some (<[fileName := file]> (default ∅ (archive st1)))) st2 in
  set_folder design_iterations (delete fileName <$> iterations st)
    (log_call (call_delete design_iterations fileName) st3).

Definition copy_call (fileName : string) : FsCall :=
  call_copy design_iterations design_archive fileName.

Definition delete_call (fileName : string) : FsCall :=
  call_delete design_iterations fileName.

(** The file found under [fileName] in a folder of the workspace. *)
Definition file_at (d : Folder) (fileName : string)
    (st : State) : option File :=
  folder d st ≫= (fun dir => dir !! fileName).

(** The status a caller of [getDesignMetadata(fileName)] reads. *)
Definition read_status (fileName : string) (st : State) : Exn + value :=
  match fst (record_of fileName st) with
  | inr rec => inr (rec ≫= DesignMetadata.status)
  | inl e => inl e
  end.

(** What the workspace holds for one file name: the file in the design
    folder, the file in the archive folder, and what a read of its record
    returns. *)
Definition site (g : string) (st : State)
  : option File * option File * (Exn + option DesignMetadata.t) :=
  (file_at design_iterations g st, file_at design_archive g st,
   fst (record_of g st)).

(** The site of a design that has been archived: [file] has left the
    design folder for the archive folder and the record says so. *)
Definition archived_site (file : File)
    (s : option File * option File * (Exn + option DesignMetadata.t))
  : Prop :=
  s.1.1 = None /\ s.1.2 = Some file
  /\ exists rec, s.2 = inr (Some rec)
       /\ DesignMetadata.status rec = Some (JStr "archived").

(** The states the loop runs in: a cached table, a writable file. *)
Definition ready (st : State) : Prop :=
  (exists s m, cache st = Some s /\ DesignMetadataStore.designs s = Some m)
  /\ writable st = true.

(** The result and state of a successful [archiveDesign]. *)
Definition archived_state (fileName : string) (file : File)
    (m : gmap string DesignMetadata.t) (st : State) : State :=
  let st1 := moved fileName file st in
  let s' := store_written fileName archived st1 m in
  set_cache (Some s')
    (set_metadataFile (content (document (stringify s')))
       (log_call (call_writeFile (stringify s')) st1)).

(** What the loop does about one record of the table it started from. *)
Definition outcome (cutoffDate : Date) (fileName : string)
    (rec : DesignMetadata.t) (st st' : State) : Prop :=
  if is_old_design cutoffDate rec then
    match file_at design_iterations fileName st with
    | Some file => archived_site file (site fileName st')
    | None => site fileName st' = site fileName st
    end
  else site fileName st' = site fileName st.

(** The test of the loop, in the words of its doc comment: not approved,
    not archived, created strictly before the cutoff. *)
Definition old_unapproved (cutoff : Z) (rec : DesignMetadata.t) : Prop :=
  DesignMetadata.status rec <> Some (JStr "approved")
  /\ DesignMetadata.status rec <> Some (JStr "archived")
  /\ exists t, DesignMetadata.createdAt rec = Some t /\ t < cutoff.

(** The same against the date [setDate] left: nothing is before an
    Invalid Date. *)
Definition old_by (cutoffDate : Date) (rec : DesignMetadata.t) : Prop :=
  match cutoffDate with
  | Some cutoff => old_unapproved cutoff rec
  | None => False
  end.

(** One hour, in milliseconds. *)
Definition hour : Z := 3600000.

(** A time zone one hour ahead of UTC all year. *)
Definition fixed_LocalTime (t : Z) : Z := t + hour.

Definition fixed_UTC (t : Z) : Z := t - hour.

(** A time zone with daylight saving: one hour ahead of UTC before the
    time value [change], two hours from then on. *)
Definition summer_LocalTime (change t : Z) : Z :=
  if t <? change then t + hour else t + 2 * hour.

Definition summer_UTC (change t : Z) : Z :=
  if t <? change + hour then t - hour else t - 2 * hour.

Definition file_a : File := mkFile 10 "<html></html>".

Definition record_a : DesignMetadata.t := createDefaultMetadata 5 "a.html".

Definition store_a : DesignMetadataStore.t :=
  {| DesignMetadataStore.designs := Some {[ "a.html" := record_a ]};
     DesignMetadataStore.lastUpdated := Some 5;
     DesignMetadataStore.version := Some (JStr "1.0.0");
     DesignMetadataStore.designs_array := None |}.

(** One design [a.html] with its draft record on disk; nothing cached. *)
Definition workspace_a : State :=
  {| iterations := Some {[ "a.html" := file_a ]};
     archive := None;
     metadataFile := content (document (stringify store_a));
     writable := true;
     clock := 1000;
     calls := [];
     cache := None |}.

(** The same workspace with the table cached and a metadata file that
    cannot be written. *)
Definition unwritable_a : State :=
  {| iterations := Some {[ "a.html" := file_a ]};
     archive := None;
     metadataFile := content (document (stringify store_a));
     writable := false;
     clock := 1000;
     calls := [];
     cache := Some store_a |}.

(** A workspace whose metadata file holds [f]; nothing cached. *)
Definition workspace_with (f : MetadataFile) : State :=
  {| iterations := Some {[ "a.html" := file_a ]};
     archive := None;
     metadataFile := f;
     writable := true;
     clock := 1000;
     calls := [];
     cache := None |}.

(** [{ "designs": null, "version": "1.0.0" }] *)
Definition null_designs : json :=
  JObj [("designs", JNull); ("version", JStr "1.0.0")].

(** [{ "designs": [], "version": "1.0.0" }] *)
Definition array_designs : json :=
  JObj [("designs", JArr []); ("version", JStr "1.0.0")].

(** A table with an old draft, an old approved design and a recent
    draft, thirty days after time 1000. *)
Definition record_at (t : Z) (status : DesignStatus) (fileName : string)
  : DesignMetadata.t :=
  DesignMetadata.set_status (Some (JStr (status_name status)))
    (createDefaultMetadata t fileName).

Definition table_old : gmap string DesignMetadata.t :=
  {[ "a.html" := record_at 5 draft "a.html";
     "b.html" := record_at 5 approved "b.html";
     "c.html" := record_at (1000 + 29 * ms_per_day) draft "c.html" ]}.

Definition workspace_old : State :=
  {| iterations :=
       Some {[ "a.html" := file_a; "b.html" := file_a;
               "c.html" := file_a ]};
     archive := None;
     metadataFile :=
       content (document (stringify
         {| DesignMetadataStore.designs := Some table_old;
            DesignMetadataStore.lastUpdated := Some 5;
            DesignMetadataStore.version := Some (JStr "1.0.0");
            DesignMetadataStore.designs_array := None |}));
     writable := true;
     clock := 1000 + 30 * ms_per_day;
     calls := [];
     cache := None |}.

(** Thirty days after time 1000, ten days after the clocks went forward:
    [a.html] is a draft made half an hour less than thirty days of 24
    hours ago, [b.html] an old draft whose file is not in the design
    folder. *)
Definition table_summer : gmap string DesignMetadata.t :=
  {[ "a.html" := record_at (1000 + 30 * 60000) draft "a.html";
     "b.html" := record_at 5 draft "b.html" ]}.

Definition workspace_summer : State :=
  {| iterations := Some {[ "a.html" := file_a ]};
     archive := None;
     metadataFile :=
       content (document (stringify
         {| DesignMetadataStore.designs := Some table_summer;
            DesignMetadataStore.lastUpdated := Some 5;
            DesignMetadataStore.version := Some (JStr "1.0.0");
            DesignMetadataStore.designs_array := None |}));
     writable := true;
     clock := 1000 + 30 * ms_per_day;
     calls := [];
     cache := None |}.

Definition change_summer : Z := 1000 + 20 * ms_per_day.

(** A table that is a plain object of plain objects: neither it nor one
    of its records is an array. *)
Definition plain_table (m : gmap string DesignMetadata.t) : Prop :=
  forall k rec, m !! k = Some rec -> DesignMetadata.elements rec = None.

Definition plain (s : DesignMetadataStore.t) : Prop :=
  DesignMetadataStore.designs_array s = None
  /\ forall m, DesignMetadataStore.designs s = Some m -> plain_table m.

(** The same as a test. *)
Definition is_plain (s : DesignMetadataStore.t) : bool :=
  match DesignMetadataStore.designs_array s with
  | Some _ => false
  | None =>
      match DesignMetadataStore.designs s with
      | None => true
      | Some m =>
          forallb
            (fun kv : string * DesignMetadata.t =>
               match DesignMetadata.elements kv.2 with
               | None => true
               | Some _ => false
               end)
            (map_to_list m)
      end
  end.

(** The store object [loadMetadata] returns, as its callers read it. *)
Definition read_store : M State DesignMetadataStore.t :=
  store <- loadMetadata ;;
  deref store.

(** The cached store, if there is one, has a string for a version: so has
    every store the cache is ever given (a document that passed the guard,
    or a store made by [createEmptyStore]). *)
Definition versioned (st : State) : Prop :=
  forall s, cache st = Some s ->
    typeof (DesignMetadataStore.version s) = TString.

End DesignManagerSpec.

(** ** The message handler *)

Module CanvasMessageHandlerSpec.
Import DesignManager DesignManagerSpec CanvasMessageHandler.

(** The catalog entry of [file], from its [stats] and its record. *)
Definition entry_of (file : string) (stats : File)
    (rec : option DesignMetadata.t) : DesignFile :=
  {| name := replace file ".html" "";
     filePath := file;
     viewport := viewport_of file;
     status := shown_status (rec ≫= DesignMetadata.status);
     timestamp := mtimeMs stats;
     parentDesign := rec ≫= DesignMetadata.parentDesign |}.

(** The catalog [getDesignFiles] builds from a state. *)
Definition catalog (st : DesignManager.State) : Exn + list DesignFile :=
  fst (getDesignFiles st).

Definition keeps {F A} (f : State -> F) (m : M State A) : Prop :=
  forall h, f (snd (m h)) = f h.

(** The message [sendDesignsList] posts from a state of the workspace. *)
Definition push_of (st : DesignManager.State) : Notification :=
  match catalog st with
  | inr ds => designs_list ds
  | inl _ => error_message "Failed to load designs"
  end.

Definition host_a : State :=
  {| manager := workspace_a; primaryDesignId := None;
     configuration := None; outbox := []; confirms := true |}.

End CanvasMessageHandlerSpec.

(** ** Both sides of the channel *)

Module ChannelSpec.
Import DesignManager DesignManagerSpec CanvasMessageHandlerSpec.

(** The host handling the requests the webview posted, in order, and the
    webview receiving what the host posted. *)
Definition host_run (requests : list Request)
    (h : CanvasMessageHandler.State) : CanvasMessageHandler.State :=
  fold_left (fun h r => snd (CanvasMessageHandler.handleMessage r h))
    requests h.

Definition webview_receive (ns : list Notification)
    (s : CanvasStore.State) : CanvasStore.State :=
  fold_left (fun s n => CanvasStore.messageHandler n s) ns s.

(** The webview has the catalog [a] and has made [a] primary; the host
    has handled both requests. *)
Definition host_primary_a : CanvasMessageHandler.State :=
  host_run [canvas_ready; design_setPrimary (Some "a")] host_a.

Definition webview_primary_a : CanvasStore.State :=
  CanvasStore.setPrimaryDesignId (Some "a")
    (webview_receive (CanvasMessageHandler.outbox
                        (host_run [canvas_ready] host_a))
       CanvasStore.initial).

(** Then the delete action for [a] is handled (the user confirms) and the
    rebuilt catalog reaches the webview. *)
Definition host_after_delete : CanvasMessageHandler.State :=
  host_run [design_action "a" "delete" None]
    (CanvasMessageHandler.mkState
       (CanvasMessageHandler.manager host_primary_a)
       (CanvasMessageHandler.primaryDesignId host_primary_a)
       (CanvasMessageHandler.configuration host_primary_a) [] true).

Definition webview_after_delete : CanvasStore.State :=
  webview_receive (CanvasMessageHandler.outbox host_after_delete)
    webview_primary_a.

End ChannelSpec.

(** ** More vocabulary for the canvas store *)

Module CanvasStoreExtraSpec.
Import CanvasStore CanvasStoreSpec.

(** The number of frames [CompareView] mounts. *)
Definition frames_mounted (s : State) : nat :=
  match CompareView s with
  | compare_empty => 0
  | compare_view frames => length frames
  end.

(** An event that delivers an error notice from the host. *)
Definition delivers_error (e : Event) : Prop :=
  match e with
  | receive (error_message _) => True
  | _ => False
  end.


(** Examples: a catalog of four of which two are compared, a parent with
    a variation, and a store that was told of a failure. *)
Definition two_of_four : State :=
  run [receive (designs_list [entry "a"; entry "b"; entry "c"; entry "d"]);
       add_to_compare "a"; add_to_compare "c"] initial.

Definition family : State :=
  run [receive (designs_list
         [entry "a";
          {| name := "a_1"; filePath := "a_1.html"; viewport := desktop;
             status := JStr "draft"; timestamp := 1;
             parentDesign := Some (JStr "a") |}])] initial.

Definition failed : State :=
  run [receive (error_message "Failed to load designs")] initial.

End CanvasStoreExtraSpec.

(** ** More vocabulary for the design manager *)

Module DesignManagerExtraSpec.
Import DesignManager DesignManagerSpec.

(** The state a successful [saveMetadata] of the store [s] leaves. *)
Definition saved (s : DesignMetadataStore.t) (st : State) : State :=
  set_cache (Some s)
    (set_metadataFile (content (document (stringify s)))
       (log_call (call_writeFile (stringify s)) st)).

(** The store [saveMetadata] prints when the table has become [m], of
    the shape [n]. *)
Definition store_shaped (m : gmap string DesignMetadata.t) (n : option nat)
    (st : State) : DesignMetadataStore.t :=
  {| DesignMetadataStore.designs := Some m;
     DesignMetadataStore.lastUpdated := Some (clock st);
     DesignMetadataStore.version := DesignMetadataStore.version (view st);
     DesignMetadataStore.designs_array := n |}.

(** The same when no record was added. *)
Definition store_with (m : gmap string DesignMetadata.t) (st : State)
  : DesignMetadataStore.t :=
  store_shaped m (shape st) st.

(** A record as it is read back from the file it was printed to: an
    Invalid Date is printed as [null], which reads as the epoch. *)
Definition reloaded (rec : DesignMetadata.t) : DesignMetadata.t :=
  DesignMetadata.set_updatedAt
    (Some (default 0 (DesignMetadata.updatedAt rec)))
    (DesignMetadata.set_createdAt
       (Some (default 0 (DesignMetadata.createdAt rec))) rec).

Definition dated (rec : DesignMetadata.t) : Prop :=
  is_Some (DesignMetadata.createdAt rec)
  /\ is_Some (DesignMetadata.updatedAt rec).

(** The state after the delete call of [deleteDesign] found its file. *)
Definition removed (d : Folder) (fileName : string) (st : State) : State :=
  set_folder d (delete fileName <$> folder d st)
    (log_call (call_delete d fileName) st).


(** The folder [deleteDesign] looks into. *)
Definition folder_of (fromArchive : bool) : Folder :=
  if fromArchive then design_archive else design_iterations.




(** The loop of [syncWithFileSystem] on the table alone: the table and
    the count of added records after the files [files], at time [t]. *)
Definition sync_table (t : Z) (files : list string)
    (acc : gmap string DesignMetadata.t * Z)
  : gmap string DesignMetadata.t * Z :=
  fold_left
    (fun acc f =>
       match acc.1 !! f with
       | Some _ => acc
       | None => (<[f := createDefaultMetadata t f]> acc.1, acc.2 + 1)
       end)
    files acc.

(** The shape of the table after that loop. *)
Fixpoint sync_shape (t : Z) (files : list string)
    (m : gmap string DesignMetadata.t) (n : option nat) : option nat :=
  match files with
  | [] => n
  | f :: rest =>
      match m !! f with
      | Some _ => sync_shape t rest m n
      | None =>
          sync_shape t rest (<[f := createDefaultMetadata t f]> m)
            (DesignMetadataStore.grown f <$> n)
      end
  end.

(** The store after the loop has run on the store [s]. *)
Definition synced (t : Z) (files : list string)
    (m : gmap string DesignMetadata.t) (n : Z) (s : DesignMetadataStore.t)
  : DesignMetadataStore.t :=
  DesignMetadataStore.mk (Some (sync_table t files (m, n)).1)
    (DesignMetadataStore.lastUpdated s) (DesignMetadataStore.version s)
    (sync_shape t files m (DesignMetadataStore.designs_array s)).

(** The design files [syncWithFileSystem] looks at. *)
Definition design_files (dir : gmap string File) : list string :=
  List.filter is_design_file (readdir dir).

(** An archive with one file whose record says so, a record that says so
    without a file, and a draft in the design folder. *)
Definition table_archived : gmap string DesignMetadata.t :=
  {[ "a.html" := record_at 5 draft "a.html";
     "b.html" := record_at 5 archived "b.html";
     "c.html" := record_at 5 archived "c.html" ]}.

Definition workspace_archived : State :=
  {| iterations := Some {[ "a.html" := file_a ]};
     archive := Some {[ "b.html" := file_a ]};
     metadataFile :=
       content (document (stringify
         {| DesignMetadataStore.designs := Some table_archived;
            DesignMetadataStore.lastUpdated := Some 5;
            DesignMetadataStore.version := Some (JStr "1.0.0");
            DesignMetadataStore.designs_array := None |}));
     writable := true;
     clock := 1000;
     calls := [];
     cache := None |}.

(** A design folder with a second design and a stylesheet, of which the
    table knows the first design only. *)
Definition workspace_unsynced : State :=
  {| iterations :=
       Some {[ "a.html" := file_a; "b.svg" := file_a;
               "theme.css" := file_a ]};
     archive := None;
     metadataFile := content (document (stringify store_a));
     writable := true;
     clock := 1000;
     calls := [];
     cache := None |}.



End DesignManagerExtraSpec.

(** ** More vocabulary for the message handler *)

Module CanvasMessageHandlerExtraSpec.
Import DesignManager DesignManagerSpec CanvasMessageHandler
  CanvasMessageHandlerSpec.

(** No entry of the list is newer than one before it. *)
Definition newest_first (ds : list DesignFile) : Prop :=
  forall i j a b,
    (i < j)%nat -> ds !! i = Some a -> ds !! j = Some b ->
    timestamp b <= timestamp a.

(** The complete catalog of a workspace, said without the function that
    builds it: newest first, one entry for every html file of the design
    folder and no other, each entry the join of its file with the record
    a read of the table finds for it. *)
Definition listing (st : DesignManager.State) (ds : list DesignFile) : Prop :=
  newest_first ds
  /\ NoDup (filePath <$> ds)
  /\ (forall d, d ∈ ds ->
        endsWith (filePath d) ".html" = true
        /\ exists stats rec,
             file_at design_iterations (filePath d) st = Some stats
             /\ fst (record_of (filePath d) st) = inr rec
             /\ d = entry_of (filePath d) stats rec)
  /\ (forall f, endsWith f ".html" = true ->
        is_Some (file_at design_iterations f st) ->
        exists d, d ∈ ds /\ filePath d = f).

(** The actions after which the handler rebuilds the catalog. *)
Definition mutating (action : string) : bool :=
  String.eqb action "setStatus" || String.eqb action "archive"
  || String.eqb action "delete".

(** The state after the [unlinkSync] of the handler's [deleteDesign]. *)
Definition unlinked (fileName : string) (st : DesignManager.State)
  : DesignManager.State :=
  set_folder design_iterations (delete fileName <$> iterations st)
    (log_call (call_unlinkSync fileName) st).


(** The host of [host_a] on the workspace whose metadata file cannot be
    written. *)
Definition host_unwritable : State :=
  {| manager := unwritable_a; primaryDesignId := None;
     configuration := None; outbox := []; confirms := true |}.

(** Two designs of different age. *)
Definition workspace_two : DesignManager.State :=
  {| iterations :=
       Some {[ "a.html" := file_a; "b_mobile.html" := mkFile 20 "" ]};
     archive := None;
     metadataFile := content (document (stringify store_a));
     writable := true;
     clock := 1000;
     calls := [];
     cache := None |}.

Definition host_two : State :=
  {| manager := workspace_two; primaryDesignId := None;
     configuration := None; outbox := []; confirms := true |}.

End CanvasMessageHandlerExtraSpec.

(** * Properties of the canvas store *)

Module CanvasStoreProps.
Import CanvasStore CanvasStoreSpec.

Lemma run_snoc es e s : run (es ++ [e])%list s = step e (run es s).
Proof. unfold run. by rewrite fold_left_app. Qed.

Lemma reachable_run es : reachable (run es initial).
Proof.
  induction es as [|e es IH] using rev_ind.
  - constructor.
  - rewrite run_snoc. by constructor.
Qed.

Lemma reachable_is_run s : reachable s -> exists es, s = run es initial.
Proof.
  induction 1 as [|e s _ [es ->]].
  - by exists [].
  - exists (es ++ [e])%list. by rewrite run_snoc.
Qed.

(** The compare-set after any store action other than [addToCompare],
    [removeFromCompare] and [clearCompare] is the one before. *)
Lemma messageHandler_compareSet n s :
  compareSet (messageHandler n s) = compareSet s.
Proof. by destruct n. Qed.

Lemma messageHandler_mode n s : mode (messageHandler n s) = mode s.
Proof. by destruct n. Qed.

Lemma messageHandler_primary n s :
  primaryDesignId (messageHandler n s) = primaryDesignId s.
Proof. by destruct n. Qed.

Lemma addToCompare_bound id s :
  (length (compareSet s) <= 3)%nat ->
  (length (compareSet (addToCompare id s)) <= 3)%nat.
Proof.
  intros H. unfold addToCompare.
  destruct (includes_id id (compareSet s)); [done|].
  cbn [compareSet with_compare]. rewrite length_firstn. lia.
Qed.

Lemma filter_length_le {A} (p : A -> bool) (l : list A) :
  (length (List.filter p l) <= length l)%nat.
Proof.
  induction l as [|x l IH]; simpl; [lia|].
  destruct (p x); simpl; lia.
Qed.

Lemma removeFromCompare_bound id s :
  (length (compareSet s) <= 3)%nat ->
  (length (compareSet (removeFromCompare id s)) <= 3)%nat.
Proof.
  intros H. cbn [removeFromCompare compareSet with_compare].
  etrans; [apply filter_length_le|done].
Qed.

Lemma step_compare_bound e s :
  (length (compareSet s) <= 3)%nat ->
  (length (compareSet (step e s)) <= 3)%nat.
Proof.
  intros H. destruct e; simpl; try done.
  - by rewrite messageHandler_compareSet.
  - by apply addToCompare_bound.
  - by apply removeFromCompare_bound.
  - lia.
Qed.

Lemma reachable_compare_bound s :
  reachable s -> (length (compareSet s) <= 3)%nat.
Proof.
  induction 1 as [|e s _ IH]; [simpl; lia|]. by apply step_compare_bound.
Qed.

Lemma firstn_3_snoc_nonempty {A} (l : list A) (x : A) :
  firstn 3 (l ++ [x]) <> [].
Proof. by destruct l. Qed.

Lemma step_compare_has_member e s :
  compare_has_member s -> compare_has_member (step e s).
Proof.
  unfold compare_has_member. intros H.
  destruct e as [id| |n|id|id|id| |id|st vp q]; simpl; try done.
  - rewrite messageHandler_mode, messageHandler_compareSet. done.
  - unfold addToCompare.
    destruct (includes_id id (compareSet s)); [done|].
    intros _. cbn [compareSet with_compare]. apply firstn_3_snoc_nonempty.
  - cbn [removeFromCompare mode compareSet with_compare].
    destruct (List.filter _ (compareSet s)) as [|x l]; simpl; done.
Qed.

Lemma reachable_compare_has_member s :
  reachable s -> compare_has_member s.
Proof.
  induction 1 as [|e s _ IH]; [done|]. by apply step_compare_has_member.
Qed.

Lemma run_primary es s :
  primaryDesignId (run es s) = last_primary es (primaryDesignId s).
Proof.
  revert s. induction es as [|e es IH]; intros s; [done|].
  change (run (e :: es) s) with (run es (step e s)). rewrite IH.
  destruct e; simpl; try done.
  - by rewrite messageHandler_primary.
  - unfold addToCompare. by destruct (includes_id _ _).
Qed.

(** C1 (as stated, refuted): [studio_on_a] is in Studio mode on design
    [a]; the catalog update that no longer lists [a] leaves the mode at
    Studio, it does not move the machine to Gallery. *)
Lemma C1_studio_mode_survives_removal :
  mode studio_on_a = studio
  /\ activeDesignId studio_on_a = Some "a"
  /\ find_design (activeDesignId studio_on_a) [] = None
  /\ mode (step (receive (designs_list [])) studio_on_a) <> gallery.
Proof. repeat split; try reflexivity. discriminate. Qed.

(** C1 (amended): a catalog update never changes the mode.  When the
    machine is in Studio mode and the design named by studio-focus (by the
    primary pointer when studio-focus is unset) is not in the new catalog,
    the mode stays Studio, [StudioView] renders its placeholder and not a
    frame for the missing design, and the placeholder's button leads to
    Gallery. *)
Theorem C1_dangling_focus_renders_placeholder (s : State)
    (ds : list DesignFile) :
  mode s = studio ->
  find_design (activeDesignId s) ds = None ->
  mode (setDesigns ds s) = studio
  /\ renderView (setDesigns ds s) = render_studio studio_empty
  /\ mode (step back_to_gallery (setDesigns ds s)) = gallery.
Proof.
  intros Hmode Hfind. split; [exact Hmode|]. split; [|reflexivity].
  unfold renderView. cbn [mode setDesigns]. rewrite Hmode.
  unfold StudioView.
  change (activeDesignId (setDesigns ds s)) with (activeDesignId s).
  cbn [designs setDesigns]. by rewrite Hfind.
Qed.

Lemma C1_dangling_focus_witness :
  mode (setDesigns [] studio_on_a) = studio
  /\ renderView (setDesigns [] studio_on_a) = render_studio studio_empty
  /\ mode (step back_to_gallery (setDesigns [] studio_on_a)) = gallery.
Proof.
  apply (C1_dangling_focus_renders_placeholder studio_on_a []);
    reflexivity.
Defined.

(** C3 (as stated, refuted): with [a], [b], [c] in the compare-set, adding
    [d] does not evict [a]: the set is not [b; c; d], it is still
    [a; b; c]. *)
Lemma C3_fourth_member_is_dropped :
  compareSet compare_abc = ["a"; "b"; "c"]
  /\ compareSet (addToCompare "d" compare_abc) = ["a"; "b"; "c"]
  /\ compareSet (addToCompare "d" compare_abc) <> ["b"; "c"; "d"].
Proof. repeat split; try reflexivity. discriminate. Qed.

(** C3 (amended): in every reachable state, and so after every sequence of
    [addToCompare] calls, the compare-set has at most 3 members; a call
    that adds a 4th distinct member to a full compare-set leaves the set
    as it was (the new member is the one dropped). *)
Theorem C3_compare_set_keeps_first_three (s : State) (id : string) :
  reachable s ->
  (length (compareSet (addToCompare id s)) <= 3)%nat
  /\ (length (compareSet s) = 3%nat ->
      includes_id id (compareSet s) = false ->
      compareSet (addToCompare id s) = compareSet s).
Proof.
  intros Hs. split.
  - apply addToCompare_bound. by apply reachable_compare_bound.
  - intros Hlen Hnew. unfold addToCompare. rewrite Hnew.
    cbn [compareSet with_compare].
    rewrite firstn_app, Hlen. simpl.
    rewrite firstn_all2 by lia. by rewrite app_nil_r.
Qed.

Lemma C3_compare_set_witness :
  (length (compareSet (addToCompare "d" compare_abc)) <= 3)%nat
  /\ compareSet (addToCompare "d" compare_abc) = compareSet compare_abc.
Proof.
  destruct (C3_compare_set_keeps_first_three compare_abc "d") as [Hb Hk].
  - apply reachable_run.
  - split; [exact Hb|]. apply Hk; reflexivity.
Defined.

(** C4: no reachable state is in Compare mode with an empty compare-set.
    When [removeFromCompare] empties the compare-set the mode becomes
    Gallery, and so it does after [clearCompare]; when a member remains,
    [removeFromCompare] leaves the mode as it was (Compare stays
    Compare). *)
Theorem C4_compare_mode_has_members (s : State) (id : string) :
  reachable s ->
  (mode s = compare -> compareSet s <> [])
  /\ (compareSet (removeFromCompare id s) = [] ->
      mode (removeFromCompare id s) = gallery)
  /\ (compareSet (removeFromCompare id s) <> [] ->
      mode (removeFromCompare id s) = mode s)
  /\ mode (clearCompare s) = gallery
  /\ compareSet (clearCompare s) = [].
Proof.
  intros Hs. split; [by apply reachable_compare_has_member|].
  cbn [removeFromCompare mode compareSet with_compare clearCompare].
  destruct (List.filter _ (compareSet s)) as [|x l]; simpl; repeat split;
    done.
Qed.

Lemma C4_compare_mode_witness :
  mode (removeFromCompare "a" compare_ab) = compare
  /\ mode (removeFromCompare "b" (removeFromCompare "a" compare_ab))
     = gallery.
Proof.
  split.
  - destruct (C4_compare_mode_has_members compare_ab "a")
      as (_ & _ & Hkeep & _); [apply reachable_run|].
    apply Hkeep. discriminate.
  - destruct (C4_compare_mode_has_members
                (removeFromCompare "a" compare_ab) "b")
      as (_ & Hempty & _).
    + apply (reach_step (remove_from_compare "a")). apply reachable_run.
    + apply Hempty. reflexivity.
Defined.

End CanvasStoreProps.

(** * Properties of the design manager *)

Module DesignManagerProps.
Import DesignManager DesignManagerSpec.

Lemma loadMetadata_spec st : loadMetadata st = (inr (loaded st), settle st).
Proof.
  unfold loadMetadata, loaded, settle, bind, gets, try_catch, readFile,
    JSON_parse, createEmptyStore, now, ret, throw, modify.
  destruct st as [it ar mf w ck cs [c|]]; simpl; [reflexivity|].
  destruct mf as [| |[|data]]; simpl; try reflexivity.
  destruct (isValidMetadataStore data); simpl; [|reflexivity].
  destruct (revive data); reflexivity.
Qed.

Lemma settle_cache_only st : exists c, settle st = set_cache c st.
Proof.
  unfold settle. destruct st as [it ar mf w ck cs [c|]]; simpl.
  - by exists (Some c).
  - destruct mf as [| |[|data]]; try by exists None.
    destruct (isValidMetadataStore data); [|by exists None].
    destruct (revive data) as [e|s]; [by exists None|by exists (Some s)].
Qed.

Lemma settle_idem st : settle (settle st) = settle st.
Proof.
  unfold settle. destruct st as [it ar mf w ck cs [c|]]; simpl; [done|].
  destruct mf as [| |[|data]]; simpl; try done.
  destruct (isValidMetadataStore data) eqn:Hv; simpl; [|by rewrite Hv].
  destruct (revive data) eqn:Hr; simpl; [|done]. by rewrite Hv, Hr.
Qed.

Lemma settle_cached st s : cache st = Some s -> settle st = st.
Proof. unfold settle. by intros ->. Qed.

Lemma settle_fields st :
  iterations (settle st) = iterations st
  /\ archive (settle st) = archive st
  /\ metadataFile (settle st) = metadataFile st
  /\ writable (settle st) = writable st
  /\ clock (settle st) = clock st
  /\ calls (settle st) = calls st.
Proof. destruct (settle_cache_only st) as [c ->]. by destruct st. Qed.

Lemma loaded_settle st : loaded (settle st) = loaded st.
Proof.
  unfold loaded. rewrite settle_idem.
  by destruct (settle_fields st) as (_ & _ & _ & _ & -> & _).
Qed.

Lemma view_settle st : view (settle st) = view st.
Proof.
  unfold view. rewrite settle_idem.
  by destruct (settle_fields st) as (_ & _ & _ & _ & -> & _).
Qed.

Lemma deref_loaded st :
  deref (loaded st) (settle st) = (inr (view st), settle st).
Proof.
  unfold loaded, view, deref, bind, gets, ret.
  destruct (cache (settle st)) eqn:Hc; [by rewrite Hc|reflexivity].
Qed.

(** [loadMetadata] always returns, whatever the file holds. *)
Lemma loadMetadata_returns st : returns loadMetadata st.
Proof. exists (loaded st). by rewrite loadMetadata_spec. Qed.

Lemma loadMetadata_fallback st :
  cache st = None -> rejected (metadataFile st) ->
  loadMetadata st = (inr (Fresh (empty_store (clock st))), st).
Proof.
  intros Hc Hrej. rewrite loadMetadata_spec.
  assert (settle st = st) as Hs.
  { unfold settle. rewrite Hc.
    destruct (metadataFile st) as [| |[|data]]; try done.
    simpl in Hrej. by rewrite Hrej. }
  unfold loaded. by rewrite Hs, Hc.
Qed.

(** *** Stepping through [bind] *)

Lemma bind_returns {S A B} (m : M S A) (k : A -> M S B) s a s' :
  m s = (inr a, s') -> bind m k s = k a s'.
Proof. unfold bind. by intros ->. Qed.

Lemma bind_throws {S A B} (m : M S A) (k : A -> M S B) s e s' :
  m s = (inl e, s') -> bind m k s = (inl e, s').
Proof. unfold bind. by intros ->. Qed.

Lemma bind_inv {S A B} (m : M S A) (k : A -> M S B) s b s' :
  bind m k s = (inr b, s') ->
  exists a s1, m s = (inr a, s1) /\ k a s1 = (inr b, s').
Proof.
  unfold bind. destruct (m s) as [[e|a] s1]; [done|]. intros H. eauto.
Qed.

(** *** Reads through the loaded store *)

Lemma read_designs_loaded st :
  read_designs (loaded st) (settle st)
  = (match table st with Some m => inr m | None => inl TypeError end,
     settle st).
Proof.
  unfold read_designs, table.
  rewrite (bind_returns _ _ _ _ _ (deref_loaded st)).
  by destruct (DesignMetadataStore.designs (view st)).
Qed.

Lemma getDesignMetadata_spec fileName st :
  getDesignMetadata fileName st
  = (match table st with
     | None => inl TypeError
     | Some m =>
         inr (match m !! fileName with
              | Some _ => Some (loaded st, fileName)
              | None => None
              end)
     end, settle st).
Proof.
  unfold getDesignMetadata.
  rewrite (bind_returns _ _ _ _ _ (loadMetadata_spec st)).
  unfold bind at 1. rewrite read_designs_loaded.
  by destruct (table st).
Qed.

Lemma read_record_loaded fileName st :
  read_record (loaded st, fileName) (settle st)
  = (match table st with
     | None => inl TypeError
     | Some m =>
         match m !! fileName with
         | Some rec => inr rec
         | None => inl TypeError
         end
     end, settle st).
Proof.
  unfold read_record. cbn [fst snd].
  unfold bind at 1. rewrite read_designs_loaded.
  destruct (table st) as [m|]; [|done]. by destruct (m !! fileName).
Qed.

Lemma read_table_spec st :
  read_table st
  = (match table st with Some m => inr m | None => inl TypeError end,
     settle st).
Proof.
  unfold read_table.
  rewrite (bind_returns _ _ _ _ _ (loadMetadata_spec st)).
  apply read_designs_loaded.
Qed.

Lemma read_table_inr st m : fst (read_table st) = inr m <-> table st = Some m.
Proof.
  rewrite read_table_spec. cbn [fst].
  destruct (table st); split; congruence.
Qed.

Lemma table_settle st : table (settle st) = table st.
Proof. unfold table. by rewrite view_settle. Qed.

Lemma record_of_spec fileName st :
  record_of fileName st
  = (match table st with
     | None => inl TypeError
     | Some m => inr (m !! fileName)
     end, settle st).
Proof.
  unfold record_of. unfold bind at 1. rewrite getDesignMetadata_spec.
  destruct (table st) as [m|] eqn:Ht; [|done].
  destruct (m !! fileName) as [rec|] eqn:Hf; [|done].
  unfold bind. rewrite read_record_loaded, Ht, Hf. done.
Qed.

Lemma record_of_settle fileName st :
  record_of fileName (settle st) = record_of fileName st.
Proof. by rewrite !record_of_spec, table_settle, settle_idem. Qed.

(** *** What [updateStatus] and [archiveDesign] do to a state *)

Lemma try_catch_rethrow {S A} (m : M S A) s :
  try_catch m (fun error => throw error) s = m s.
Proof. unfold try_catch, throw. by destruct (m s) as [[e|a] s']. Qed.

Lemma updateStatus_spec fileName status st :
  updateStatus fileName status st
  = match table st with
    | None => (inl TypeError, settle st)
    | Some m =>
        let s' := store_written fileName status st m in
        let st1 := log_call (call_writeFile (stringify s')) (settle st) in
        if writable st then
          (inr tt,
           set_cache (Some s')
             (set_metadataFile (content (document (stringify s'))) st1))
        else
          (inl Unavailable,
           match cache (settle st) with
           | Some _ => set_cache (Some s') st1
           | None => st1
           end)
    end.
Proof.
  unfold updateStatus.
  rewrite (bind_returns _ _ _ _ _ (loadMetadata_spec st)).
  unfold store_written, shape_written, shape, table, view, loaded.
  destruct (settle_fields st) as (_ & _ & _ & <- & <- & _).
  generalize (settle st). clear st.
  intros [it ar mf w ck cs [[[m|] lu ver n]|]];
    cbn [cache clock writable DesignMetadataStore.designs
         DesignMetadataStore.version DesignMetadataStore.designs_array];
    try reflexivity.
  - unfold status_written.
    destruct (m !! fileName) eqn:Hf; destruct w; 
      unfold read_designs, write_designs, assign_designs, update, deref,
        saveMetadata, writeFile, now, try_catch, bind, ret, gets, modify,
        throw;
      simpl; rewrite ?Hf; reflexivity.
  - unfold status_written, empty_store. rewrite ?lookup_empty.
    destruct w;
      unfold read_designs, write_designs, assign_designs, update, deref,
        saveMetadata, writeFile, now, try_catch, bind, ret, gets, modify,
        throw;
      simpl; rewrite ?lookup_empty; reflexivity.
Qed.

(** The file system does not enter a read of the table. *)
Lemma settle_set_folder d v st :
  settle (set_folder d v st) = set_folder d v (settle st).
Proof.
  unfold settle. destruct st as [it ar mf w ck cs [c|]], d; simpl;
    try reflexivity;
    destruct mf as [| |[|data]]; try reflexivity;
    destruct (isValidMetadataStore data); try reflexivity;
    destruct (revive data); reflexivity.
Qed.

Lemma settle_log_call c st : settle (log_call c st) = log_call c (settle st).
Proof.
  unfold settle. destruct st as [it ar mf w ck cs [s|]]; simpl;
    try reflexivity;
    destruct mf as [| |[|data]]; try reflexivity;
    destruct (isValidMetadataStore data); try reflexivity;
    destruct (revive data); reflexivity.
Qed.

Lemma view_set_folder d v st : view (set_folder d v st) = view st.
Proof. unfold view. rewrite settle_set_folder. by destruct (settle st), d. Qed.

Lemma view_log_call c st : view (log_call c st) = view st.
Proof. unfold view. rewrite settle_log_call. by destruct (settle st). Qed.

Lemma table_set_folder d v st : table (set_folder d v st) = table st.
Proof. unfold table. by rewrite view_set_folder. Qed.

Lemma table_log_call c st : table (log_call c st) = table st.
Proof. unfold table. by rewrite view_log_call. Qed.

Lemma archiveDesign_spec fileName st :
  archiveDesign fileName st
  = match iterations st ≫= (fun dir => dir !! fileName) with
    | None =>
        (inl FileNotFound,
         log_call (call_copy design_iterations design_archive fileName)
           (ensure_archive st))
    | Some file => updateStatus fileName archived (moved fileName file st)
    end.
Proof.
  unfold archiveDesign. unfold bind at 1.
  assert (try_catch (stat design_archive)
            (fun _ => createDirectory design_archive) st
          = (inr tt, ensure_archive st)) as ->.
  { unfold ensure_archive. destruct st as [it [ar|] mf w ck cs c]; done. }
  rewrite try_catch_rethrow. unfold moved.
  assert (iterations (ensure_archive st) = iterations st) as Hit.
  { unfold ensure_archive. by destruct st as [it [ar|] mf w ck cs c]. }
  revert Hit. generalize (ensure_archive st). intros st1 Hit.
  destruct st1 as [it1 ar1 mf1 w1 ck1 cs1 c1]. simpl in Hit. subst it1.
  destruct (iterations st) as [dir|]; simpl.
  - destruct (dir !! fileName) as [file|] eqn:Hf.
    + unfold copy, delete_file, remove_entry, read_entry, bind, modify,
        gets, ret, throw. simpl. rewrite Hf. simpl. rewrite Hf. done.
    + unfold copy, delete_file, remove_entry, read_entry, bind, modify,
        gets, ret, throw. simpl. by rewrite Hf.
  - done.
Qed.

Lemma ensure_archive_fields st :
  iterations (ensure_archive st) = iterations st
  /\ default ∅ (archive (ensure_archive st)) = default ∅ (archive st)
  /\ is_Some (archive (ensure_archive st))
  /\ metadataFile (ensure_archive st) = metadataFile st
  /\ writable (ensure_archive st) = writable st
  /\ clock (ensure_archive st) = clock st
  /\ cache (ensure_archive st) = cache st
  /\ exists pre,
       calls (ensure_archive st) = (calls st ++ pre)%list
       /\ (pre = [] \/ pre = [call_createDirectory design_archive]).
Proof.
  unfold ensure_archive. destruct st as [it [ar|] mf w ck cs c]; simpl.
  - repeat split; eauto. exists []. rewrite app_nil_r. auto.
  - repeat split; eauto.
Qed.

Lemma moved_fields fileName file st :
  iterations (moved fileName file st) = delete fileName <$> iterations st
  /\ archive (moved fileName file st)
     = Some (<[fileName := file]> (default ∅ (archive st)))
  /\ metadataFile (moved fileName file st) = metadataFile st
  /\ writable (moved fileName file st) = writable st
  /\ clock (moved fileName file st) = clock st
  /\ cache (moved fileName file st) = cache st
  /\ exists pre,
       calls (moved fileName file st)
       = (calls st ++ pre
          ++ [call_copy design_iterations design_archive fileName;
              call_delete design_iterations fileName])%list
       /\ (pre = [] \/ pre = [call_createDirectory design_archive]).
Proof.
  unfold moved.
  destruct (ensure_archive_fields st)
    as (Hit & Har & _ & Hmf & Hw & Hck & Hc & pre & Hcalls & Hpre).
  revert Hit Har Hmf Hw Hck Hc Hcalls. generalize (ensure_archive st).
  intros [it1 ar1 mf1 w1 ck1 cs1 c1]. simpl. intros -> -> -> -> -> -> ->.
  repeat split. exists pre. split; [|done].
  by rewrite <- !app_assoc.
Qed.

Lemma table_moved fileName file st :
  table (moved fileName file st) = table st.
Proof.
  unfold moved, ensure_archive. cbv zeta.
  destruct (archive st);
    repeat (rewrite table_set_folder || rewrite table_log_call);
    reflexivity.
Qed.

Lemma status_written_same fileName status t m :
  exists rec,
    status_written fileName status t m !! fileName = Some rec
    /\ DesignMetadata.status rec = Some (JStr (status_name status)).
Proof.
  unfold status_written.
  destruct (m !! fileName) as [rec|] eqn:Hf.
  - eexists. rewrite !lookup_alter_eq, Hf. simpl. done.
  - eexists. rewrite !lookup_alter_eq, lookup_insert_eq. simpl. done.
Qed.

Lemma status_written_other fileName status t m g :
  g <> fileName ->
  status_written fileName status t m !! g = m !! g.
Proof.
  intros Hne. unfold status_written.
  rewrite !lookup_alter_ne by done.
  destruct (m !! fileName); [done|]. by rewrite lookup_insert_ne.
Qed.

(** *** The bulk archive *)

Lemma table_cached st s : cache st = Some s ->
  table st = DesignMetadataStore.designs s.
Proof.
  intros Hc. unfold table, view. by rewrite (settle_cached _ _ Hc), Hc.
Qed.

Lemma loaded_cached st s : cache st = Some s -> loaded st = Cached.
Proof. intros Hc. unfold loaded. by rewrite (settle_cached _ _ Hc), Hc. Qed.

Lemma lookup_default_empty (ar : option (gmap string File)) (g : string) :
  (default ∅ ar : gmap string File) !! g = ar ≫= (fun dir => dir !! g).
Proof. by destruct ar. Qed.

(** Reads of a record are lookups in the table. *)
Lemma site_eq g st :
  site g st
  = (file_at design_iterations g st, file_at design_archive g st,
     match table st with
     | None => inl TypeError
     | Some m => inr (m !! g)
     end).
Proof. unfold site. by rewrite record_of_spec. Qed.

Lemma read_status_spec fileName st :
  read_status fileName st
  = match table st with
    | None => inl TypeError
    | Some m => inr ((m !! fileName) ≫= DesignMetadata.status)
    end.
Proof.
  unfold read_status. rewrite record_of_spec. by destruct (table st).
Qed.

Lemma site_ensure_archive g st :
  site g (ensure_archive st) = site g st.
Proof.
  rewrite !site_eq. unfold file_at, ensure_archive.
  destruct (archive st) eqn:Har; [done|].
  rewrite table_set_folder, table_log_call.
  destruct st as [it ar mf w ck cs c]. simpl in *. by subst ar.
Qed.

Lemma site_log_call g c st : site g (log_call c st) = site g st.
Proof.
  rewrite !site_eq. unfold file_at. rewrite table_log_call. by destruct st.
Qed.

Lemma archiveDesign_ready fileName st m :
  ready st -> table st = Some m ->
  archiveDesign fileName st
  = match file_at design_iterations fileName st with
    | Some file => (inr tt, archived_state fileName file m st)
    | None =>
        (inl FileNotFound,
         log_call (copy_call fileName) (ensure_archive st))
    end.
Proof.
  intros [(s & m' & Hc & Hm) Hw] Ht.
  rewrite archiveDesign_spec. unfold file_at. cbn [folder].
  destruct (iterations st ≫= _) as [file|]; [|done].
  rewrite updateStatus_spec, table_moved, Ht.
  destruct (moved_fields fileName file st)
    as (_ & _ & _ & Hw' & _ & Hc' & _).
  rewrite Hw', Hw. rewrite Hc in Hc'.
  by rewrite (settle_cached _ _ Hc').
Qed.

Lemma archived_state_ready fileName file m st :
  ready st -> ready (archived_state fileName file m st).
Proof.
  intros [_ Hw]. split; [by eexists _, _|].
  destruct (moved_fields fileName file st) as (_ & _ & _ & Hw' & _).
  unfold archived_state. cbn [writable set_cache set_metadataFile log_call].
  by rewrite Hw'.
Qed.

Lemma archived_state_site_other fileName file m st g :
  table st = Some m -> g <> fileName ->
  site g (archived_state fileName file m st) = site g st.
Proof.
  intros Ht Hne. rewrite !site_eq. unfold file_at.
  rewrite (table_cached (archived_state fileName file m st)
             (store_written fileName archived (moved fileName file st) m))
    by done.
  unfold archived_state.
  cbn [folder iterations archive set_cache set_metadataFile log_call
       DesignMetadataStore.designs store_written].
  destruct (moved_fields fileName file st) as (-> & -> & _).
  rewrite Ht. cbn [mbind option_bind].
  rewrite status_written_other, lookup_insert_ne, lookup_default_empty
    by done.
  f_equal. f_equal. destruct (iterations st) as [dir|]; [|done].
  simpl. by apply lookup_delete_ne.
Qed.

Lemma archived_state_site_same fileName file m st :
  archived_site file (site fileName (archived_state fileName file m st)).
Proof.
  unfold archived_site. rewrite site_eq. unfold file_at. cbn [fst snd].
  rewrite (table_cached (archived_state fileName file m st)
             (store_written fileName archived (moved fileName file st) m))
    by done.
  unfold archived_state.
  cbn [folder iterations archive set_cache set_metadataFile log_call
       DesignMetadataStore.designs store_written].
  destruct (moved_fields fileName file st) as (-> & -> & _).
  cbn [mbind option_bind]. rewrite lookup_insert_eq.
  destruct (status_written_same fileName archived
              (clock (moved fileName file st)) m) as (rec & -> & Hs).
  split; [|split; [done|by exists rec]].
  destruct (iterations st) as [dir|]; [|done]. simpl.
  apply lookup_delete_eq.
Qed.

Lemma read_record_cached fileName st m rec :
  ready st -> table st = Some m -> m !! fileName = Some rec ->
  read_record (Cached, fileName) st = (inr rec, st).
Proof.
  intros [(s & m' & Hc & Hm) _] Ht Hf.
  rewrite (table_cached _ _ Hc), Hm in Ht. injection Ht as ->.
  unfold read_record, read_designs, deref, bind, gets, ret. simpl.
  by rewrite Hc, Hm, Hf.
Qed.

Lemma archive_if_old_spec cutoffDate n fileName st m rec :
  ready st -> table st = Some m -> m !! fileName = Some rec ->
  archive_if_old Cached cutoffDate n fileName st
  = if is_old_design cutoffDate rec then
      match file_at design_iterations fileName st with
      | Some file => (inr (n + 1), archived_state fileName file m st)
      | None => (inr n, log_call (copy_call fileName) (ensure_archive st))
      end
    else (inr n, st).
Proof.
  intros Hr Ht Hf. unfold archive_if_old.
  rewrite (bind_returns _ _ _ _ _ (read_record_cached _ _ _ _ Hr Ht Hf)).
  destruct (is_old_design cutoffDate rec); [|done].
  unfold try_catch, bind. rewrite (archiveDesign_ready _ _ _ Hr Ht).
  by destruct (file_at design_iterations fileName st).
Qed.

Lemma ready_table st : ready st -> exists m, table st = Some m.
Proof.
  intros [(s & m & Hc & Hm) _]. exists m. by rewrite (table_cached _ _ Hc).
Qed.

Lemma archive_if_old_step cutoffDate n fileName st m rec :
  ready st -> table st = Some m -> m !! fileName = Some rec ->
  exists n' st',
    archive_if_old Cached cutoffDate n fileName st = (inr n', st')
    /\ ready st'
    /\ (forall g, g <> fileName -> site g st' = site g st)
    /\ outcome cutoffDate fileName rec st st'.
Proof.
  intros Hr Ht Hf. rewrite (archive_if_old_spec _ _ _ _ _ _ Hr Ht Hf).
  unfold outcome.
  destruct (is_old_design cutoffDate rec); [|by eexists _, _].
  destruct (file_at design_iterations fileName st) as [file|] eqn:Hfile.
  - eexists _, _. split; [done|]. split; [by apply archived_state_ready|].
    split; [|apply archived_state_site_same].
    intros g Hg. by apply archived_state_site_other.
  - eexists _, _. split; [done|].
    assert (forall g, site g (log_call (copy_call fileName)
                                (ensure_archive st)) = site g st) as Hsite.
    { intros g. by rewrite site_log_call, site_ensure_archive. }
    split; [|by split; [intros g _|]].
    destruct Hr as [(s & m' & Hc & Hm) Hw].
    destruct (ensure_archive_fields st)
      as (_ & _ & _ & _ & Hw' & _ & Hc' & _).
    split; [exists s, m'; split; [|done]|];
      cbn [cache writable log_call]; congruence.
Qed.

Lemma archive_each_spec cutoffDate todo :
  forall st n m,
    NoDup todo -> ready st -> table st = Some m ->
    (forall f, f ∈ todo -> is_Some (m !! f)) ->
    exists n' st',
      archive_each Cached cutoffDate todo n st = (inr n', st')
      /\ ready st'
      /\ (forall g, g ∉ todo -> site g st' = site g st)
      /\ (forall f rec, f ∈ todo -> m !! f = Some rec ->
            outcome cutoffDate f rec st st').
Proof.
  induction todo as [|f todo IH]; intros st n m Hnd Hr Ht Hdom.
  - exists n, st. split; [done|]. split; [done|]. split; [done|].
    intros f rec Hf. by apply elem_of_nil in Hf.
  - apply NoDup_cons in Hnd as [Hf Hnd].
    destruct (Hdom f) as [rec Hrec]; [by left|].
    destruct (archive_if_old_step cutoffDate n f st m rec Hr Ht Hrec)
      as (n1 & st1 & Hstep & Hr1 & Hother1 & Hout1).
    destruct (ready_table st1 Hr1) as [m1 Ht1].
    assert (forall g, g <> f -> m1 !! g = m !! g) as Hm1.
    { intros g Hg. specialize (Hother1 g Hg).
      rewrite !site_eq, Ht1, Ht in Hother1. by injection Hother1. }
    destruct (IH st1 n1 m1 Hnd Hr1 Ht1) as (n' & st' & Hrun & Hr' & Hrest & Hout).
    { intros g Hg. rewrite Hm1; [apply Hdom; by right|].
      intros ->. done. }
    exists n', st'. split; [|split; [done|split]].
    + cbn [archive_each]. by rewrite (bind_returns _ _ _ _ _ Hstep).
    + intros g Hg. apply not_elem_of_cons in Hg as [Hgf Hg].
      by rewrite Hrest, Hother1.
    + intros g recg Hg Hrecg. apply elem_of_cons in Hg as [->|Hg].
      * assert (rec = recg) as <- by congruence.
        unfold outcome in *. rewrite (Hrest f Hf).
        exact Hout1.
      * assert (g <> f) as Hgf by (intros ->; done).
        specialize (Hout g recg Hg). rewrite Hm1 in Hout by done.
        specialize (Hout Hrecg). unfold outcome in *.
        pose proof (Hother1 g Hgf) as Hsite.
        rewrite Hsite in Hout.
        assert (file_at design_iterations g st1
                = file_at design_iterations g st) as Hfile.
        { rewrite !site_eq in Hsite. by injection Hsite. }
        by rewrite Hfile in Hout.
Qed.

Lemma is_string_true v s : is_string v s = true <-> v = Some (JStr s).
Proof.
  unfold is_string. destruct v as [[]|]; try (split; [done|congruence]).
  rewrite String.eqb_eq. split; congruence.
Qed.

Lemma is_old_design_iff cutoff rec :
  is_old_design (Some cutoff) rec = true <-> old_unapproved cutoff rec.
Proof.
  unfold is_old_design, old_unapproved.
  rewrite !andb_true_iff, !negb_true_iff, <- !not_true_iff_false,
    !is_string_true.
  unfold date_lt. destruct (DesignMetadata.createdAt rec) as [t|].
  - rewrite Z.ltb_lt. split.
    + intros [[? ?] ?]. eauto.
    + intros (? & ? & t' & [= <-] & ?). done.
  - split; [intros [_ ?]; done|]. intros (_ & _ & t & ? & _). done.
Qed.

Lemma site_settle g st : site g (settle st) = site g st.
Proof.
  rewrite !site_eq. unfold file_at. cbn [folder]. rewrite table_settle.
  destruct (settle_fields st) as (Hit & Har & _).
  by rewrite Hit, Har.
Qed.

Lemma is_old_design_by cutoffDate rec :
  is_old_design cutoffDate rec = true <-> old_by cutoffDate rec.
Proof.
  destruct cutoffDate as [cutoff|]; [apply is_old_design_iff|].
  unfold is_old_design, date_lt. simpl.
  destruct (DesignMetadata.createdAt rec);
    rewrite andb_false_r; split; done.
Qed.

(** In a time zone that keeps one offset, the cutoff is now minus
    [daysOld] days of 24 hours. *)
Lemma setDate_back_fixed t daysOld :
  Z.abs (t - daysOld * ms_per_day) <= max_time ->
  setDate_back fixed_LocalTime fixed_UTC t daysOld
  = Some (t - daysOld * ms_per_day).
Proof.
  intros Hrange. unfold setDate_back, fixed_LocalTime, fixed_UTC.
  replace (t + hour - daysOld * ms_per_day - hour)
    with (t - daysOld * ms_per_day) by lia.
  by rewrite (proj2 (Z.leb_le _ _) Hrange).
Qed.

(** C9 (as stated, refuted): thirty days of 24 hours before now is time
    1000.  The draft [a.html] was made half an hour after that, so it is
    not older than now minus thirty days; but the clocks went forward in
    between, [setDate] puts the cutoff an hour later, and
    [archiveOldDesigns(30)] archives it.  The draft [b.html] is older
    than the cutoff, but its file is not in the design folder: it is
    not archived and its record still says [draft]. *)
Theorem C9_cutoff_is_a_calendar_date :
  let st := workspace_summer in
  let run :=
    archiveOldDesigns (summer_LocalTime change_summer)
      (summer_UTC change_summer) 30 st in
  fst (read_table st) = inr table_summer
  /\ ~ old_unapproved (clock st - 30 * ms_per_day)
         (record_at (1000 + 30 * 60000) draft "a.html")
  /\ old_unapproved (clock st - 30 * ms_per_day) (record_at 5 draft "b.html")
  /\ fst run = inr 1
  /\ archived_site file_a (site "a.html" (snd run))
  /\ file_at design_archive "b.html" (snd run) = None
  /\ read_status "b.html" (snd run) = inr (Some (JStr "draft")).
Proof.
  split; [vm_compute; reflexivity|].
  split.
  { intros (_ & _ & t & [= <-] & Hlt). vm_compute in Hlt. discriminate. }
  split.
  { split; [discriminate|]. split; [discriminate|].
    exists 5. split; reflexivity. }
  split; [vm_compute; reflexivity|].
  split.
  { split; [vm_compute; reflexivity|]. split; [vm_compute; reflexivity|].
    eexists. split; [vm_compute; reflexivity|]. reflexivity. }
  split; vm_compute; reflexivity.
Qed.

(** C9 (amended): [archiveOldDesigns(daysOld)], run on a table it can
    read and a metadata file it can write, returns.  The cutoff is the
    date [setDate] leaves: the same local time of day, [daysOld] days of
    the local calendar before now, and Invalid Date when that is outside
    the range of dates.  For every record of the table: if the status is
    neither [approved] nor [archived], [createdAt] is strictly before the
    cutoff and the file is in the design folder, the file is moved to the
    archive folder with the status [archived]; otherwise, and so for
    every approved or archived design whatever its age, for every record
    without a file in the design folder, and for every record when the
    cutoff is Invalid Date, the design file, the archive folder and the
    record are as before.  A name the table does not hold is left
    alone. *)
Theorem C9_bulk_archive_takes_old_unapproved (LocalTime UTC : Z -> Z)
    (st : State) (daysOld : Z) (m : gmap string DesignMetadata.t) :
  fst (read_table st) = inr m ->
  writable st = true ->
  let cutoffDate := setDate_back LocalTime UTC (clock st) daysOld in
  exists n st',
    archiveOldDesigns LocalTime UTC daysOld st = (inr n, st')
    /\ (forall f rec, m !! f = Some rec ->
          (old_by cutoffDate rec ->
           forall file, file_at design_iterations f st = Some file ->
             archived_site file (site f st'))
          /\ (~ old_by cutoffDate rec -> site f st' = site f st)
          /\ (DesignMetadata.status rec = Some (JStr "approved")
              \/ DesignMetadata.status rec = Some (JStr "archived") ->
              site f st' = site f st)
          /\ (file_at design_iterations f st = None ->
              site f st' = site f st)
          /\ (cutoffDate = None -> site f st' = site f st))
    /\ (forall g, m !! g = None -> site g st' = site g st).
Proof.
  intros Ht Hw cutoffDate. apply read_table_inr in Ht.
  unfold archiveOldDesigns.
  rewrite (bind_returns _ _ _ _ _ (loadMetadata_spec st)).
  unfold now. unfold bind at 1. unfold gets at 1.
  unfold bind at 1. rewrite read_designs_loaded, Ht.
  destruct (settle_fields st) as (_ & _ & _ & Hw' & -> & _).
  fold cutoffDate. clearbody cutoffDate.
  assert (forall st' : State,
            (forall f rec, m !! f = Some rec ->
               outcome cutoffDate f rec (settle st) st') ->
            forall f rec, m !! f = Some rec ->
              (old_by cutoffDate rec ->
               forall file, file_at design_iterations f st = Some file ->
                 archived_site file (site f st'))
              /\ (~ old_by cutoffDate rec -> site f st' = site f st)
              /\ (DesignMetadata.status rec = Some (JStr "approved")
                  \/ DesignMetadata.status rec = Some (JStr "archived") ->
                  site f st' = site f st)
              /\ (file_at design_iterations f st = None ->
                  site f st' = site f st)
              /\ (cutoffDate = None -> site f st' = site f st)) as Hread.
  { intros st' Hout f rec Hrec. specialize (Hout f rec Hrec).
    unfold outcome in Hout.
    assert (file_at design_iterations f (settle st)
            = file_at design_iterations f st) as Hfile.
    { pose proof (site_settle f st) as Hs. rewrite !site_eq in Hs.
      by injection Hs. }
    rewrite Hfile, site_settle in Hout.
    assert (~ old_by cutoffDate rec -> site f st' = site f st) as Hno.
    { intros Hnot. rewrite <- is_old_design_by in Hnot.
      by destruct (is_old_design cutoffDate rec). }
    split; [|split; [done|split; [|split]]].
    - intros Hold file Hf. apply is_old_design_by in Hold.
      by rewrite Hold, Hf in Hout.
    - intros Hst. apply Hno.
      destruct cutoffDate as [cutoff|]; [|by intros []].
      intros (Ha & Hb & _). by destruct Hst.
    - intros Hf. rewrite Hf in Hout.
      by destruct (is_old_design cutoffDate rec).
    - intros Hnone. apply Hno. rewrite Hnone. by intros []. }
  destruct (cache (settle st)) as [s|] eqn:Hc.
  - (* the table is the cached one *)
    assert (ready (settle st)) as Hr.
    { split; [|congruence]. exists s, m. split; [done|].
      by rewrite <- (table_cached _ _ Hc), table_settle. }
    destruct (archive_each_spec cutoffDate (map_to_list m).*1
                (settle st) 0 m) as (n & st' & Hrun & _ & Hrest & Hout).
    { apply NoDup_fst_map_to_list. }
    { done. }
    { by rewrite table_settle. }
    { intros f Hf. apply list_elem_of_fmap in Hf as ([f' rec] & -> & Hf).
      apply elem_of_map_to_list in Hf. by exists rec. }
    exists n, st'. unfold loaded. rewrite Hc. split; [exact Hrun|].
    split.
    + apply Hread. intros f rec Hrec. apply Hout; [|done].
      apply list_elem_of_fmap. exists (f, rec). split; [done|].
      by apply elem_of_map_to_list.
    + intros g Hg. rewrite Hrest, site_settle; [done|].
      intros Hin. apply list_elem_of_fmap in Hin as ([g' rec] & -> & Hin).
      apply elem_of_map_to_list in Hin. simpl in Hg. congruence.
  - (* nothing cached: the table is the empty one of a fresh store *)
    assert (m = ∅) as ->.
    { unfold table, view in Ht. rewrite Hc in Ht. by injection Ht. }
    rewrite map_to_list_empty. exists 0, (settle st). split; [done|].
    split; [|intros g _; apply site_settle].
    intros f rec Hrec. by rewrite lookup_empty in Hrec.
Qed.

(** *** Loading and saving *)

(** C5 (failing input): the document [{ "designs": null, "version":
    "1.0.0" }] is not a metadata store, yet it passes
    [isValidMetadataStore] ([typeof null] is ['object']).  [loadMetadata]
    returns without throwing, but what it returns and caches is that
    document with [designs] null, not an empty table: the next read and
    the next [updateStatus] throw a [TypeError], where on an empty table
    (no file) the read finds no record and [updateStatus] succeeds. *)
Theorem C5_null_designs_pass_the_guard :
  let st := workspace_with (content (document null_designs)) in
  isValidMetadataStore null_designs = true
  /\ fst (loadMetadata st) = inr Cached
  /\ (DesignMetadataStore.designs <$> cache (snd (loadMetadata st)))
     = Some None
  /\ fst (getDesignMetadata "a.html" (snd (loadMetadata st)))
     = inl TypeError
  /\ fst (updateStatus "a.html" approved (snd (loadMetadata st)))
     = inl TypeError
  /\ fst (getDesignMetadata "a.html" (workspace_with no_file)) = inr None
  /\ fst (updateStatus "a.html" approved (workspace_with no_file))
     = inr tt.
Proof. vm_compute. repeat split. Qed.

(** The part of C5 that holds: [loadMetadata] returns in every state, and
    on a missing, unreadable or unparseable file, or a document the guard
    rejects, it returns a fresh empty store and caches nothing. *)
Lemma loadMetadata_total_with_fallback st :
  returns loadMetadata st
  /\ (cache st = None -> rejected (metadataFile st) ->
      loadMetadata st = (inr (Fresh (empty_store (clock st))), st)).
Proof.
  split; [apply loadMetadata_returns|apply loadMetadata_fallback].
Qed.

(** C8 (failing input): the table is cached with [a.html] as a draft and
    the metadata file cannot be written.  [updateStatus] throws the write
    error and the file is untouched, but the cached record has already
    been changed in place: the next read through the cache says
    [approved], not [draft]. *)
Theorem C8_refused_write_leaves_cache_changed :
  let st' := snd (updateStatus "a.html" approved unwritable_a) in
  read_status "a.html" unwritable_a = inr (Some (JStr "draft"))
  /\ fst (updateStatus "a.html" approved unwritable_a) = inl Unavailable
  /\ metadataFile st' = metadataFile unwritable_a
  /\ read_status "a.html" st' = inr (Some (JStr "approved"))
  /\ cache st' <> cache unwritable_a.
Proof.
  vm_compute. repeat split. discriminate.
Qed.

(** The part of C8 that holds: a refused write is thrown to the caller;
    and when the store was not the cached object, reads after the failure
    are what they were. *)
Lemma updateStatus_refused fileName status st m :
  table st = Some m -> writable st = false ->
  fst (updateStatus fileName status st) = inl Unavailable
  /\ (cache (settle st) = None ->
      forall g, fst (record_of g (snd (updateStatus fileName status st)))
                = fst (record_of g st)).
Proof.
  intros Ht Hw. rewrite updateStatus_spec, Ht, Hw. split; [done|].
  intros Hc g. rewrite Hc. cbn [snd].
  by rewrite !record_of_spec, table_log_call, table_settle.
Qed.

Lemma C9_bulk_archive_witness :
  exists n st',
    archiveOldDesigns fixed_LocalTime fixed_UTC 30 workspace_old
    = (inr n, st')
    /\ archived_site file_a (site "a.html" st')
    /\ site "b.html" st' = site "b.html" workspace_old
    /\ site "c.html" st' = site "c.html" workspace_old.
Proof.
  destruct (C9_bulk_archive_takes_old_unapproved fixed_LocalTime fixed_UTC
              workspace_old 30 table_old)
    as (n & st' & Hrun & Hrec & _).
  - vm_compute. reflexivity.
  - reflexivity.
  - exists n, st'. split; [exact Hrun|]. split; [|split].
    + destruct (Hrec "a.html" (record_at 5 draft "a.html")) as (Ha & _).
      * reflexivity.
      * apply Ha; [|reflexivity].
        split; [discriminate|]. split; [discriminate|].
        exists 5. split; [reflexivity|]. reflexivity.
    + destruct (Hrec "b.html" (record_at 5 approved "b.html"))
        as (_ & _ & Hb & _); [reflexivity|].
      apply Hb. left. reflexivity.
    + destruct (Hrec "c.html"
                  (record_at (1000 + 29 * ms_per_day) draft "c.html"))
        as (_ & Hc & _); [reflexivity|].
      apply Hc. intros (_ & _ & t & [= <-] & Hlt). vm_compute in Hlt.
      discriminate.
Defined.

(** *** Reading back what was written *)

Lemma revive_record_status rec :
  DesignMetadata.elements rec = None ->
  DesignMetadata.status (revive_record (record_to_json rec))
  = DesignMetadata.status rec.
Proof.
  destruct rec as [[fn|] [st|] ca ua [pd|] [tg|] [nt|] [ex|] [ve|] el];
    simpl; intros ->; reflexivity.
Qed.

Lemma revive_designs_printed (m : gmap string DesignMetadata.t) :
  revive_designs (map_to_list (record_to_json <$> m))
  = inr (revive_record <$> (record_to_json <$> m)).
Proof.
  unfold revive_designs. rewrite list_to_map_to_list.
  assert (forallb (fun kv : string * json => is_object kv.2)
            (map_to_list (record_to_json <$> m)) = true) as ->; [|done].
  apply forallb_forall. intros [k v] Hin.
  apply list_elem_of_In, elem_of_map_to_list in Hin.
  rewrite lookup_fmap in Hin.
  destruct (m !! k) as [rec|]; simplify_eq/=.
  unfold record_to_json. by destruct (DesignMetadata.elements rec).
Qed.

Lemma stringify_valid s :
  typeof (DesignMetadataStore.version s) = TString ->
  isValidMetadataStore (stringify s) = true.
Proof.
  intros Hv. unfold isValidMetadataStore, stringify, designs_to_json.
  destruct s as [[m|] lu [ver|] [n|]]; simpl in *; try done;
    by rewrite Hv.
Qed.

Lemma revive_stringify s m :
  typeof (DesignMetadataStore.version s) = TString ->
  DesignMetadataStore.designs s = Some m ->
  DesignMetadataStore.designs_array s = None ->
  exists s',
    revive (stringify s) = inr s'
    /\ DesignMetadataStore.designs s'
       = Some (revive_record <$> (record_to_json <$> m)).
Proof.
  intros Hv Hm Hn. destruct s as [d lu [ver|] n]; simpl in *; [|done].
  subst d n.
  unfold revive, stringify, designs_to_json.
  cbn [get_prop assoc String.eqb Ascii.eqb
    Bool.eqb own_props DesignMetadataStore.designs
    DesignMetadataStore.designs_array].
  simpl. rewrite revive_designs_printed. eexists. split; [done|]. done.
Qed.

(** A manager that starts on the file a store was printed to reads the
    statuses of that store. *)
Lemma written_status_is_read_back st s m fileName :
  typeof (DesignMetadataStore.version s) = TString ->
  DesignMetadataStore.designs s = Some m ->
  plain s ->
  cache st = None ->
  metadataFile st = content (document (stringify s)) ->
  read_status fileName st = inr ((m !! fileName) ≫= DesignMetadata.status).
Proof.
  intros Hv Hm [Hn Hplain] Hc Hf.
  destruct (revive_stringify s m Hv Hm Hn) as (s' & Hrev & Hs').
  rewrite read_status_spec. unfold table, view, settle.
  rewrite Hc, Hf, (stringify_valid s Hv), Hrev. cbn [cache set_cache].
  rewrite Hs'. f_equal. rewrite !lookup_fmap.
  destruct (m !! fileName) as [rec|] eqn:Hrec; [|done]. simpl.
  apply revive_record_status. by apply (Hplain m Hm fileName).
Qed.

Lemma is_plain_plain s : is_plain s = true <-> plain s.
Proof.
  unfold is_plain, plain, plain_table.
  destruct (DesignMetadataStore.designs_array s) as [n|];
    [split; [done|by intros [? _]]|].
  destruct (DesignMetadataStore.designs s) as [m|];
    [|split; [by split|done]].
  rewrite forallb_forall. split.
  - intros Hall. split; [done|]. intros m' [= <-] k rec Hk.
    specialize (Hall (k, rec)). cbn [snd] in Hall.
    destruct (DesignMetadata.elements rec); [|done].
    discriminate Hall. by apply list_elem_of_In, elem_of_map_to_list.
  - intros [_ Hplain] [k rec] Hin.
    apply list_elem_of_In, elem_of_map_to_list in Hin. cbn [snd].
    by rewrite (Hplain m eq_refl k rec Hin).
Qed.

Lemma read_store_spec st : read_store st = (inr (view st), settle st).
Proof.
  unfold read_store.
  rewrite (bind_returns _ _ _ _ _ (loadMetadata_spec st)).
  unfold loaded, view, deref, bind, gets, ret.
  destruct (cache (settle st)) as [s|] eqn:Hc; simpl; [by rewrite Hc|done].
Qed.

Lemma shape_moved fileName file st :
  shape (moved fileName file st) = shape st.
Proof.
  unfold shape, moved, ensure_archive. cbv zeta.
  destruct (archive st);
    repeat (rewrite view_set_folder || rewrite view_log_call);
    reflexivity.
Qed.

(** A status change keeps a plain table plain, whatever the name. *)
Lemma store_written_plain fileName status st m :
  table st = Some m -> plain (view st) ->
  plain (store_written fileName status st m).
Proof.
  intros Ht [Hn Hplain]. specialize (Hplain m Ht). split.
  - cbn [store_written DesignMetadataStore.designs_array].
    unfold shape_written, shape. rewrite Hn. by destruct (m !! fileName).
  - cbn [store_written DesignMetadataStore.designs].
    intros m' [= <-] k rec. unfold status_written.
    destruct (decide (k = fileName)) as [->|Hne].
    + rewrite !lookup_alter_eq.
      destruct (m !! fileName) as [rec0|] eqn:Hf.
      * rewrite Hf. intros [= <-]. simpl. by apply (Hplain fileName).
      * rewrite lookup_insert_eq. by intros [= <-].
    + rewrite !lookup_alter_ne by done.
      destruct (m !! fileName); [apply Hplain|].
      rewrite lookup_insert_ne by done. apply Hplain.
Qed.

Lemma view_moved fileName file st :
  view (moved fileName file st) = view st.
Proof.
  unfold moved, ensure_archive. cbv zeta.
  destruct (archive st);
    repeat (rewrite view_set_folder || rewrite view_log_call);
    reflexivity.
Qed.

Lemma revive_version data s :
  revive data = inr s ->
  DesignMetadataStore.version s = get_prop "version" data.
Proof.
  unfold revive. destruct (get_prop "designs" data) as [d|].
  - destruct d; try (by intros [= <-]); try done;
      destruct (own_props _); try done;
      destruct (revive_designs _); try done; by intros [= <-].
  - by intros [= <-].
Qed.

Lemma view_versioned st :
  versioned st -> typeof (DesignMetadataStore.version (view st)) = TString.
Proof.
  intros Hv. unfold view, settle.
  destruct (cache st) as [s|] eqn:Hc; [rewrite Hc; by apply Hv|].
  destruct (metadataFile st) as [| |[|data]]; rewrite ?Hc; try done.
  destruct (isValidMetadataStore data) eqn:Hvalid; rewrite ?Hc; [|done].
  destruct (revive data) as [e|s] eqn:Hrev; rewrite ?Hc; [done|].
  cbn [cache set_cache]. rewrite (revive_version _ _ Hrev).
  unfold isValidMetadataStore in Hvalid.
  apply andb_true_iff in Hvalid as [_ Hvalid].
  by destruct (typeof (get_prop "version" data)).
Qed.

End DesignManagerProps.

(** * Properties of the message handler *)

Module CanvasMessageHandlerProps.
Import DesignManager DesignManagerSpec DesignManagerProps.
Import CanvasMessageHandler CanvasMessageHandlerSpec.

Lemma design_of_spec file st :
  design_of file st
  = match iterations st ≫= (fun d => d !! file) with
    | None => (inl FileNotFound, st)
    | Some stats =>
        (match table st with
         | None => inl TypeError
         | Some m => inr (entry_of file stats (m !! file))
         end, settle st)
    end.
Proof.
  unfold design_of, read_entry. unfold bind at 1 2. unfold gets at 1.
  cbn [folder].
  destruct (iterations st ≫= _) as [stats|]; [|done].
  unfold ret at 1. unfold bind at 1. rewrite getDesignMetadata_spec.
  destruct (table st) as [m|] eqn:Ht; [|done].
  destruct (m !! file) as [rec|] eqn:Hf; [|done].
  unfold bind. rewrite read_record_loaded, Ht, Hf. done.
Qed.

Lemma design_of_filePath file st d st' :
  design_of file st = (inr d, st') -> filePath d = file.
Proof.
  rewrite design_of_spec.
  destruct (iterations st ≫= _); [|done].
  destruct (table st); [|done]. by intros [= <- _].
Qed.

Lemma design_of_state file st :
  snd (design_of file st) = st \/ snd (design_of file st) = settle st.
Proof.
  rewrite design_of_spec. destruct (iterations st ≫= _); auto.
Qed.

Lemma design_of_settle file st :
  design_of file (settle st) = (fst (design_of file st), settle st).
Proof.
  rewrite !design_of_spec, table_settle, settle_idem.
  destruct (settle_fields st) as (-> & _).
  by destruct (iterations st ≫= _).
Qed.

Lemma map_each_cons {S A B} (body : A -> M S B) x l s :
  map_each body (x :: l) s
  = match body x s with
    | (inl e, s1) => (inl e, s1)
    | (inr y, s1) =>
        match map_each body l s1 with
        | (inl e, s2) => (inl e, s2)
        | (inr ys, s2) => (inr (y :: ys), s2)
        end
    end.
Proof.
  cbn [map_each]. unfold bind.
  destruct (body x s) as [[e|y] s1]; [done|].
  by destruct (map_each body l s1) as [[e|ys] s2].
Qed.

Lemma map_each_settle files st :
  map_each design_of files (settle st)
  = (fst (map_each design_of files (settle st)), settle st).
Proof.
  induction files as [|f files IH]; [done|].
  rewrite map_each_cons, design_of_settle.
  destruct (fst (design_of f st)) as [e|y]; [done|].
  rewrite IH.
  by destruct (fst (map_each design_of files (settle st))).
Qed.

Lemma map_each_design_of files st :
  (snd (map_each design_of files st) = st
   \/ snd (map_each design_of files st) = settle st)
  /\ fst (map_each design_of files (settle st))
     = fst (map_each design_of files st).
Proof.
  destruct files as [|f files]; [by split; [left|]|].
  rewrite !map_each_cons, design_of_settle, (design_of_spec f st).
  destruct (iterations st ≫= _) as [stats|]; [|by split; [left|]].
  cbn [fst]. destruct (table st) as [m|]; [|by split; [right|]].
  rewrite map_each_settle.
  destruct (fst (map_each design_of files (settle st))); by split; [right|].
Qed.

Lemma map_each_results {S A B} (body : A -> M S B) (l : list A) s ys s' :
  map_each body l s = (inr ys, s') ->
  Forall2 (fun x y => exists s1 s2, body x s1 = (inr y, s2)) l ys.
Proof.
  revert s ys. induction l as [|x l IH]; intros s ys.
  - intros [= <- _]. constructor.
  - cbn [map_each]. intros H.
    apply bind_inv in H as (y & s1 & Hy & H).
    apply bind_inv in H as (ys' & s2 & Hys & H).
    unfold ret in H. injection H as <- <-.
    constructor; [eauto|by eapply IH].
Qed.

Lemma getDesignFiles_unfold st :
  getDesignFiles st
  = match iterations st with
    | None => (inr [], st)
    | Some d =>
        match map_each design_of
                (List.filter (fun f => endsWith f ".html") (readdir d)) st
        with
        | (inl e, st') => (inl e, st')
        | (inr ds, st') => (inr (sort_newest_first ds), st')
        end
    end.
Proof.
  unfold getDesignFiles. unfold bind at 1. unfold gets.
  destruct (iterations st) as [d|]; [|done].
  unfold bind. by destruct (map_each design_of _ st) as [[e|ys] st'].
Qed.

Lemma getDesignFiles_state st :
  snd (getDesignFiles st) = st \/ snd (getDesignFiles st) = settle st.
Proof.
  rewrite getDesignFiles_unfold.
  destruct (iterations st) as [d|]; [|by left].
  destruct (map_each_design_of
              (List.filter (fun f => endsWith f ".html") (readdir d)) st)
    as [Hs _].
  by destruct (map_each design_of _ st) as [[e|ys] st'].
Qed.

Lemma catalog_settle st : catalog (settle st) = catalog st.
Proof.
  unfold catalog. rewrite !getDesignFiles_unfold.
  destruct (settle_fields st) as (-> & _).
  destruct (iterations st) as [d|]; [|done].
  destruct (map_each_design_of
              (List.filter (fun f => endsWith f ".html") (readdir d)) st)
    as [_ Hr].
  destruct (map_each design_of _ (settle st)) as [[e|ys] st1];
    destruct (map_each design_of _ st) as [[e'|ys'] st1'];
    simpl in *; congruence.
Qed.

Lemma getDesignFiles_settled st :
  snd (getDesignFiles (settle st)) = settle st.
Proof.
  destruct (getDesignFiles_state (settle st)) as [H|H]; [done|].
  by rewrite H, settle_idem.
Qed.

(** Reading the catalog twice gives the same catalog. *)
Lemma catalog_stable st : catalog (snd (getDesignFiles st)) = catalog st.
Proof.
  destruct (getDesignFiles_state st) as [->| ->]; [done|].
  apply catalog_settle.
Qed.

(** *** What a handler step leaves alone *)

Lemma keeps_ret {F A} (f : State -> F) (a : A) : keeps f (ret a).
Proof. done. Qed.

Lemma keeps_gets {F A} (f : State -> F) (g : State -> A) : keeps f (gets g).
Proof. done. Qed.

Lemma keeps_bind {F A B} (f : State -> F) (m : M State A)
    (k : A -> M State B) :
  keeps f m -> (forall a, keeps f (k a)) -> keeps f (bind m k).
Proof.
  intros Hm Hk h. unfold bind. specialize (Hm h).
  destruct (m h) as [[e|a] h1]; [done|]. rewrite <- Hm. apply Hk.
Qed.

Lemma keeps_try_catch {F A} (f : State -> F) (m : M State A)
    (handler : Exn -> M State A) :
  keeps f m -> (forall e, keeps f (handler e)) ->
  keeps f (try_catch m handler).
Proof.
  intros Hm Hk h. unfold try_catch. specialize (Hm h).
  destruct (m h) as [[e|a] h1]; [|done]. rewrite <- Hm. apply Hk.
Qed.

Lemma designManager_run {A} (m : M DesignManager.State A) h :
  designManager m h
  = (fst (m (manager h)), set_manager (snd (m (manager h))) h).
Proof.
  unfold designManager, zoom. by destruct (m (manager h)).
Qed.

Lemma keeps_designManager {F A} (f : State -> F)
    (m : M DesignManager.State A) :
  (forall x h, f (set_manager x h) = f h) -> keeps f (designManager m).
Proof. intros Hf h. rewrite designManager_run. apply Hf. Qed.

Lemma keeps_outbox_designManager {A} (m : M DesignManager.State A) :
  keeps outbox (designManager m).
Proof. by apply keeps_designManager. Qed.

Lemma keeps_deleteDesign_outbox fileName :
  keeps outbox (deleteDesign fileName).
Proof.
  apply keeps_bind; [apply keeps_gets|]. intros [|];
    [apply keeps_outbox_designManager|apply keeps_ret].
Qed.

(** *** The push *)

Lemma sendDesignsList_spec h :
  sendDesignsList h
  = (inr tt,
     post (push_of (manager h))
       (set_manager (snd (getDesignFiles (manager h))) h)).
Proof.
  unfold sendDesignsList, try_catch, push_of, catalog.
  unfold bind. rewrite designManager_run.
  by destruct (getDesignFiles (manager h)) as [[e|ds] st'].
Qed.

Lemma sendDesignsList_settled h :
  settle (manager h) = manager h ->
  sendDesignsList h = (inr tt, post (push_of (manager h)) h).
Proof.
  intros Hs. rewrite sendDesignsList_spec. do 2 f_equal.
  rewrite <- Hs, getDesignFiles_settled, Hs. by destruct h.
Qed.

(** After any step that posts nothing, [sendDesignsList] adds one message:
    the catalog of the state it leaves. *)
Lemma then_sendDesignsList (mut : M State unit) h h' :
  keeps outbox mut ->
  bind mut (fun _ => sendDesignsList) h = (inr tt, h') ->
  outbox h' = (outbox h ++ [push_of (manager h')])%list.
Proof.
  intros Hq H. apply bind_inv in H as ([] & h1 & Hmut & Hsend).
  rewrite sendDesignsList_spec in Hsend. injection Hsend as <-.
  cbn [outbox post manager set_manager].
  specialize (Hq h). rewrite Hmut in Hq. simpl in Hq. rewrite Hq.
  unfold push_of. by rewrite catalog_stable.
Qed.

(** *** The catalog lists the html files of the folder *)

Lemma insert_newest_first_perm d l : insert_newest_first d l ≡ₚ d :: l.
Proof.
  induction l as [|x l IH]; [done|]. simpl.
  destruct (timestamp d <? timestamp x); [|done].
  rewrite IH. apply Permutation_swap.
Qed.

Lemma sort_newest_first_perm l : sort_newest_first l ≡ₚ l.
Proof.
  induction l as [|x l IH]; [done|]. simpl.
  by rewrite insert_newest_first_perm, IH.
Qed.

Lemma catalog_files st ds :
  catalog st = inr ds ->
  forall f,
    (exists d, d ∈ ds /\ filePath d = f)
    <-> (endsWith f ".html" = true
         /\ is_Some (iterations st ≫= (fun dir => dir !! f))).
Proof.
  unfold catalog. rewrite getDesignFiles_unfold.
  destruct (iterations st) as [dir|]; simpl.
  - destruct (map_each design_of _ st) as [[e|ys] st'] eqn:Hmap; [done|].
    intros [= <-] f.
    apply map_each_results in Hmap.
    assert (filePath <$> ys
            = List.filter (fun f => endsWith f ".html") (readdir dir))
      as Hnames.
    { induction Hmap as [|x y l l' (s1 & s2 & Hxy) _ IH]; [done|].
      simpl. f_equal; [|done]. by eapply design_of_filePath. }
    transitivity (f ∈ filePath <$> ys).
    { rewrite list_elem_of_fmap. setoid_rewrite sort_newest_first_perm.
      split; intros (d & ? & ?); exists d; done. }
    rewrite Hnames, list_elem_of_In, filter_In, <- list_elem_of_In.
    unfold readdir. rewrite list_elem_of_fmap.
    split.
    + intros [((g & file) & -> & Hin) Hend]. split; [done|].
      apply elem_of_map_to_list in Hin. simpl. eauto.
    + intros [Hend [file Hfile]]. split; [|done].
      exists (f, file). split; [done|]. by apply elem_of_map_to_list.
  - intros [= <-] f. split.
    + intros (d & Hd & _). by apply elem_of_nil in Hd.
    + intros [_ [? ?]]. done.
Qed.

(** The rebuild throws only on a table it cannot read. *)
Lemma map_each_design_of_returns files :
  forall st,
    (forall f, f ∈ files ->
       is_Some (iterations st ≫= (fun dir => dir !! f))) ->
    is_Some (table st) ->
    exists ds, fst (map_each design_of files st) = inr ds.
Proof.
  induction files as [|f files IH]; intros st Hfiles Ht; [by exists []|].
  rewrite map_each_cons, design_of_spec.
  destruct (Hfiles f) as [stats ->]; [by left|].
  destruct Ht as [m Ht]. rewrite Ht.
  destruct (IH (settle st)) as [ds Hds].
  - intros g Hg. destruct (settle_fields st) as (-> & _).
    apply Hfiles. by right.
  - rewrite table_settle, Ht. by eexists.
  - destruct (map_each design_of files (settle st)) as [[e|ds'] st'];
      simpl in Hds; [done|]. by eexists.
Qed.

Lemma catalog_returns st :
  is_Some (table st) -> exists ds, catalog st = inr ds.
Proof.
  intros Ht. unfold catalog. rewrite getDesignFiles_unfold.
  destruct (iterations st) as [dir|] eqn:Hdir; [|by exists []].
  destruct (map_each_design_of_returns
              (List.filter (fun f => endsWith f ".html") (readdir dir)) st)
    as [ds Hds]; [|done|].
  - intros f Hf. rewrite Hdir. simpl.
    apply list_elem_of_In, filter_In in Hf as [Hf _].
    apply list_elem_of_In, list_elem_of_fmap in Hf as ([g file] & -> & Hf).
    apply elem_of_map_to_list in Hf. by exists file.
  - destruct (map_each design_of _ st) as [[e|ds'] st']; simpl in Hds;
      [done|]. by eexists.
Qed.

Lemma push_of_list st :
  is_Some (table st) -> exists ds, push_of st = designs_list ds.
Proof.
  intros Ht. unfold push_of. destruct (catalog_returns st Ht) as [ds ->].
  by exists ds.
Qed.

(** *** The three mutating actions, unfolded *)

Lemma handleDesignAction_setStatus designId val h :
  handleDesignAction designId "setStatus" val h
  = bind (designManager (getDesignMetadata (String.append designId ".html")))
      (fun metadata =>
         bind match metadata with
              | Some ref =>
                  bind (designManager
                          (write_record (DesignMetadata.set_status val) ref))
                    (fun ref =>
                       designManager
                         (setDesignMetadata (String.append designId ".html")
                            ref))
              | None => ret tt
              end
           (fun _ => sendDesignsList)) h.
Proof. reflexivity. Qed.

Lemma handleDesignAction_archive designId val h :
  handleDesignAction designId "archive" val h
  = bind (designManager (archiveDesign (String.append designId ".html")))
      (fun _ => sendDesignsList) h.
Proof. reflexivity. Qed.

Lemma handleDesignAction_delete designId val h :
  handleDesignAction designId "delete" val h
  = bind (deleteDesign (String.append designId ".html"))
      (fun _ => sendDesignsList) h.
Proof. reflexivity. Qed.

(** *** The primary pointer of the host *)

Lemma keeps_post {F} (f : State -> F) n :
  (forall n h, f (post n h) = f h) -> keeps f (postMessage n).
Proof. intros Hf h. apply Hf. Qed.

Lemma keeps_primary_sendDesignsList : keeps primaryDesignId sendDesignsList.
Proof.
  apply keeps_try_catch.
  - apply keeps_bind; [by apply keeps_designManager|].
    intros ds. by apply keeps_post.
  - intros _. by apply keeps_post.
Qed.

Lemma keeps_primary_handleDesignAction designId action val :
  keeps primaryDesignId (handleDesignAction designId action val).
Proof.
  unfold handleDesignAction, copyPromptToClipboard, deleteDesign.
  repeat case_match;
    repeat first
      [ apply keeps_primary_sendDesignsList
      | apply keeps_ret
      | apply keeps_gets
      | by apply keeps_designManager
      | apply keeps_bind; [|intros ?]
      | case_match ].
Qed.

End CanvasMessageHandlerProps.

(** * The primary pointer across the channel *)

Module ChannelProps.
Import DesignManager DesignManagerSpec DesignManagerProps.
Import CanvasMessageHandlerSpec CanvasMessageHandlerProps ChannelSpec.

(** C2 (as stated, refuted): after the delete action has removed the
    primary document [a] and the rebuilt catalog (now empty) has arrived,
    the primary pointer is not null on either side and names a document
    that the catalog does not hold. *)
Lemma C2_primary_pointer_dangles_after_delete :
  CanvasStore.primaryDesignId webview_primary_a = Some "a"
  /\ file_at design_iterations "a.html"
       (CanvasMessageHandler.manager host_after_delete) = None
  /\ CanvasMessageHandler.outbox host_after_delete = [designs_list []]
  /\ CanvasStore.designs webview_after_delete = []
  /\ CanvasStore.primaryDesignId webview_after_delete = Some "a"
  /\ CanvasStore.find_design
       (CanvasStore.primaryDesignId webview_after_delete)
       (CanvasStore.designs webview_after_delete) = None
  /\ CanvasMessageHandler.primaryDesignId host_after_delete = Some "a".
Proof. vm_compute. repeat split. Qed.

(** C2 (amended): the primary pointer is not checked against the catalog.
    In the webview it is the argument of the last [setPrimaryDesignId],
    whatever catalogs arrived since; on the host no design action, the
    delete action included, changes it.  So after the primary document is
    deleted and the catalog rebuilt, the pointer still names it. *)
Theorem C2_primary_pointer_is_last_set_primary :
  (forall es,
     CanvasStore.primaryDesignId (CanvasStore.run es CanvasStore.initial)
     = CanvasStoreSpec.last_primary es None)
  /\ (forall n s,
        CanvasStore.primaryDesignId (CanvasStore.messageHandler n s)
        = CanvasStore.primaryDesignId s)
  /\ (forall designId action val h,
        CanvasMessageHandler.primaryDesignId
          (snd (CanvasMessageHandler.handleDesignAction designId action
                  val h))
        = CanvasMessageHandler.primaryDesignId h).
Proof.
  split; [|split].
  - intros es. apply CanvasStoreProps.run_primary.
  - apply CanvasStoreProps.messageHandler_primary.
  - intros designId action val. apply keeps_primary_handleDesignAction.
Qed.

End ChannelProps.

(** * More properties of the canvas store *)

Module CanvasStoreExtra.
Import CanvasStore CanvasStoreSpec CanvasStoreProps CanvasStoreExtraSpec.

Lemma includes_id_false id l : includes_id id l = false <-> id ∉ l.
Proof.
  unfold includes_id. rewrite <- not_true_iff_false, existsb_exists.
  split.
  - intros Hno Hin. apply Hno. exists id.
    split; [by apply list_elem_of_In|apply String.eqb_refl].
  - intros Hno (x & Hin & Heq). apply String.eqb_eq in Heq as <-.
    by apply Hno, list_elem_of_In.
Qed.

Lemma includes_id_true id l : includes_id id l = true <-> id ∈ l.
Proof.
  destruct (includes_id id l) eqn:H.
  - split; [|done]. intros _. destruct (decide (id ∈ l)) as [|Hn]; [done|].
    apply includes_id_false in Hn. congruence.
  - apply includes_id_false in H. split; [done|]. intros Hin. done.
Qed.

Lemma NoDup_firstn {A} n (l : list A) : NoDup l -> NoDup (firstn n l).
Proof.
  intros H. apply (sublist_NoDup (firstn n l) l H), sublist_take.
Qed.

Lemma NoDup_List_filter {A} (p : A -> bool) (l : list A) :
  NoDup l -> NoDup (List.filter p l).
Proof.
  induction 1 as [|x l Hx Hl IH]; simpl; [constructor|].
  destruct (p x); [|done]. constructor; [|done].
  rewrite list_elem_of_In, filter_In, <- list_elem_of_In. tauto.
Qed.

Lemma step_compare_NoDup e s :
  NoDup (compareSet s) -> NoDup (compareSet (step e s)).
Proof.
  intros H. destruct e; simpl; try done.
  - by rewrite messageHandler_compareSet.
  - unfold addToCompare. destruct (includes_id _ _) eqn:Hin; [done|].
    cbn [compareSet with_compare]. apply NoDup_firstn.
    apply NoDup_app. split; [done|]. split; [|apply NoDup_singleton].
    intros x Hx Hx'. apply list_elem_of_singleton in Hx' as ->.
    by apply includes_id_false in Hin.
  - by apply NoDup_List_filter.
  - constructor.
Qed.

(** X1: in every reachable state the compare-set holds no design twice. *)
Theorem compare_set_has_no_duplicates (s : State) :
  reachable s -> NoDup (compareSet s).
Proof.
  induction 1 as [|e s _ IH]; [constructor|]. by apply step_compare_NoDup.
Qed.

Lemma compare_set_has_no_duplicates_witness : NoDup (compareSet compare_abc).
Proof. apply compare_set_has_no_duplicates. apply reachable_run. Defined.

Lemma List_filter_id {A} (p : A -> bool) (l : list A) :
  (forall x, x ∈ l -> p x = true) -> List.filter p l = l.
Proof.
  induction l as [|x l IH]; intros H; simpl; [done|].
  rewrite H by left. f_equal. apply IH. intros y Hy. apply H. by right.
Qed.

(** X2: removing a design right after adding it gives back the
    compare-set there was, whether the addition found room or not. *)
Theorem add_then_remove_restores_compare_set (s : State) (id : string) :
  reachable s ->
  includes_id id (compareSet s) = false ->
  compareSet (removeFromCompare id (addToCompare id s)) = compareSet s.
Proof.
  intros Hs Hnew. pose proof (reachable_compare_bound s Hs) as Hlen.
  apply includes_id_false in Hnew as Hnotin.
  unfold addToCompare. rewrite Hnew.
  cbn [removeFromCompare compareSet with_compare].
  assert (List.filter (fun cid => negb (String.eqb cid id)) (compareSet s)
          = compareSet s) as Hkeep.
  { apply List_filter_id. intros x Hx. apply negb_true_iff.
    apply String.eqb_neq. intros ->. done. }
  destruct (decide (length (compareSet s) = 3%nat)) as [H3|H3].
  - rewrite firstn_app, H3. simpl. rewrite firstn_all2 by lia.
    by rewrite app_nil_r.
  - rewrite firstn_all2 by (rewrite length_app; simpl; lia).
    rewrite List.filter_app, Hkeep. simpl. rewrite String.eqb_refl. simpl.
    by rewrite app_nil_r.
Qed.

Lemma add_then_remove_witness :
  compareSet (removeFromCompare "c" (addToCompare "c" compare_ab))
  = compareSet compare_ab.
Proof.
  apply add_then_remove_restores_compare_set;
    [apply reachable_run|reflexivity].
Defined.


Lemma List_filter_incl_length (p : DesignFile -> bool) (cs : list string)
    (ds : list DesignFile) :
  NoDup (name <$> ds) ->
  (forall d, d ∈ ds -> p d = true -> name d ∈ cs) ->
  (length (List.filter p ds) <= length cs)%nat.
Proof.
  intros Hnd Hin.
  rewrite <- (length_fmap name (List.filter p ds)).
  apply submseteq_length, NoDup_submseteq.
  - clear Hin. induction ds as [|d ds IH]; simpl; [constructor|].
    apply NoDup_cons in Hnd as [Hd Hnd].
    destruct (p d); [|by apply IH]. simpl. apply NoDup_cons. split.
    + intros Hx. apply Hd. apply list_elem_of_fmap in Hx as (y & -> & Hy).
      apply list_elem_of_fmap. exists y. split; [done|].
      apply list_elem_of_In, filter_In in Hy as [Hy _].
      by apply list_elem_of_In.
    + by apply IH.
  - intros x Hx. apply list_elem_of_fmap in Hx as (y & -> & Hy).
    apply list_elem_of_In, filter_In in Hy as [Hy Hp].
    apply Hin; [by apply list_elem_of_In|done].
Qed.

(** X3: when the catalog gives every design a name of its own,
    [CompareView] mounts at most three frames in any reachable state. *)
Theorem compare_view_mounts_at_most_three (s : State) :
  reachable s ->
  NoDup (name <$> designs s) ->
  (frames_mounted s <= 3)%nat.
Proof.
  intros Hs Hnd. pose proof (reachable_compare_bound s Hs) as Hlen.
  assert (length (List.filter (fun d => includes_id (name d) (compareSet s))
                    (designs s)) <= length (compareSet s))%nat as Hle.
  { apply List_filter_incl_length; [done|].
    intros d _ Hd. by apply includes_id_true. }
  unfold frames_mounted, CompareView.
  destruct (List.filter _ _); simpl in *; lia.
Qed.

Lemma compare_view_mounts_at_most_three_witness :
  (frames_mounted two_of_four <= 3)%nat.
Proof.
  apply compare_view_mounts_at_most_three.
  - apply reachable_run.
  - apply (bool_decide_unpack _). vm_compute. reflexivity.
Defined.

Lemma firstn_firstn_app {A} n (l k : list A) :
  firstn n (firstn n l ++ k) = firstn n (l ++ k).
Proof.
  revert l; induction n as [|n IH]; intros l; [done|].
  destruct l as [|x l]; simpl; [done|]. by rewrite IH.
Qed.

Lemma handleCompareSelected_from ids :
  forall s,
    NoDup (compareSet s ++ ids) ->
    (length (compareSet s) <= 3)%nat ->
    compareSet (handleCompareSelected ids s) = firstn 3 (compareSet s ++ ids)
    /\ (ids <> [] -> mode (handleCompareSelected ids s) = compare)
    /\ designs (handleCompareSelected ids s) = designs s
    /\ studioDesignId (handleCompareSelected ids s) = studioDesignId s.
Proof.
  induction ids as [|id ids IH]; intros s Hnd Hlen.
  - simpl. rewrite app_nil_r, firstn_all2 by done. done.
  - cbn [handleCompareSelected fold_left].
    change (fold_left (fun s id => addToCompare id s) ids ?x)
      with (handleCompareSelected ids x).
    assert (id ∉ compareSet s) as Hnotin.
    { intros Hin. apply NoDup_app in Hnd as (_ & Hd & _).
      apply (Hd id Hin). by left. }
    apply includes_id_false in Hnotin as Hinc.
    assert (compareSet (addToCompare id s) = firstn 3 (compareSet s ++ [id]))
      as Hcs.
    { unfold addToCompare. by rewrite Hinc. }
    assert (mode (addToCompare id s) = compare) as Hmode.
    { unfold addToCompare. rewrite Hinc. cbn [mode with_compare].
      destruct (compareSet s); done. }
    assert (designs (addToCompare id s) = designs s
            /\ studioDesignId (addToCompare id s) = studioDesignId s)
      as [Hds Hst].
    { unfold addToCompare. by rewrite Hinc. }
    destruct (IH (addToCompare id s)) as (H1 & H2 & H3 & H4).
    + rewrite Hcs. apply (sublist_NoDup _ ((compareSet s ++ [id]) ++ ids)).
      * by rewrite <- app_assoc.
      * apply sublist_app; [apply sublist_take|done].
    + rewrite Hcs, length_take. lia.
    + rewrite H1, Hcs, firstn_firstn_app, <- app_assoc.
      split; [done|]. split; [|by rewrite H3, H4].
      intros _. destruct ids as [|id' ids']; [done|].
      apply H2. done.
Qed.

(** X4: the Compare button of the gallery, pressed with the selected
    cards [ids] while nothing is being compared, opens Compare mode on
    exactly those cards, in the order they were selected; of more than
    three it would keep the first three. *)
Theorem compare_selected_opens_the_selection (s : State)
    (ids : list string) :
  compareSet s = [] ->
  NoDup ids ->
  ids <> [] ->
  compareSet (handleCompareSelected ids s) = firstn 3 ids
  /\ mode (handleCompareSelected ids s) = compare
  /\ (compare_button_shown (length ids) = true ->
      compareSet (handleCompareSelected ids s) = ids).
Proof.
  intros Hcs Hnd Hne.
  destruct (handleCompareSelected_from ids s) as (H1 & H2 & _).
  { by rewrite Hcs. }
  { rewrite Hcs. simpl. lia. }
  rewrite Hcs in H1. simpl in H1.
  split; [done|]. split; [by apply H2|].
  intros Hshown. rewrite H1. apply firstn_all2.
  unfold compare_button_shown in Hshown.
  apply andb_true_iff in Hshown as [_ Hle]. by apply Nat.leb_le in Hle.
Qed.

Lemma compare_selected_witness :
  compareSet (handleCompareSelected ["a"; "b"] initial) = firstn 3 ["a"; "b"]
  /\ mode (handleCompareSelected ["a"; "b"] initial) = compare
  /\ (compare_button_shown (length ["a"; "b"]) = true ->
      compareSet (handleCompareSelected ["a"; "b"] initial) = ["a"; "b"]).
Proof.
  apply compare_selected_opens_the_selection.
  - reflexivity.
  - apply (bool_decide_unpack _). vm_compute. reflexivity.
  - discriminate.
Defined.

Lemma find_design_some id ds d :
  find_design (Some id) ds = Some d -> d ∈ ds /\ name d = id.
Proof.
  simpl. intros H. apply find_some in H as [Hin Heq].
  split; [by apply list_elem_of_In|by apply String.eqb_eq].
Qed.

(** X5: the breadcrumb and the variation strip agree: the parent
    [useParentDesign] finds for a design lists that design among its
    [useDesignVariations]. *)
Theorem parent_lists_the_design_as_variation (s : State)
    (designId : string) (parent : DesignFile) :
  useParentDesign designId s = Some parent ->
  exists d, d ∈ useDesignVariations (name parent) s /\ name d = designId.
Proof.
  unfold useParentDesign.
  destruct (find_design (Some designId) (designs s)) as [d|] eqn:Hd;
    [|done].
  apply find_design_some in Hd as [Hin Hname].
  destruct (parentDesign d) as [[| | |p| | |]|] eqn:Hp; try done.
  destruct (String.eqb p "") eqn:Hempty; [done|].
  intros Hparent. apply find_design_some in Hparent as [_ Hpn].
  exists d. split; [|done].
  unfold useDesignVariations.
  apply list_elem_of_In, filter_In. split; [by apply list_elem_of_In|].
  rewrite Hp. simpl. rewrite Hpn. apply String.eqb_refl.
Qed.

Lemma parent_lists_the_design_witness :
  exists d, d ∈ useDesignVariations (name (entry "a")) family
            /\ name d = "a_1".
Proof.
  apply parent_lists_the_design_as_variation. reflexivity.
Defined.

Section Gallery.
Variable toLowerCase : string -> string.

Lemma step_gallery_inputs e s :
  ~ delivers_error e ->
  isLoading s = false ->
  isLoading (step e s) = false /\ error (step e s) = error s.
Proof.
  intros He Hl. destruct e as [| |n| | | | | |]; simpl; try done.
  - destruct n; simpl in *; try done.
  - unfold addToCompare. by destruct (includes_id _ _).
Qed.

(** X6: an error notice is never taken down.  Once the host has reported
    an error, the gallery shows it whatever catalogs arrive later and
    whatever the user does, until another error notice replaces it. *)
Theorem gallery_error_is_never_cleared (es : list Event) (s : State)
    (e : string) :
  isLoading s = false ->
  error s = Some e ->
  e <> "" ->
  Forall (fun ev => ~ delivers_error ev) es ->
  GalleryView toLowerCase (run es s) = gallery_error e.
Proof.
  intros Hl He Hne Hes.
  assert (isLoading (run es s) = false /\ error (run es s) = Some e)
    as [Hl' He'].
  { revert s Hl He. induction Hes as [|ev es Hev _ IH]; intros s Hl He;
      [done|].
    simpl. destruct (step_gallery_inputs ev s Hev Hl) as [Hl1 He1].
    apply IH; [done|congruence]. }
  unfold GalleryView. rewrite Hl', He'. simpl.
  apply String.eqb_neq in Hne. by rewrite Hne.
Qed.

(** X7: with the filters as the store starts them the gallery lists the
    whole catalog; any setting lists a sub-sequence of it, in catalog
    order. *)
Theorem filters_only_remove_cards (s : State) :
  (filters s = filters initial ->
   useFilteredDesigns toLowerCase s = designs s)
  /\ useFilteredDesigns toLowerCase s `sublist_of` designs s.
Proof.
  unfold useFilteredDesigns. split.
  - intros ->. apply List_filter_id. intros d _. reflexivity.
  - induction (designs s) as [|d ds IH]; simpl; [constructor|].
    destruct (passes_filters _ _ d); by constructor.
Qed.

End Gallery.

Lemma gallery_error_witness :
  GalleryView id
    (run [receive (designs_list [entry "a"]); open_in_studio "a";
          back_to_gallery] failed)
  = gallery_error "Failed to load designs".
Proof.
  apply gallery_error_is_never_cleared.
  - reflexivity.
  - reflexivity.
  - discriminate.
  - repeat constructor; simpl; tauto.
Defined.

End CanvasStoreExtra.

(** * More properties of the design manager *)

Module DesignManagerExtra.
Import DesignManager DesignManagerSpec DesignManagerProps
  DesignManagerExtraSpec.

(** *** Writing the table and saving it *)

Lemma write_then_save f st m :
  table st = Some m -> writable st = true ->
  bind (write_designs f (loaded st)) saveMetadata (settle st)
  = (inr tt, saved (store_with (f m) st) (settle st)).
Proof.
  unfold store_with, store_shaped, shape, saved, table, view, loaded.
  destruct (settle_fields st) as (_ & _ & _ & <- & <- & _).
  generalize (settle st). clear st.
  intros [it ar mf w ck cs [[d lu ver n]|]];
    cbn [cache clock writable DesignMetadataStore.designs
         DesignMetadataStore.version DesignMetadataStore.designs_array
         empty_store];
    intros Hm ->; first [subst d | injection Hm as <-];
    unfold read_designs, write_designs, update, deref, saveMetadata,
      writeFile, now, try_catch, bind, ret, gets, modify, throw;
    reflexivity.
Qed.


Lemma saved_fields s st :
  iterations (saved s st) = iterations st
  /\ archive (saved s st) = archive st
  /\ writable (saved s st) = writable st
  /\ clock (saved s st) = clock st
  /\ cache (saved s st) = Some s
  /\ metadataFile (saved s st) = content (document (stringify s))
  /\ calls (saved s st) = (calls st ++ [call_writeFile (stringify s)])%list.
Proof. by destruct st. Qed.

Lemma saved_settle_fields s st :
  iterations (saved s (settle st)) = iterations st
  /\ archive (saved s (settle st)) = archive st
  /\ writable (saved s (settle st)) = writable st
  /\ clock (saved s (settle st)) = clock st
  /\ cache (saved s (settle st)) = Some s
  /\ metadataFile (saved s (settle st)) = content (document (stringify s))
  /\ calls (saved s (settle st))
     = (calls st ++ [call_writeFile (stringify s)])%list.
Proof.
  destruct (saved_fields s (settle st)) as (-> & -> & -> & -> & -> & -> & ->).
  by destruct (settle_fields st) as (-> & -> & _ & -> & -> & ->).
Qed.

Lemma table_saved s st :
  table (saved s st) = DesignMetadataStore.designs s.
Proof. by apply table_cached. Qed.

(** A successful [updateStatus], field by field. *)
Lemma updateStatus_ok fileName status st m :
  table st = Some m -> writable st = true ->
  updateStatus fileName status st
  = (inr tt, saved (store_written fileName status st m) (settle st)).
Proof. intros Ht Hw. by rewrite updateStatus_spec, Ht, Hw. Qed.

Lemma file_at_saved d g s st :
  file_at d g (saved s (settle st)) = file_at d g st.
Proof.
  unfold file_at.
  destruct (saved_settle_fields s st) as (Hit & Har & _).
  destruct d; cbn [folder]; by rewrite ?Hit, ?Har.
Qed.

Lemma site_saved_other g s st m m' :
  table st = Some m -> DesignMetadataStore.designs s = Some m' ->
  m' !! g = m !! g ->
  site g (saved s (settle st)) = site g st.
Proof.
  intros Ht Hs Hg. rewrite !site_eq, !file_at_saved, table_saved, Hs, Ht.
  by rewrite Hg.
Qed.

(** *** File names with an extension *)

Lemma substring_first s :
  forall i k c r,
    String.substring i (S k) s = String c r ->
    String.substring i 1 s = String c "".
Proof.
  induction s as [|a s IH]; intros [|i] k c r; simpl; try done.
  - intros [= -> _]. by destruct s.
  - apply IH.
Qed.

Lemma includes_at s sub i :
  sub <> "" ->
  String.substring i (String.length sub) s = sub -> includes s sub = true.
Proof.
  intros Hne Hsub. unfold includes.
  destruct (String.index 0 sub s) eqn:Hidx; [done|].
  exfalso. apply (String.index_correct3 0 i sub s Hidx Hne); [lia|done].
Qed.

Lemma endsWith_extension f suffix c r :
  suffix = String c r -> c = "."%char ->
  endsWith f suffix = true -> has_extension f = true.
Proof.
  intros -> -> Hend. unfold endsWith in Hend.
  apply andb_true_iff in Hend as [_ Hsuffix]. apply String.eqb_eq in Hsuffix.
  apply (includes_at f "." (String.length f - String.length (String "." r)));
    [done|].
  by apply (substring_first f _ (String.length r) "."%char r).
Qed.

(** The names the callers pass have an extension: the design files of
    [syncWithFileSystem] and the [designId + '.html'] of the handler. *)
Lemma design_files_have_extension f :
  is_design_file f = true -> has_extension f = true.
Proof.
  unfold is_design_file. intros H. apply orb_true_iff in H as [H|H].
  - by apply (endsWith_extension f ".html" "."%char "html").
  - by apply (endsWith_extension f ".svg" "."%char "svg").
Qed.

(** X11: a status change for a file name with an extension (no such name
    is inherited by the table from a prototype), that can read the table
    and write the file, returns; the record then reads with the new
    status, a record made for the occasion is the default one, an
    existing record keeps its other fields, and no other record and no
    design file is touched. *)
Theorem status_change_touches_one_record (st : State) (fileName : string)
    (status : DesignStatus) (m : gmap string DesignMetadata.t) :
  has_extension fileName = true ->
  fst (read_table st) = inr m ->
  writable st = true ->
  exists st',
    updateStatus fileName status st = (inr tt, st')
    /\ fst (record_of fileName st')
       = inr (Some (DesignMetadata.set_updatedAt (Some (clock st))
                      (DesignMetadata.set_status
                         (Some (JStr (status_name status)))
                         (default (createDefaultMetadata (clock st) fileName)
                            (m !! fileName)))))
    /\ read_status fileName st' = inr (Some (JStr (status_name status)))
    /\ (forall g, g <> fileName -> site g st' = site g st)
    /\ file_at design_iterations fileName st'
       = file_at design_iterations fileName st
    /\ file_at design_archive fileName st'
       = file_at design_archive fileName st.
Proof.
  intros _ Ht Hw. apply read_table_inr in Ht.
  eexists. split; [by apply updateStatus_ok|].
  assert (status_written fileName status (clock st) m !! fileName
          = Some (DesignMetadata.set_updatedAt (Some (clock st))
                    (DesignMetadata.set_status
                       (Some (JStr (status_name status)))
                       (default (createDefaultMetadata (clock st) fileName)
                          (m !! fileName))))) as Hrec.
  { unfold status_written. rewrite !lookup_alter_eq.
    destruct (m !! fileName) as [rec|] eqn:Hf; [by rewrite Hf|].
    by rewrite lookup_insert_eq. }
  split; [|split; [|split; [|split]]].
  - rewrite record_of_spec, table_saved. cbn [fst]. simpl. by rewrite Hrec.
  - rewrite read_status_spec, table_saved. simpl. by rewrite Hrec.
  - intros g Hg. eapply site_saved_other; [done|done|].
    by apply status_written_other.
  - apply file_at_saved.
  - apply file_at_saved.
Qed.

Lemma status_change_witness :
  exists st',
    updateStatus "a.html" review workspace_a = (inr tt, st')
    /\ read_status "a.html" st' = inr (Some (JStr "review")).
Proof.
  destruct (status_change_touches_one_record workspace_a "a.html" review
              {[ "a.html" := record_a ]})
    as (st' & Hrun & _ & Hs & _).
  - reflexivity.
  - vm_compute. reflexivity.
  - reflexivity.
  - exists st'. split; [exact Hrun|exact Hs].
Defined.


(** *** Saving and loading again *)

Lemma revive_record_printed rec :
  DesignMetadata.elements rec = None ->
  revive_record (record_to_json rec) = reloaded rec.
Proof.
  destruct rec as [[fn|] [st|] [ca|] [ua|] [pd|] [tg|] [nt|] [ex|] [ve|] el];
    simpl; intros ->; reflexivity.
Qed.

Lemma reloaded_dated rec : dated rec -> reloaded rec = rec.
Proof.
  destruct rec as [fn st ca ua pd tg nt ex ve el].
  intros [[c Hc] [u Hu]]. simpl in *. by subst.
Qed.

Lemma revive_printed s m :
  typeof (DesignMetadataStore.version s) = TString ->
  DesignMetadataStore.designs s = Some m ->
  plain s ->
  revive (stringify s)
  = inr {| DesignMetadataStore.designs := Some (reloaded <$> m);
           DesignMetadataStore.lastUpdated :=
             Some (default 0 (DesignMetadataStore.lastUpdated s));
           DesignMetadataStore.version := DesignMetadataStore.version s;
           DesignMetadataStore.designs_array := None |}.
Proof.
  intros Hv Hm [Hn Hplain]. specialize (Hplain m Hm).
  destruct s as [d lu [ver|] n]; simpl in *; [|done]. subst d n.
  unfold revive, stringify, designs_to_json.
  cbn [get_prop assoc String.eqb Ascii.eqb
    Bool.eqb own_props DesignMetadataStore.designs
    DesignMetadataStore.designs_array].
  simpl. rewrite revive_designs_printed.
  rewrite <- map_fmap_compose.
  assert ((revive_record ∘ record_to_json) <$> m = reloaded <$> m) as ->.
  { apply map_fmap_ext. intros f rec Hrec. apply revive_record_printed.
    by apply (Hplain f). }
  by destruct lu.
Qed.


Lemma saveMetadata_ok store st s :
  fst (deref store st) = inr s -> writable st = true ->
  saveMetadata store st
  = (inr tt,
     saved (DesignMetadataStore.set_lastUpdated (Some (clock st)) s) st).
Proof.
  unfold saved.
  destruct st as [it ar mf w ck cs c], store as [|s0];
    unfold deref, saveMetadata, update, writeFile, now, try_catch, bind, ret,
      gets, modify, throw; simpl.
  - destruct c as [s0|]; simpl; [|done]. by intros [= ->] ->.
  - by intros [= ->] ->.
Qed.

Lemma table_reloaded st s m :
  typeof (DesignMetadataStore.version s) = TString ->
  DesignMetadataStore.designs s = Some m ->
  plain s ->
  cache st = None ->
  metadataFile st = content (document (stringify s)) ->
  table st = Some (reloaded <$> m).
Proof.
  intros Hv Hm Hp Hc Hf. unfold table, view, settle.
  by rewrite Hc, Hf, (stringify_valid s Hv), (revive_printed s m Hv Hm Hp).
Qed.

(** X12: what a successful [saveMetadata] wrote of a table that is a
    plain object of plain objects (neither the table nor a record is an
    array) is what a manager reads after [clearCache]: the same keys,
    every field of every record as it was, except that an Invalid Date
    comes back as the epoch.  Records whose two dates are valid are read
    back unchanged. *)
Theorem saved_table_is_read_back (st st' : State) (store : StoreRef)
    (s : DesignMetadataStore.t) (m : gmap string DesignMetadata.t) :
  fst (deref store st) = inr s ->
  DesignMetadataStore.designs s = Some m ->
  typeof (DesignMetadataStore.version s) = TString ->
  is_plain s = true ->
  saveMetadata store st = (inr tt, st') ->
  fst (read_table st') = inr m
  /\ fst (read_table (snd (clearCache st'))) = inr (reloaded <$> m)
  /\ (forall g rec, m !! g = Some rec -> dated rec ->
        fst (record_of g (snd (clearCache st'))) = inr (Some rec)).
Proof.
  intros Hs Hm Hv Hp Hsave. apply is_plain_plain in Hp.
  assert (writable st = true) as Hw.
  { destruct (writable st) eqn:Hw; [done|]. exfalso. revert Hsave Hs.
    destruct st as [it ar mf w ck cs c], store as [|s0];
      unfold deref, saveMetadata, update, writeFile, now, try_catch, bind,
        ret, gets, modify, throw; simpl in *; subst w; [|done].
    by destruct c. }
  rewrite (saveMetadata_ok _ _ _ Hs Hw) in Hsave. injection Hsave as <-.
  set (s1 := DesignMetadataStore.set_lastUpdated (Some (clock st)) s).
  assert (table (snd (clearCache (saved s1 st))) = Some (reloaded <$> m))
    as Hre.
  { apply (table_reloaded _ s1); [done|done| |done|by destruct st].
    destruct Hp as [Hn Hplain]. split; [done|]. exact Hplain. }
  split; [|split].
  - apply read_table_inr. by rewrite table_saved.
  - by apply read_table_inr.
  - intros g rec Hg Hd. rewrite record_of_spec, Hre. cbn [fst].
    rewrite lookup_fmap, Hg. simpl. by rewrite (reloaded_dated rec Hd).
Qed.

Lemma saved_table_is_read_back_witness :
  fst (record_of "a.html"
         (snd (clearCache (snd (saveMetadata (Fresh store_a) workspace_a)))))
  = inr (Some record_a).
Proof.
  destruct (saved_table_is_read_back workspace_a
              (snd (saveMetadata (Fresh store_a) workspace_a))
              (Fresh store_a) store_a {[ "a.html" := record_a ]})
    as (_ & _ & Hrec).
  - reflexivity.
  - reflexivity.
  - reflexivity.
  - reflexivity.
  - reflexivity.
  - apply Hrec; [reflexivity|]. split; by eexists.
Defined.

(** *** Deleting a design *)

Lemma try_catch_returns {S A} (m : M S A) handler s a s' :
  m s = (inr a, s') -> try_catch m handler s = (inr a, s').
Proof. unfold try_catch. by intros ->. Qed.




Lemma delete_file_spec d fileName st :
  delete_file d fileName st
  = match file_at d fileName st with
    | Some _ => (inr tt, removed d fileName st)
    | None => (inl FileNotFound, log_call (call_delete d fileName) st)
    end.
Proof.
  unfold delete_file, remove_entry, read_entry, removed, file_at, bind,
    modify, gets, ret, throw.
  destruct st as [it ar mf w ck cs c], d; simpl;
    match goal with |- context [?o ≫= _] => destruct o as [dir|] end;
    simpl; try done; by destruct (dir !! fileName).
Qed.

Lemma deleteDesign_spec fileName fromArchive st :
  deleteDesign fileName fromArchive st
  = match file_at (folder_of fromArchive) fileName st with
    | None =>
        (inl FileNotFound,
         log_call (call_delete (folder_of fromArchive) fileName) st)
    | Some _ =>
        bind loadMetadata
          (fun store =>
             bind (write_designs (delete fileName) store) saveMetadata)
          (removed (folder_of fromArchive) fileName st)
    end.
Proof.
  unfold deleteDesign. rewrite try_catch_rethrow. fold (folder_of fromArchive).
  unfold bind at 1. rewrite delete_file_spec.
  by destruct (file_at _ _ st).
Qed.





(** X14: [deleteDesign] on a name the folder does not hold throws
    [FileNotFound] after the one delete call, and leaves every file, every
    record, the metadata file and the cache as they were.  This is what
    [deleteDesign(fileName)] does to an archived design: the file is in
    the other folder. *)
Theorem deleteDesign_of_missing_file_changes_nothing (st : State)
    (fileName : string) (fromArchive : bool) :
  file_at (folder_of fromArchive) fileName st = None ->
  exists st',
    deleteDesign fileName fromArchive st = (inl FileNotFound, st')
    /\ (forall g, site g st' = site g st)
    /\ metadataFile st' = metadataFile st
    /\ cache st' = cache st
    /\ calls st'
       = (calls st ++ [call_delete (folder_of fromArchive) fileName])%list.
Proof.
  intros Hf. eexists. split; [by rewrite deleteDesign_spec, Hf|].
  split; [intros g; apply site_log_call|]. by destruct st.
Qed.

Lemma deleteDesign_of_missing_file_witness :
  exists st',
    deleteDesign "a.html" true workspace_a = (inl FileNotFound, st')
    /\ (forall g, site g st' = site g workspace_a).
Proof.
  destruct (deleteDesign_of_missing_file_changes_nothing workspace_a
              "a.html" true) as (st' & Hrun & Hsite & _).
  - reflexivity.
  - exists st'. split; [exact Hrun|exact Hsite].
Defined.


(** *** Restoring from the archive *)






(** *** Emptying the archive *)







Lemma NoDup_fst_List_filter {K A} (p : K * A -> bool) (l : list (K * A)) :
  NoDup l.*1 -> NoDup (List.filter p l).*1.
Proof.
  induction l as [|x l IH]; simpl; [done|].
  intros Hnd. apply NoDup_cons in Hnd as [Hx Hnd].
  destruct (p x); [|by apply IH]. simpl. apply NoDup_cons.
  split; [|by apply IH].
  intros Hin. apply Hx.
  apply list_elem_of_fmap in Hin as (y & -> & Hy).
  apply list_elem_of_fmap. exists y. split; [done|].
  apply list_elem_of_In, filter_In in Hy as [Hy _]. by apply list_elem_of_In.
Qed.




(** *** Giving the design files their records *)

Lemma sync_table_cons t f files acc :
  sync_table t (f :: files) acc
  = sync_table t files
      (match acc.1 !! f with
       | Some _ => acc
       | None => (<[f := createDefaultMetadata t f]> acc.1, acc.2 + 1)
       end).
Proof. reflexivity. Qed.

Lemma sync_table_facts t files :
  forall m n,
    let r := sync_table t files (m, n) in
    n <= r.2
    /\ (r.2 = n -> r.1 = m)
    /\ (forall f rec, m !! f = Some rec -> r.1 !! f = Some rec)
    /\ (forall f, f ∈ files -> is_Some (r.1 !! f))
    /\ (forall f, m !! f = None ->
          r.1 !! f = None
          \/ (f ∈ files /\ r.1 !! f = Some (createDefaultMetadata t f))).
Proof.
  induction files as [|f files IH]; intros m n r.
  - subst r. simpl. split; [lia|]. split; [done|]. split; [done|].
    split; [|by left]. intros f Hf. by apply elem_of_nil in Hf.
  - subst r. rewrite sync_table_cons. cbn [fst snd].
    destruct (m !! f) as [rec|] eqn:Hf.
    + destruct (IH m n) as (Hle & Heq & Hkeep & Hin & Hnew).
      split; [done|]. split; [done|]. split; [done|]. split.
      * intros g Hg. apply elem_of_cons in Hg as [->|Hg]; [|by apply Hin].
        exists rec. by apply Hkeep.
      * intros g Hg. destruct (Hnew g Hg) as [?|[? ?]]; [by left|].
        right. split; [by right|done].
    + destruct (IH (<[f := createDefaultMetadata t f]> m) (n + 1))
        as (Hle & Heq & Hkeep & Hin & Hnew).
      split; [lia|]. split; [lia|]. split; [|split].
      * intros g rec Hg. apply Hkeep. rewrite lookup_insert_ne; [done|].
        intros ->. congruence.
      * intros g Hg. apply elem_of_cons in Hg as [->|Hg]; [|by apply Hin].
        eexists. apply Hkeep. apply lookup_insert_eq.
      * intros g Hg. destruct (decide (g = f)) as [->|Hne].
        -- right. split; [by left|]. apply Hkeep, lookup_insert_eq.
        -- destruct (Hnew g) as [?|[? ?]];
             [by rewrite lookup_insert_ne| by left|].
           right. split; [by right|done].
Qed.

Lemma sync_each_cached files :
  forall st s m n,
    cache st = Some s -> DesignMetadataStore.designs s = Some m ->
    sync_each files (Cached, n) st
    = (inr (Cached, (sync_table (clock st) files (m, n)).2),
       set_cache (Some (synced (clock st) files m n s)) st).
Proof.
  unfold synced.
  induction files as [|f files IH]; intros st s m n Hc Hm.
  - destruct st as [it ar mf w ck cs c], s as [d lu ver k].
    simpl in *. by subst.
  - cbn [sync_each sync_shape]. rewrite sync_table_cons. cbn [fst snd].
    destruct (m !! f) as [rec|] eqn:Hf.
    + assert (sync_one (Cached, n) f st = (inr (Cached, n), st)) as Hstep.
      { unfold sync_one, read_designs, deref, bind, gets, ret. simpl.
        by rewrite Hc, Hm, Hf. }
      rewrite (bind_returns _ _ _ _ _ Hstep). by apply IH.
    + set (m1 := <[f := createDefaultMetadata (clock st) f]> m).
      set (s1 := DesignMetadataStore.assign f
                   (createDefaultMetadata (clock st) f) s).
      assert (sync_one (Cached, n) f st
              = (inr (Cached, n + 1), set_cache (Some s1) st)) as Hstep.
      { subst m1 s1. clear IH.
        destruct st as [it ar mf w ck cs c], s as [d lu ver k].
        simpl in Hc, Hm. subst c d.
        unfold sync_one, assign_designs, read_designs, update, deref, now,
          bind, gets, ret, modify. simpl. by rewrite Hf. }
      rewrite (bind_returns _ _ _ _ _ Hstep).
      rewrite (IH _ s1 m1 (n + 1));
        [|by destruct st|by (subst s1; destruct s; simpl in *; subst)].
      destruct st, s. reflexivity.
Qed.

Lemma sync_each_fresh files :
  forall st s m n,
    DesignMetadataStore.designs s = Some m ->
    sync_each files (Fresh s, n) st
    = (inr (Fresh (synced (clock st) files m n s),
            (sync_table (clock st) files (m, n)).2), st).
Proof.
  unfold synced.
  induction files as [|f files IH]; intros st s m n Hm.
  - destruct s as [d lu ver k]. simpl in *. by subst.
  - cbn [sync_each sync_shape]. rewrite sync_table_cons. cbn [fst snd].
    destruct (m !! f) as [rec|] eqn:Hf.
    + assert (sync_one (Fresh s, n) f st = (inr (Fresh s, n), st)) as Hstep.
      { unfold sync_one, read_designs, deref, bind, gets, ret. simpl.
        by rewrite Hm, Hf. }
      rewrite (bind_returns _ _ _ _ _ Hstep). by apply IH.
    + set (m1 := <[f := createDefaultMetadata (clock st) f]> m).
      set (s1 := DesignMetadataStore.assign f
                   (createDefaultMetadata (clock st) f) s).
      assert (sync_one (Fresh s, n) f st = (inr (Fresh s1, n + 1), st))
        as Hstep.
      { subst m1 s1. clear IH. destruct s as [d lu ver k].
        simpl in Hm. subst d.
        unfold sync_one, assign_designs, read_designs, update, deref, now,
          bind, gets, ret, modify. simpl. by rewrite Hf. }
      rewrite (bind_returns _ _ _ _ _ Hstep).
      rewrite (IH _ s1 m1 (n + 1));
        [|by (subst s1; destruct s; simpl in *; subst)].
      destruct s. reflexivity.
Qed.

Lemma sync_shape_same t files :
  forall m n k, (sync_table t files (m, n)).2 = n ->
    sync_shape t files m k = k.
Proof.
  induction files as [|f files IH]; intros m n k Hn; [done|].
  rewrite sync_table_cons in Hn. cbn [fst snd sync_shape] in *.
  destruct (m !! f); [by eapply IH|].
  destruct (sync_table_facts t files
              (<[f := createDefaultMetadata t f]> m) (n + 1)) as (Hle & _).
  lia.
Qed.

Lemma syncWithFileSystem_spec st dir m :
  iterations st = Some dir -> table st = Some m -> writable st = true ->
  syncWithFileSystem st
  = (inr tt,
     let r := sync_table (clock st) (design_files dir) (m, 0) in
     if 0 <? r.2
     then saved (store_shaped r.1
                   (sync_shape (clock st) (design_files dir) m (shape st))
                   st) (settle st)
     else settle st).
Proof.
  intros Hit Ht Hw. unfold syncWithFileSystem.
  assert (readDirectory design_iterations st = (inr (readdir dir), st))
    as Hread.
  { unfold readDirectory, bind, gets, ret. cbn [folder]. by rewrite Hit. }
  fold (design_files dir).
  destruct (sync_table_facts (clock st) (design_files dir) m 0)
    as (Hle & Heq & _).
  destruct (settle_fields st) as (_ & _ & _ & Hw' & Hck & _).
  assert (bind (readDirectory design_iterations)
            (fun files =>
               bind loadMetadata
                 (fun store =>
                    bind (sync_each (List.filter is_design_file files)
                            (store, 0))
                      (fun r => if 0 <? r.2 then saveMetadata r.1
                                else ret tt))) st
          = (inr tt,
             let r := sync_table (clock st) (design_files dir) (m, 0) in
             if 0 <? r.2
             then saved (store_shaped r.1
                           (sync_shape (clock st) (design_files dir) m
                              (shape st)) st) (settle st)
             else settle st)) as Hbody.
  { rewrite (bind_returns _ _ _ _ _ Hread).
    rewrite (bind_returns _ _ _ _ _ (loadMetadata_spec st)).
    fold (design_files dir). cbv zeta.
    unfold table, view in Ht. unfold loaded, store_shaped, shape, view.
    destruct (cache (settle st)) as [s|] eqn:Hc.
    - rewrite (bind_returns _ _ _ _ _
                 (sync_each_cached _ _ s m 0 Hc Ht)).
      rewrite Hck. cbn [fst snd].
      destruct (0 <? (sync_table (clock st) (design_files dir) (m, 0)).2)
        eqn:Hpos.
      + rewrite (saveMetadata_ok Cached _
                   (synced (clock st) (design_files dir) m 0 s)).
        * f_equal. rewrite <- Hck. unfold synced.
          destruct (settle st), s. reflexivity.
        * by destruct (settle st).
        * destruct (settle st); simpl in *; congruence.
      + apply Z.ltb_ge in Hpos. unfold synced.
        rewrite (sync_shape_same _ _ m 0) by lia. rewrite Heq by lia.
        f_equal. destruct (settle st), s. simpl in *. by subst.
    - injection Ht as <-.
      rewrite (bind_returns _ _ _ _ _
                 (sync_each_fresh _ _ (empty_store (clock st)) ∅ 0 eq_refl)).
      rewrite Hck. cbn [fst snd].
      destruct (0 <? (sync_table (clock st) (design_files dir) (∅, 0)).2)
        eqn:Hpos; [|done].
      rewrite (saveMetadata_ok (Fresh _) _ _ eq_refl) by congruence.
      by rewrite Hck. }
  by rewrite (try_catch_returns _ _ _ _ _ Hbody).
Qed.



Lemma sync_table_settled t files :
  forall m n,
    (forall f, f ∈ files -> is_Some (m !! f)) ->
    sync_table t files (m, n) = (m, n).
Proof.
  induction files as [|f files IH]; intros m n Hall; [done|].
  rewrite sync_table_cons. cbn [fst snd].
  destruct (Hall f) as [rec ->]; [by left|].
  apply IH. intros g Hg. apply Hall. by right.
Qed.

(** The state [syncWithFileSystem] leaves, read through the table. *)
Lemma syncWithFileSystem_table st dir m :
  iterations st = Some dir -> table st = Some m -> writable st = true ->
  let st' := snd (syncWithFileSystem st) in
  table st'
  = Some (sync_table (clock st) (design_files dir) (m, 0)).1
  /\ iterations st' = iterations st
  /\ archive st' = archive st
  /\ writable st' = true
  /\ clock st' = clock st.
Proof.
  intros Hit Ht Hw st'. subst st'.
  rewrite (syncWithFileSystem_spec st dir m Hit Ht Hw). cbn [snd]. cbv zeta.
  destruct (sync_table_facts (clock st) (design_files dir) m 0)
    as (Hle & Heq & _).
  destruct (0 <? _) eqn:Hpos.
  - destruct (saved_settle_fields
                (store_shaped (sync_table (clock st) (design_files dir)
                                 (m, 0)).1
                   (sync_shape (clock st) (design_files dir) m (shape st))
                   st) st)
      as (-> & -> & -> & -> & _).
    by rewrite table_saved.
  - apply Z.ltb_ge in Hpos. rewrite Heq by lia.
    destruct (settle_fields st) as (-> & -> & _ & -> & -> & _).
    by rewrite table_settle.
Qed.



(** X18: a second [syncWithFileSystem] finds nothing to add: it makes no
    call that changes the file system and leaves every record and the
    metadata file as the first one left them. *)
Theorem second_sync_writes_nothing (st : State) (dir : gmap string File)
    (m : gmap string DesignMetadata.t) :
  iterations st = Some dir ->
  fst (read_table st) = inr m ->
  writable st = true ->
  let st' := snd (syncWithFileSystem st) in
  exists st'',
    syncWithFileSystem st' = (inr tt, st'')
    /\ calls st'' = calls st'
    /\ metadataFile st'' = metadataFile st'
    /\ (forall g, site g st'' = site g st').
Proof.
  intros Hit Ht Hw st'. apply read_table_inr in Ht.
  destruct (syncWithFileSystem_table st dir m Hit Ht Hw)
    as (Ht' & Hit' & _ & Hw' & Hck').
  fold st' in Ht', Hit', Hw', Hck'. rewrite Hit in Hit'. clearbody st'.
  destruct (sync_table_facts (clock st) (design_files dir) m 0)
    as (_ & _ & _ & Hin & _).
  eexists. split.
  - rewrite (syncWithFileSystem_spec st' dir _ Hit' Ht' Hw'). cbv zeta.
    rewrite sync_table_settled; [reflexivity|exact Hin].
  - cbn [snd Z.ltb Z.compare].
    destruct (settle_fields st') as (_ & _ & -> & _ & _ & ->).
    split; [done|]. split; [done|]. intros g. apply site_settle.
Qed.

Lemma second_sync_witness :
  exists st'',
    syncWithFileSystem (snd (syncWithFileSystem workspace_unsynced))
    = (inr tt, st'')
    /\ calls st'' = calls (snd (syncWithFileSystem workspace_unsynced)).
Proof.
  destruct (second_sync_writes_nothing workspace_unsynced
              {[ "a.html" := file_a; "b.svg" := file_a;
                 "theme.css" := file_a ]}
              {[ "a.html" := record_a ]})
    as (st'' & Hrun & Hcalls & _).
  - reflexivity.
  - vm_compute. reflexivity.
  - reflexivity.
  - exists st''. split; [exact Hrun|exact Hcalls].
Defined.

(** X19: [syncWithFileSystem] never throws: what goes wrong inside is
    logged and dropped.  Without a design folder it returns at once and
    the state, cache included, is as it was. *)
Theorem sync_swallows_every_error (st : State) :
  fst (syncWithFileSystem st) = inr tt
  /\ (iterations st = None -> snd (syncWithFileSystem st) = st).
Proof.
  unfold syncWithFileSystem, try_catch. split.
  - match goal with |- context [bind ?a ?b st] =>
      destruct (bind a b st) as [[e|[]] s] end; reflexivity.
  - intros Hit.
    unfold bind at 1, readDirectory, bind, gets, throw, ret.
    cbn [folder]. by rewrite Hit.
Qed.


(** *** Listing by status *)

Lemma List_filter_snd {K A} (p : A -> bool) (l : list (K * A)) :
  List.filter p l.*2 = (List.filter (fun kv => p kv.2) l).*2.
Proof.
  induction l as [|[k a] l IH]; simpl; [done|].
  destruct (p a); simpl; [f_equal|]; apply IH.
Qed.

(** X20: [getDesignsByStatus] returns the records of the table whose
    status is the one asked for, one per file name that has such a
    record, and no other record. *)
Theorem getDesignsByStatus_lists_the_matching_records (st : State)
    (status : DesignStatus) (m : gmap string DesignMetadata.t) :
  fst (read_table st) = inr m ->
  exists l keys,
    fst (getDesignsByStatus status st) = inr l
    /\ NoDup keys
    /\ Forall2 (fun k rec => m !! k = Some rec) keys l
    /\ (forall k rec,
          m !! k = Some rec ->
          DesignMetadata.status rec = Some (JStr (status_name status)) ->
          k ∈ keys)
    /\ (forall rec, rec ∈ l ->
          DesignMetadata.status rec = Some (JStr (status_name status))).
Proof.
  intros Ht. apply read_table_inr in Ht.
  set (p := fun kv : string * DesignMetadata.t =>
              is_string (DesignMetadata.status kv.2) (status_name status)).
  exists (List.filter p (map_to_list m)).*2,
         (List.filter p (map_to_list m)).*1.
  split; [|split; [|split; [|split]]].
  - unfold getDesignsByStatus.
    rewrite (bind_returns _ _ _ _ _ (loadMetadata_spec st)).
    unfold bind. rewrite read_designs_loaded, Ht. unfold ret. cbn [fst].
    f_equal.
    apply (List_filter_snd
             (fun d => is_string (DesignMetadata.status d)
                         (status_name status))).
  - apply NoDup_fst_List_filter, NoDup_fst_map_to_list.
  - assert (Forall (fun kv => m !! kv.1 = Some kv.2)
              (List.filter p (map_to_list m))) as Hall.
    { apply Forall_forall. intros [k rec] Hin.
      apply list_elem_of_In, filter_In in Hin as [Hin _].
      by apply list_elem_of_In, elem_of_map_to_list in Hin. }
    induction Hall as [|[k rec] l Hk _ IH]; simpl; constructor; done.
  - intros k rec Hk Hs. apply list_elem_of_fmap. exists (k, rec).
    split; [done|]. apply list_elem_of_In, filter_In. split.
    + by apply list_elem_of_In, elem_of_map_to_list.
    + by apply is_string_true.
  - intros rec Hin. apply list_elem_of_fmap in Hin as ([k rec'] & -> & Hin).
    apply list_elem_of_In, filter_In in Hin as [_ Hp].
    by apply is_string_true.
Qed.

Lemma getDesignsByStatus_witness :
  exists l keys,
    fst (getDesignsByStatus archived workspace_archived) = inr l
    /\ NoDup keys
    /\ Forall2 (fun k rec => table_archived !! k = Some rec) keys l
    /\ "b.html" ∈ keys.
Proof.
  destruct (getDesignsByStatus_lists_the_matching_records workspace_archived
              archived table_archived)
    as (l & keys & Hrun & Hnd & Hall & Hin & _).
  - vm_compute. reflexivity.
  - exists l, keys. split; [exact Hrun|]. split; [exact Hnd|].
    split; [exact Hall|].
    apply (Hin "b.html" (record_at 5 archived "b.html")); reflexivity.
Defined.

(** *** Notes *)




End DesignManagerExtra.

(** * More properties of the message handler *)

Module CanvasMessageHandlerExtra.
Import DesignManager DesignManagerSpec DesignManagerProps
  DesignManagerExtraSpec DesignManagerExtra
  CanvasMessageHandler CanvasMessageHandlerSpec CanvasMessageHandlerProps
  CanvasMessageHandlerExtraSpec.

(** *** The order of the catalog *)

Lemma newest_first_cons d l :
  newest_first (d :: l)
  <-> (forall x, x ∈ l -> timestamp x <= timestamp d) /\ newest_first l.
Proof.
  unfold newest_first. split.
  - intros H. split.
    + intros x Hx. apply list_elem_of_lookup in Hx as [j Hj].
      apply (H 0%nat (S j) d x); [lia|done|done].
    + intros i j a b Hlt Hi Hj. apply (H (S i) (S j) a b); [lia|done|done].
  - intros [Hhd Htl] i j a b Hlt Hi Hj.
    destruct j as [|j]; [lia|]. simpl in Hj.
    destruct i as [|i]; simpl in Hi.
    + injection Hi as <-. apply Hhd. by eapply list_elem_of_lookup_2.
    + apply (Htl i j a b); [lia|done|done].
Qed.

Lemma newest_first_nil : newest_first [].
Proof. intros i j a b _ Hi. by rewrite lookup_nil in Hi. Qed.

Lemma insert_newest_first_sorted d l :
  newest_first l -> newest_first (insert_newest_first d l).
Proof.
  induction l as [|x l IH]; intros Hl; simpl.
  - apply newest_first_cons. split; [|apply newest_first_nil].
    intros y Hy. by apply elem_of_nil in Hy.
  - apply newest_first_cons in Hl as [Hhd Htl].
    destruct (timestamp d <? timestamp x) eqn:Hlt.
    + apply Z.ltb_lt in Hlt. apply newest_first_cons. split; [|by apply IH].
      intros y Hy. rewrite insert_newest_first_perm in Hy.
      apply elem_of_cons in Hy as [->|Hy]; [lia|by apply Hhd].
    + apply Z.ltb_ge in Hlt. apply newest_first_cons. split.
      * intros y Hy. apply elem_of_cons in Hy as [->|Hy]; [done|].
        specialize (Hhd y Hy). lia.
      * apply newest_first_cons. done.
Qed.

Lemma sort_newest_first_sorted l : newest_first (sort_newest_first l).
Proof.
  induction l as [|x l IH]; simpl; [apply newest_first_nil|].
  by apply insert_newest_first_sorted.
Qed.

(** *** The entries of the catalog *)

Lemma file_at_settle d g st : file_at d g (settle st) = file_at d g st.
Proof.
  unfold file_at. destruct (settle_fields st) as (Hit & Har & _).
  destruct d; cbn [folder]; congruence.
Qed.

Lemma map_each_design_of_entries files :
  forall st ds,
    fst (map_each design_of files st) = inr ds ->
    Forall2
      (fun f d =>
         exists stats m,
           file_at design_iterations f st = Some stats
           /\ table st = Some m
           /\ d = entry_of f stats (m !! f))
      files ds.
Proof.
  induction files as [|f files IH]; intros st ds.
  - intros [= <-]. constructor.
  - rewrite map_each_cons, design_of_spec.
    destruct (iterations st ≫= _) as [stats|] eqn:Hfile; [|done].
    destruct (table st) as [m|] eqn:Ht; [|done].
    destruct (map_each design_of files (settle st)) as [[e|ds'] st'] eqn:Hm;
      [done|].
    intros [= <-]. constructor.
    + by exists stats, m.
    + specialize (IH (settle st) ds'). rewrite Hm in IH.
      specialize (IH eq_refl).
      eapply Forall2_impl; [exact IH|].
      intros g d (stats' & m' & Hg & Hm' & ->).
      rewrite file_at_settle in Hg. rewrite table_settle in Hm'.
      exists stats', m'. split; [done|]. split; [congruence|done].
Qed.

Lemma Forall2_with_left {A B} (P : A -> Prop) (R : A -> B -> Prop) l k :
  Forall P l -> Forall2 R l k -> Forall2 (fun x y => P x /\ R x y) l k.
Proof.
  intros HP HR. induction HR as [|x y l k Hxy _ IH]; [constructor|].
  apply Forall_cons in HP as [Hx Hl]. constructor; [done|by apply IH].
Qed.

Lemma catalog_entries st ds :
  catalog st = inr ds ->
  exists files ds0,
    ds = sort_newest_first ds0
    /\ NoDup files
    /\ Forall2
         (fun f d =>
            exists stats m,
              file_at design_iterations f st = Some stats
              /\ table st = Some m
              /\ endsWith f ".html" = true
              /\ d = entry_of f stats (m !! f))
         files ds0.
Proof.
  unfold catalog. rewrite getDesignFiles_unfold.
  destruct (iterations st) as [dir|] eqn:Hdir.
  - destruct (map_each design_of _ st) as [[e|ds0] st'] eqn:Hmap; [done|].
    intros [= <-].
    exists (List.filter (fun f => endsWith f ".html") (readdir dir)), ds0.
    split; [done|]. split.
    + apply NoDup_ListNoDup, List.NoDup_filter, NoDup_ListNoDup.
      apply NoDup_fst_map_to_list.
    + pose proof (map_each_design_of_entries
                    (List.filter (fun f => endsWith f ".html") (readdir dir))
                    st ds0) as Hent.
      rewrite Hmap in Hent. specialize (Hent eq_refl).
      assert (Forall (fun f => endsWith f ".html" = true)
                (List.filter (fun f => endsWith f ".html") (readdir dir)))
        as Hhtml.
      { apply Forall_forall. intros f Hf.
        by apply list_elem_of_In, filter_In in Hf as [_ ?]. }
      eapply Forall2_impl; [exact (Forall2_with_left _ _ _ _ Hhtml Hent)|].
      intros f d (Hf & stats & m & ? & ? & ?). by exists stats, m.
  - intros [= <-]. exists [], []. split; [done|].
    split; constructor.
Qed.

Lemma Forall2_fmap_eq {A B} (f : B -> A) (l : list A) (k : list B) :
  Forall2 (fun x y => f y = x) l k -> f <$> k = l.
Proof.
  induction 1 as [|x y l k Hxy _ IH]; [done|].
  rewrite fmap_cons, Hxy. f_equal. exact IH.
Qed.

(** X22: the catalog is ordered newest first and has one entry per html
    file of the design folder: no file is listed twice. *)
Theorem catalog_is_newest_first_without_repeats
    (st : DesignManager.State) (ds : list DesignFile) :
  catalog st = inr ds ->
  newest_first ds /\ NoDup (filePath <$> ds).
Proof.
  intros Hcat.
  destruct (catalog_entries st ds Hcat) as (files & ds0 & -> & Hnd & Hall).
  split; [apply sort_newest_first_sorted|].
  rewrite sort_newest_first_perm.
  rewrite (Forall2_fmap_eq filePath files ds0); [done|].
  eapply Forall2_impl; [exact Hall|].
  intros f d (stats & m & _ & _ & _ & ->). done.
Qed.

Lemma catalog_is_newest_first_witness :
  exists ds,
    catalog workspace_two = inr ds
    /\ newest_first ds /\ NoDup (filePath <$> ds).
Proof.
  exists [entry_of "b_mobile.html" (mkFile 20 "") None;
          entry_of "a.html" file_a (Some record_a)].
  assert (catalog workspace_two
          = inr [entry_of "b_mobile.html" (mkFile 20 "") None;
                 entry_of "a.html" file_a (Some record_a)]) as Hcat.
  { vm_compute. reflexivity. }
  split; [exact Hcat|].
  exact (catalog_is_newest_first_without_repeats workspace_two _ Hcat).
Defined.

Lemma catalog_entry_facts st ds d :
  catalog st = inr ds -> d ∈ ds ->
  exists stats m,
    file_at design_iterations (filePath d) st = Some stats
    /\ table st = Some m
    /\ d = entry_of (filePath d) stats (m !! filePath d).
Proof.
  intros Hcat Hd.
  destruct (catalog_entries st ds Hcat) as (files & ds0 & -> & _ & Hall).
  rewrite sort_newest_first_perm in Hd.
  apply list_elem_of_lookup in Hd as [i Hi].
  destruct (Forall2_lookup_r _ _ _ _ _ Hall Hi)
    as (f & _ & stats & m & Hfile & Ht & Hhtml & ->).
  by exists stats, m.
Qed.

(** *** The catalog, said without [getDesignFiles] *)

Lemma substring_all s : String.substring 0 (String.length s) s = s.
Proof.
  induction s as [|c s IH]; [done|].
  change (String c (String.substring 0 (String.length s) s) = String c s).
  by rewrite IH.
Qed.

Lemma substring_append_r s suffix :
  String.substring (String.length s) (String.length suffix)
    (String.append s suffix) = suffix.
Proof.
  induction s as [|c s IH]; [apply substring_all|exact IH].
Qed.

Lemma length_append s t :
  String.length (String.append s t) = (String.length s + String.length t)%nat.
Proof.
  induction s as [|c s IH]; [done|].
  change (S (String.length (String.append s t))
          = S (String.length s + String.length t)). by rewrite IH.
Qed.

Lemma endsWith_append s suffix :
  endsWith (String.append s suffix) suffix = true.
Proof.
  unfold endsWith. rewrite length_append.
  replace (String.length s + String.length suffix - String.length suffix)%nat
    with (String.length s) by lia.
  rewrite substring_append_r, String.eqb_refl, andb_true_r.
  apply Nat.leb_le. lia.
Qed.

Lemma action_names_have_extension designId :
  has_extension (String.append designId ".html") = true.
Proof.
  apply design_files_have_extension, orb_true_iff. left.
  apply endsWith_append.
Qed.

Lemma catalog_listing st ds : catalog st = inr ds -> listing st ds.
Proof.
  intros Hcat.
  destruct (catalog_entries st ds Hcat) as (files & ds0 & Hds & Hnd & Hall).
  split; [rewrite Hds; apply sort_newest_first_sorted|].
  split.
  { rewrite Hds, sort_newest_first_perm.
    rewrite (Forall2_fmap_eq filePath files ds0); [done|].
    eapply Forall2_impl; [exact Hall|].
    intros f d (stats & m & _ & _ & _ & ->). done. }
  split.
  - intros d Hd. rewrite Hds, sort_newest_first_perm in Hd.
    apply list_elem_of_lookup in Hd as [i Hi].
    destruct (Forall2_lookup_r _ _ _ _ _ Hall Hi)
      as (f & _ & stats & m & Hfile & Ht & Hhtml & ->).
    cbn [filePath entry_of]. split; [done|].
    exists stats, (m !! f). split; [done|].
    split; [by rewrite record_of_spec, Ht|done].
  - intros f Hend Hfile. apply (catalog_files st ds Hcat f). done.
Qed.






(** *** The rebuild *)

Lemma getDesignFiles_site st g :
  site g (snd (getDesignFiles st)) = site g st.
Proof.
  destruct (getDesignFiles_state st) as [-> | ->]; [done|apply site_settle].
Qed.

Lemma getDesignFiles_fields st :
  metadataFile (snd (getDesignFiles st)) = metadataFile st
  /\ calls (snd (getDesignFiles st)) = calls st
  /\ writable (snd (getDesignFiles st)) = writable st.
Proof.
  destruct (getDesignFiles_state st) as [-> | ->]; [done|].
  by destruct (settle_fields st) as (_ & _ & -> & -> & _ & ->).
Qed.

(** X24: [sendDesignsList] never throws and posts exactly one message,
    the catalog of the workspace or the error notice.  It only reads: no
    file, no record, the metadata file and the call log are as before,
    and so is the primary pointer; run again it posts the same message. *)
Theorem rebuild_only_reads_and_repeats (h : State) :
  exists h',
    sendDesignsList h = (inr tt, h')
    /\ outbox h' = (outbox h ++ [push_of (manager h)])%list
    /\ push_of (manager h') = push_of (manager h)
    /\ (forall g, site g (manager h') = site g (manager h))
    /\ metadataFile (manager h') = metadataFile (manager h)
    /\ calls (manager h') = calls (manager h)
    /\ primaryDesignId h' = primaryDesignId h.
Proof.
  eexists. split; [apply sendDesignsList_spec|].
  cbn [outbox post manager set_manager primaryDesignId].
  destruct (getDesignFiles_fields (manager h)) as (Hmf & Hcalls & _).
  split; [done|]. split; [unfold push_of; by rewrite catalog_stable|].
  split; [intros g; apply getDesignFiles_site|]. done.
Qed.

(** *** Actions *)

Lemma write_record_cached g fileName st s m rec :
  cache st = Some s -> DesignMetadataStore.designs s = Some m ->
  m !! fileName = Some rec ->
  write_record g (Cached, fileName) st
  = (inr (Cached, fileName),
     set_cache
       (Some (DesignMetadataStore.set_designs (Some (alter g fileName m)) s))
       st).
Proof.
  intros Hc Hm Hf. destruct st as [it ar mf w ck cs c], s as [d lu ver n].
  simpl in Hc, Hm. subst c d.
  unfold write_record, write_designs, read_designs, update, deref, bind,
    gets, ret, modify. reflexivity.
Qed.

Lemma setDesignMetadata_cached fileName st s m rec :
  cache st = Some s -> DesignMetadataStore.designs s = Some m ->
  m !! fileName = Some rec -> writable st = true ->
  setDesignMetadata fileName (Cached, fileName) st
  = (inr tt,
     saved
       {| DesignMetadataStore.designs :=
            Some (<[fileName :=
                      DesignMetadata.set_updatedAt (Some (clock st)) rec]>
                    (alter (DesignMetadata.set_updatedAt (Some (clock st)))
                       fileName m));
          DesignMetadataStore.lastUpdated := Some (clock st);
          DesignMetadataStore.version := DesignMetadataStore.version s;
          DesignMetadataStore.designs_array :=
            DesignMetadataStore.grown fileName
              <$> DesignMetadataStore.designs_array s |}
       st).
Proof.
  intros Hc Hm Hf Hw. destruct st as [it ar mf w ck cs c], s as [d lu ver n].
  simpl in Hc, Hm, Hw. subst c d w.
  unfold setDesignMetadata, loadMetadata, write_record, read_record,
    write_designs, assign_designs, read_designs, saveMetadata, writeFile,
    update, deref, now, try_catch, bind, gets, ret, modify, throw. simpl.
  rewrite lookup_alter_eq, Hf. reflexivity.
Qed.

(** The state a [setStatus] action leaves in the manager when the record
    is there and the file can be written. *)
Lemma setStatus_mutation designId val h m rec :
  table (manager h) = Some m ->
  m !! String.append designId ".html" = Some rec ->
  writable (manager h) = true ->
  exists st' m',
    handleDesignAction designId "setStatus" val h
    = sendDesignsList (set_manager st' h)
    /\ table st' = Some m'
    /\ m' !! String.append designId ".html"
       = Some (DesignMetadata.set_updatedAt (Some (clock (manager h)))
                 (DesignMetadata.set_status val rec))
    /\ (forall g, g <> String.append designId ".html" -> m' !! g = m !! g)
    /\ iterations st' = iterations (manager h)
    /\ archive st' = archive (manager h)
    /\ settle st' = st'.
Proof.
  set (fileName := String.append designId ".html").
  set (st := manager h). intros Ht Hf Hw.
  assert (exists s, cache (settle st) = Some s
                    /\ DesignMetadataStore.designs s = Some m) as (s & Hc & Hm).
  { unfold table, view in Ht. destruct (cache (settle st)) as [s|] eqn:Hc.
    - by exists s.
    - injection Ht as <-. by rewrite lookup_empty in Hf. }
  destruct (settle_fields st) as (Hit & Har & _ & Hw' & Hck & _).
  set (m1 := alter (DesignMetadata.set_status val) fileName m).
  set (s1 := DesignMetadataStore.set_designs (Some m1) s).
  set (st1 := set_cache (Some s1) (settle st)).
  set (t := clock st).
  set (s2 := {| DesignMetadataStore.designs :=
                  Some (<[fileName :=
                            DesignMetadata.set_updatedAt (Some t)
                              (DesignMetadata.set_status val rec)]>
                          (alter (DesignMetadata.set_updatedAt (Some t))
                             fileName m1));
                DesignMetadataStore.lastUpdated := Some t;
                DesignMetadataStore.version :=
                  DesignMetadataStore.version s1;
                DesignMetadataStore.designs_array :=
                  DesignMetadataStore.grown fileName
                    <$> DesignMetadataStore.designs_array s1 |}).
  exists (saved s2 st1), (<[fileName :=
                              DesignMetadata.set_updatedAt (Some t)
                                (DesignMetadata.set_status val rec)]>
                            (alter (DesignMetadata.set_updatedAt (Some t))
                               fileName m1)).
  split; [|split; [|split; [|split; [|split; [|split]]]]].
  - rewrite handleDesignAction_setStatus. fold fileName.
    unfold bind at 1. rewrite designManager_run, getDesignMetadata_spec.
    fold st. rewrite Ht, Hf. cbn [fst snd].
    unfold loaded. rewrite Hc.
    unfold bind at 1. unfold bind at 1.
    rewrite designManager_run. cbn [manager set_manager].
    rewrite (write_record_cached _ _ _ s m rec Hc Hm Hf). cbn [fst snd].
    rewrite designManager_run. cbn [manager set_manager].
    fold m1 s1 st1.
    rewrite (setDesignMetadata_cached fileName st1 s1 m1
               (DesignMetadata.set_status val rec)).
    + cbn [fst snd].
      assert (clock st1 = t) as -> by exact Hck.
      fold s2. by destruct h.
    + reflexivity.
    + reflexivity.
    + unfold m1. by rewrite lookup_alter_eq, Hf.
    + unfold st1. cbn [writable set_cache]. congruence.
  - by rewrite table_saved.
  - by rewrite lookup_insert_eq.
  - intros g Hg. unfold m1.
    by rewrite lookup_insert_ne, !lookup_alter_ne.
  - unfold st1. by destruct (settle st).
  - unfold st1. by destruct (settle st).
  - by apply (settle_cached _ s2).
Qed.

(** X25: a [setStatus] action on a design that has a record, with a
    writable metadata file, returns; the record then holds the status that
    was sent, whatever it is, and the time of the change; the other
    records and all files are untouched; one catalog is posted, the
    complete one of the workspace as the action left it; when the file of
    the design is in the design folder the catalog has its entry, built
    from the file and the changed record, and the entry shows the status
    as the catalog shows it ([exported] as [archived]). *)
Theorem setStatus_reaches_record_and_catalog (h : State)
    (designId : string) (val : value) (rec : DesignMetadata.t) :
  fst (record_of (String.append designId ".html") (manager h))
  = inr (Some rec) ->
  writable (manager h) = true ->
  let fileName := String.append designId ".html" in
  let rec' := DesignMetadata.set_updatedAt (Some (clock (manager h)))
                (DesignMetadata.set_status val rec) in
  exists h' ds,
    handleDesignAction designId "setStatus" val h = (inr tt, h')
    /\ fst (record_of fileName (manager h')) = inr (Some rec')
    /\ (forall g, g <> fileName -> site g (manager h') = site g (manager h))
    /\ (forall d g, file_at d g (manager h') = file_at d g (manager h))
    /\ outbox h' = (outbox h ++ [designs_list ds])%list
    /\ listing (manager h') ds
    /\ (forall stats,
          file_at design_iterations fileName (manager h) = Some stats ->
          entry_of fileName stats (Some rec') ∈ ds)
    /\ (forall d, d ∈ ds -> filePath d = fileName ->
          status d = shown_status val).
Proof.
  intros Hrec Hw fileName rec'. subst rec'.
  rewrite record_of_spec in Hrec. cbn [fst] in Hrec.
  destruct (table (manager h)) as [m|] eqn:Ht; [|done].
  injection Hrec as Hf.
  destruct (setStatus_mutation designId val h m rec Ht Hf Hw)
    as (st' & m' & Hrun & Ht' & Hf' & Hother & Hit & Har & Hsettled).
  fold fileName in Hf', Hother.
  destruct (catalog_returns st') as [ds Hcat]; [by rewrite Ht'|].
  pose proof (catalog_listing st' ds Hcat) as Hlist.
  assert (forall d g, file_at d g st' = file_at d g (manager h)) as Hfiles.
  { intros d g. unfold file_at. destruct d; cbn [folder]; congruence. }
  exists (post (push_of st') (set_manager st' h)), ds.
  cbn [manager post set_manager outbox].
  split; [|split; [|split; [|split; [|split; [|split; [|split]]]]]].
  - rewrite Hrun. by apply sendDesignsList_settled.
  - by rewrite record_of_spec, Ht', Hf'.
  - intros g Hg. rewrite !site_eq, Ht', Ht, (Hother g Hg), !Hfiles. done.
  - exact Hfiles.
  - unfold push_of. by rewrite Hcat.
  - exact Hlist.
  - intros stats Hstats.
    destruct Hlist as (_ & _ & Hent & Hall).
    destruct (Hall fileName) as (d & Hd & Hpath).
    { apply endsWith_append. }
    { rewrite Hfiles, Hstats. by eexists. }
    destruct (Hent d Hd) as (_ & stats' & rec'' & Hs' & Hr' & Hentry).
    rewrite Hpath in Hs', Hr', Hentry.
    rewrite Hfiles, Hstats in Hs'. injection Hs' as <-.
    rewrite record_of_spec, Ht', Hf' in Hr'. cbn [fst] in Hr'.
    injection Hr' as <-. by rewrite <- Hentry.
  - intros d Hd Hpath.
    destruct (catalog_entry_facts st' ds d Hcat Hd)
      as (stats & m'' & _ & Ht'' & Hentry).
    rewrite Ht' in Ht''. injection Ht'' as <-.
    rewrite Hentry, Hpath. cbn [status entry_of]. by rewrite Hf'.
Qed.

Lemma setStatus_reaches_record_witness :
  exists h' ds,
    handleDesignAction "a" "setStatus" (Some (JStr "exported")) host_two
    = (inr tt, h')
    /\ read_status "a.html" (manager h') = inr (Some (JStr "exported"))
    /\ outbox h' = (outbox host_two ++ [designs_list ds])%list
    /\ entry_of "a.html" file_a
         (Some (DesignMetadata.set_updatedAt (Some 1000)
                  (DesignMetadata.set_status (Some (JStr "exported"))
                     record_a))) ∈ ds
    /\ forall d, d ∈ ds -> filePath d = "a.html" ->
         status d = JStr "archived".
Proof.
  destruct (setStatus_reaches_record_and_catalog host_two "a"
              (Some (JStr "exported")) record_a)
    as (h' & ds & Hrun & Hrec & _ & _ & Hout & _ & Hin & Hshown).
  - vm_compute. reflexivity.
  - reflexivity.
  - exists h', ds. split; [exact Hrun|]. split.
    + change (fst (record_of "a.html" (manager h')) = inr (Some
               (DesignMetadata.set_updatedAt (Some (clock (manager host_two)))
                  (DesignMetadata.set_status (Some (JStr "exported"))
                     record_a)))) in Hrec.
      unfold read_status. by rewrite Hrec.
    + split; [exact Hout|]. split; [|exact Hshown].
      apply (Hin file_a). reflexivity.
Defined.


(** *** The delete action *)



Lemma unlinkSync_spec fileName st :
  unlinkSync fileName st
  = match file_at design_iterations fileName st with
    | Some _ => (inr tt, unlinked fileName st)
    | None => (inl FileNotFound, log_call (call_unlinkSync fileName) st)
    end.
Proof.
  unfold unlinkSync, remove_entry, read_entry, unlinked, file_at, bind,
    modify, gets, ret, throw.
  destruct st as [[dir|] ar mf w ck cs c]; simpl; [|done].
  by destruct (dir !! fileName).
Qed.

Lemma unlinked_fields fileName st :
  iterations (unlinked fileName st) = delete fileName <$> iterations st
  /\ archive (unlinked fileName st) = archive st
  /\ writable (unlinked fileName st) = writable st
  /\ clock (unlinked fileName st) = clock st
  /\ table (unlinked fileName st) = table st
  /\ view (unlinked fileName st) = view st.
Proof.
  unfold unlinked.
  rewrite table_set_folder, table_log_call, view_set_folder, view_log_call.
  by destruct st.
Qed.

Lemma unlink_and_forget fileName st m file :
  table st = Some m -> writable st = true ->
  file_at design_iterations fileName st = Some file ->
  (unlinkSync fileName ;;
   store <- loadMetadata ;;
   store <- write_designs (delete fileName) store ;;
   saveMetadata store) st
  = (inr tt,
     saved (store_with (delete fileName m) st)
       (settle (unlinked fileName st))).
Proof.
  intros Ht Hw Hfile.
  destruct (unlinked_fields fileName st)
    as (Hit & Har & Hw' & Hck & Ht' & Hv).
  unfold bind at 1. rewrite unlinkSync_spec, Hfile.
  rewrite (bind_returns _ _ _ _ _ (loadMetadata_spec _)).
  replace (store_with (delete fileName m) st)
    with (store_with (delete fileName m) (unlinked fileName st))
    by (unfold store_with, store_shaped, shape; by rewrite Hck, Hv).
  apply write_then_save; congruence.
Qed.

(** X27: the delete action, confirmed, on a design whose file is in the
    design folder, with a readable table and a writable metadata file:
    the file and the record are gone, nothing else is touched, and the
    catalog posted after it has no entry for the design. *)
Theorem confirmed_delete_removes_the_design (h : State) (designId : string)
    (val : value) (m : gmap string DesignMetadata.t) (file : File) :
  confirms h = true ->
  fst (read_table (manager h)) = inr m ->
  writable (manager h) = true ->
  file_at design_iterations (String.append designId ".html") (manager h)
  = Some file ->
  exists h',
    handleDesignAction designId "delete" val h = (inr tt, h')
    /\ file_at design_iterations (String.append designId ".html")
         (manager h') = None
    /\ fst (record_of (String.append designId ".html") (manager h'))
       = inr None
    /\ (forall g, g <> String.append designId ".html" ->
          site g (manager h') = site g (manager h))
    /\ (exists ds,
          outbox h' = (outbox h ++ [designs_list ds])%list
          /\ forall d, d ∈ ds ->
               filePath d <> String.append designId ".html").
Proof.
  set (fileName := String.append designId ".html").
  set (st := manager h). intros Hyes Ht Hw Hfile.
  apply read_table_inr in Ht.
  destruct (unlinked_fields fileName st)
    as (Hit & Har & Hw' & Hck & Ht' & Hv).
  set (s' := store_with (delete fileName m) st).
  set (st' := saved s' (settle (unlinked fileName st))).
  assert (deleteDesign fileName h = (inr tt, set_manager st' h)) as Hdel.
  { unfold deleteDesign. unfold bind at 1. unfold gets at 1. rewrite Hyes.
    rewrite designManager_run. fold st.
    rewrite (unlink_and_forget fileName st m file Ht Hw Hfile).
    reflexivity. }
  assert (table st' = Some (delete fileName m)) as Htab
    by apply table_saved.
  assert (forall d g, file_at d g st' = file_at d g (unlinked fileName st))
    as Hfiles.
  { intros d g. apply file_at_saved. }
  assert (file_at design_iterations fileName st' = None) as Hgone.
  { rewrite Hfiles. unfold file_at. cbn [folder]. rewrite Hit.
    destruct (iterations st) as [dir|]; [|done]. simpl.
    apply lookup_delete_eq. }
  exists (post (push_of st') (set_manager st' h)).
  split; [|split; [|split; [|split]]].
  - rewrite handleDesignAction_delete. fold fileName.
    rewrite (bind_returns _ _ _ _ _ Hdel).
    apply sendDesignsList_settled. cbn [manager set_manager].
    by apply (settle_cached _ s').
  - done.
  - cbn [manager post set_manager].
    by rewrite record_of_spec, Htab, lookup_delete_eq.
  - intros g Hg. cbn [manager post set_manager]. fold st.
    rewrite !site_eq, Htab, Ht, !Hfiles, lookup_delete_ne by done.
    unfold file_at. cbn [folder]. rewrite Hit, Har.
    f_equal. f_equal. destruct (iterations st) as [dir|]; [|done]. simpl.
    by apply lookup_delete_ne.
  - destruct (catalog_returns st') as [ds Hcat]; [by rewrite Htab|].
    exists ds. split.
    + cbn [outbox post set_manager]. unfold push_of. by rewrite Hcat.
    + intros d Hd Hpath.
      destruct (proj1 (catalog_files st' ds Hcat fileName)) as [_ [x Hx]].
      { by exists d. }
      unfold file_at in Hgone. cbn [folder] in Hgone. congruence.
Qed.

Lemma confirmed_delete_witness :
  exists h',
    handleDesignAction "a" "delete" None host_a = (inr tt, h')
    /\ file_at design_iterations "a.html" (manager h') = None
    /\ fst (record_of "a.html" (manager h')) = inr None.
Proof.
  destruct (confirmed_delete_removes_the_design host_a "a" None
              {[ "a.html" := record_a ]} file_a)
    as (h' & Hrun & Hgone & Hrec & _).
  - reflexivity.
  - vm_compute. reflexivity.
  - reflexivity.
  - reflexivity.
  - exists h'. split; [exact Hrun|]. split; [exact Hgone|exact Hrec].
Defined.

(** *** The other actions *)

(** X28: only [setStatus], [archive] and [delete] post a catalog or touch
    the workspace.  Any other action, known or not, leaves the outbox,
    every file and record, the metadata file, the call log and the
    primary pointer as they were. *)
Theorem other_actions_leave_workspace_and_outbox (h : State)
    (designId action : string) (val : value) :
  mutating action = false ->
  let h' := snd (handleDesignAction designId action val h) in
  outbox h' = outbox h
  /\ (forall g, site g (manager h') = site g (manager h))
  /\ metadataFile (manager h') = metadataFile (manager h)
  /\ calls (manager h') = calls (manager h)
  /\ primaryDesignId h' = primaryDesignId h
  /\ (action <> "copyPrompt" ->
      handleDesignAction designId action val h = (inr tt, h)).
Proof.
  unfold mutating. rewrite !orb_false_iff. intros [[Hs Ha] Hd]. cbv zeta.
  unfold handleDesignAction. rewrite Hs, Ha, Hd.
  destruct (String.eqb action "copyPrompt") eqn:Hc.
  - unfold copyPromptToClipboard, bind. rewrite designManager_run.
    rewrite getDesignMetadata_spec. cbn [fst snd].
    assert (forall r : Exn + unit,
              outbox (snd (r, set_manager (settle (manager h)) h)) = outbox h
              /\ (forall g, site g (manager (snd (r, set_manager
                                (settle (manager h)) h)))
                            = site g (manager h))
              /\ metadataFile (manager (snd (r, set_manager
                                (settle (manager h)) h)))
                 = metadataFile (manager h)
              /\ calls (manager (snd (r, set_manager
                                (settle (manager h)) h)))
                 = calls (manager h)
              /\ primaryDesignId (snd (r, set_manager
                                (settle (manager h)) h))
                 = primaryDesignId h) as Hkeep.
    { intros r. cbn [snd outbox manager set_manager primaryDesignId].
      destruct (settle_fields (manager h)) as (_ & _ & -> & _ & _ & ->).
      split; [done|]. split; [intros g; apply site_settle|]. done. }
    apply String.eqb_eq in Hc.
    destruct (table (manager h)) as [m|]; simpl.
    + destruct (Hkeep (inr tt)) as (? & ? & ? & ? & ?). repeat split; try done.
    + destruct (Hkeep (inl TypeError)) as (? & ? & ? & ? & ?).
      repeat split; try done.
  - destruct (String.eqb action "copyPath"), (String.eqb action "openExternal");
      cbn [snd ret]; repeat split; done.
Qed.

Lemma other_actions_witness :
  outbox (snd (handleDesignAction "a" "copyPath" None host_a))
  = outbox host_a.
Proof.
  apply (other_actions_leave_workspace_and_outbox host_a "a" "copyPath" None).
  reflexivity.
Defined.

End CanvasMessageHandlerExtra.

(** * Archiving a design, and the push after a mutation *)

Module ArchiveAndPush.
Import DesignManager DesignManagerSpec DesignManagerProps
  DesignManagerExtraSpec DesignManagerExtra
  CanvasMessageHandler CanvasMessageHandlerSpec CanvasMessageHandlerProps
  CanvasMessageHandlerExtraSpec CanvasMessageHandlerExtra.

(** *** Archiving one design *)

(** C6 (failing input): the metadata file holds [{ "designs": [],
    "version": "1.0.0" }].  An array is not a metadata table, yet it
    passes [isValidMetadataStore] ([typeof []] is ['object']) and is
    cached as the table.  [archiveDesign] returns: the copy comes before
    the delete, the file has moved to the archive folder, and a read
    through the cache says [archived].  But the record was set on an
    array, of which [JSON.stringify] prints the elements only: the
    document written to the metadata file has no record, and a manager
    that reads the file finds an empty table and no status for the
    design.  The status was not persisted. *)
Theorem C6_array_table_forgets_the_status :
  let st := workspace_with (content (document array_designs)) in
  let st' := snd (archiveDesign "a.html" st) in
  isValidMetadataStore array_designs = true
  /\ fst (archiveDesign "a.html" st) = inr tt
  /\ file_at design_iterations "a.html" st' = None
  /\ file_at design_archive "a.html" st' = Some file_a
  /\ read_status "a.html" st' = inr (Some (JStr "archived"))
  /\ (exists written,
        calls st'
        = [call_createDirectory design_archive; copy_call "a.html";
           delete_call "a.html"; call_writeFile written]
        /\ metadataFile st' = content (document written)
        /\ get_prop "designs" written = Some (JArr []))
  /\ read_status "a.html" (snd (clearCache st')) = inr None
  /\ fst (read_table (snd (clearCache st'))) = inr ∅.
Proof.
  vm_compute. repeat split. eexists. repeat split.
Qed.

(** The part of C6 that holds, for a file name with an extension:
    [archiveDesign] issues the copy to the archive folder first and the
    delete of the source right after it, never the other way round, so a
    source file that is gone is in the archive.  When the operation
    returns, the file has moved, a read through the cache says
    [archived], and no catalog built afterwards from the design folder
    has an entry for the design; and when the table is a plain object of
    plain objects, the status [archived] is in the document written to
    the metadata file: a manager that starts with an empty cache reads it
    back.  (When the write of the metadata file is refused, the operation
    throws after the file has moved, and nothing is persisted.) *)
Lemma archive_copies_then_deletes (st st' : DesignManager.State)
    (fileName : string) (r : Exn + unit) :
  has_extension fileName = true ->
  archiveDesign fileName st = (r, st') ->
  (exists pre rest,
      calls st' = (calls st ++ pre ++ copy_call fileName :: rest)%list
      /\ (pre = [] \/ pre = [call_createDirectory design_archive])
      /\ (rest = [] \/ rest = [delete_call fileName]
          \/ exists j, rest = [delete_call fileName; call_writeFile j]))
  /\ (forall file,
        file_at design_iterations fileName st = Some file ->
        file_at design_iterations fileName st' = None ->
        file_at design_archive fileName st' = Some file)
  /\ (r = inr tt ->
      is_Some (file_at design_iterations fileName st)
      /\ file_at design_iterations fileName st' = None
      /\ file_at design_archive fileName st'
         = file_at design_iterations fileName st
      /\ (exists s', cache st' = Some s'
                     /\ metadataFile st' = content (document (stringify s')))
      /\ read_status fileName st' = inr (Some (JStr "archived"))
      /\ (versioned st ->
          (forall s, fst (read_store st) = inr s -> is_plain s = true) ->
          read_status fileName (snd (clearCache st'))
          = inr (Some (JStr "archived")))
      /\ forall ds d, catalog st' = inr ds -> d ∈ ds ->
           filePath d <> fileName).
Proof.
  intros _.
  unfold file_at, copy_call, delete_call. cbn [folder].
  rewrite archiveDesign_spec.
  destruct (iterations st ≫= _) as [file|] eqn:Hfile.
  - (* the source exists: copy, delete, then the status *)
    rewrite updateStatus_spec, table_moved.
    destruct (moved_fields fileName file st)
      as (Hit & Har & Hmf & Hw & Hck & Hc & pre & Hcalls & Hpre).
    destruct (settle_fields (moved fileName file st))
      as (Hit' & Har' & Hmf' & Hw' & Hck' & Hcalls').
    rewrite <- Hit' in Hit. rewrite <- Har' in Har.
    rewrite <- Hcalls' in Hcalls. rewrite Hw.
    assert (forall dir : option (gmap string File),
              (delete fileName <$> dir) ≫= (fun d => d !! fileName) = None)
      as Hgone.
    { intros [dir|]; [|done]. simpl. apply lookup_delete_eq. }
    destruct (table st) as [m|] eqn:Ht.
    + destruct (writable st) eqn:Hwr; intros [= <- <-];
        cbn [iterations archive calls cache metadataFile set_cache
             set_metadataFile log_call clearCache modify snd].
      * (* written *)
        rewrite Hit, Har, Hcalls. cbn [mbind option_bind].
        rewrite lookup_insert_eq, Hgone.
        split; [|split; [done|]].
        { exists pre. eexists. split; [|split; [done|]].
          - rewrite <- ?app_assoc. simpl. reflexivity.
          - right. right. eauto. }
        intros _. repeat split; eauto.
        { rewrite read_status_spec.
          unfold table, view. rewrite settle_cached with (s := store_written
            fileName archived (moved fileName file st) m) by done.
          cbn [cache set_cache DesignMetadataStore.designs store_written
               mbind option_bind].
          destruct (status_written_same fileName archived
                      (clock (moved fileName file st)) m) as (rec & -> & Hs).
          simpl. by rewrite Hs. }
        { intros Hv Hplain.
          match goal with
          | |- context [read_status _ ?st0] =>
              pose proof (written_status_is_read_back st0
                            (store_written fileName archived
                               (moved fileName file st) m)
                            (status_written fileName archived
                               (clock (moved fileName file st)) m)
                            fileName) as Hback
          end.
          rewrite Hback; try done.
          - destruct (status_written_same fileName archived
                        (clock (moved fileName file st)) m)
              as (rec & -> & Hs).
            simpl. by rewrite Hs.
          - cbn [DesignMetadataStore.version store_written].
            rewrite view_moved. by apply view_versioned.
          - apply store_written_plain; [by rewrite table_moved|].
            rewrite view_moved. apply is_plain_plain, Hplain.
            by rewrite read_store_spec. }
        intros ds d Hcat Hd Hpath.
        destruct (proj1 (catalog_files _ _ Hcat fileName)) as [_ [x Hx]];
          [by exists d|].
        cbn [iterations set_cache set_metadataFile log_call] in Hx.
        by rewrite Hit, Hgone in Hx.
      * (* the write is refused *)
        split; [|split; [|done]].
        { exists pre. eexists. split; [|split; [done|]].
          - destruct (cache (settle (moved fileName file st)));
              cbn [calls set_cache log_call]; rewrite Hcalls;
              rewrite <- ?app_assoc; simpl; reflexivity.
          - right. right. eauto. }
        intros f [= <-] _.
        destruct (cache (settle (moved fileName file st)));
          cbn [archive set_cache log_call]; rewrite Har; simpl;
          by rewrite lookup_insert_eq.
    + (* [designs] is null *)
      intros [= <- <-]. rewrite Hit, Har, Hcalls, Hgone.
      split; [|split; [|done]].
      * exists pre. eexists. split; [|split; [done|]].
        -- rewrite <- ?app_assoc. simpl. reflexivity.
        -- right. left. done.
      * intros f [= <-] _. simpl. by rewrite lookup_insert_eq.
  - (* no such source: the copy throws and nothing is deleted *)
    intros [= <- <-].
    destruct (ensure_archive_fields st)
      as (Hit & _ & _ & _ & _ & _ & _ & pre & Hcalls & Hpre).
    cbn [calls iterations log_call]. rewrite Hcalls, Hit, Hfile.
    split; [|split; [done|done]].
    exists pre, []. rewrite <- app_assoc. auto.
Qed.

Lemma archive_copies_then_deletes_example :
  let st' := snd (archiveDesign "a.html" workspace_a) in
  file_at design_iterations "a.html" st' = None
  /\ file_at design_archive "a.html" st' = Some file_a
  /\ read_status "a.html" (snd (clearCache st'))
     = inr (Some (JStr "archived")).
Proof.
  destruct (archive_copies_then_deletes workspace_a
              (snd (archiveDesign "a.html" workspace_a)) "a.html" (inr tt))
    as (_ & _ & Hdone).
  - reflexivity.
  - vm_compute. reflexivity.
  - destruct (Hdone eq_refl)
      as (_ & Hgone & Hthere & _ & _ & Hstatus & _).
    split; [exact Hgone|]. split; [exact Hthere|].
    apply Hstatus.
    + intros s Hs. discriminate Hs.
    + assert (fst (read_store workspace_a) = inr store_a) as ->
        by (vm_compute; reflexivity).
      intros s [= <-]. reflexivity.
Qed.

(** *** The [setStatus] action on a design without a record *)



(** *** The push after a mutation *)

(** C7 (failing input): the table is cached with [a.html] as a draft and
    the metadata file cannot be written.  The request [setStatus] of [a]
    to [approved] changes the cached record in place before the write is
    refused; the handler throws the write error and posts nothing.  Yet
    the catalog has changed: built from the state the handler left (as
    the next [canvas:ready] does) it shows [a] as [approved].  The
    mutation was not followed by a push. *)
Theorem C7_refused_write_changes_catalog_without_push :
  let request := design_action "a" "setStatus" (Some (JStr "approved")) in
  let h' := snd (handleMessage request host_unwritable) in
  catalog (manager host_unwritable)
  = inr [entry_of "a.html" file_a (Some record_a)]
  /\ status (entry_of "a.html" file_a (Some record_a)) = JStr "draft"
  /\ fst (handleMessage request host_unwritable) = inl Unavailable
  /\ outbox h' = []
  /\ metadataFile (manager h') = metadataFile (manager host_unwritable)
  /\ exists d,
       catalog (manager h') = inr [d]
       /\ filePath d = "a.html"
       /\ status d = JStr "approved"
       /\ outbox (snd (handleMessage canvas_ready h')) = [designs_list [d]].
Proof.
  vm_compute. repeat split.
  eexists. repeat split.
Qed.

(** The part of C7 that holds: when the handler returns from a
    [setStatus], [archive] or [delete] action, it has posted exactly one
    message after the mutation, and that message is the complete catalog
    of the state the mutation left (the error notice takes its place only
    when the table cannot be read, [designs] being null). *)
Lemma mutation_then_full_catalog (h h' : State)
    (designId action : string) (val : value) :
  action = "setStatus" \/ action = "archive" \/ action = "delete" ->
  handleDesignAction designId action val h = (inr tt, h') ->
  outbox h' = (outbox h ++ [push_of (manager h')])%list
  /\ (returns read_table (manager h') ->
      exists ds, push_of (manager h') = designs_list ds
                 /\ listing (manager h') ds).
Proof.
  intros Haction Hrun. split.
  - destruct Haction as [-> | [-> | ->]].
    + rewrite handleDesignAction_setStatus in Hrun.
      apply bind_inv in Hrun as (metadata & h1 & Hget & Hrest).
      pose proof (keeps_outbox_designManager
                    (getDesignMetadata (String.append designId ".html")) h)
        as Hq.
      rewrite Hget in Hq. simpl in Hq. rewrite <- Hq.
      eapply then_sendDesignsList; [|exact Hrest].
      destruct metadata; [|apply keeps_ret].
      apply keeps_bind; [apply keeps_outbox_designManager|].
      intros ?. apply keeps_outbox_designManager.
    + rewrite handleDesignAction_archive in Hrun.
      eapply then_sendDesignsList; [|exact Hrun].
      apply keeps_outbox_designManager.
    + rewrite handleDesignAction_delete in Hrun.
      eapply then_sendDesignsList; [|exact Hrun].
      apply keeps_deleteDesign_outbox.
  - intros [m Hm]. apply read_table_inr in Hm.
    destruct (catalog_returns (manager h')) as [ds Hcat]; [by exists m|].
    exists ds. split; [unfold push_of; by rewrite Hcat|].
    by apply catalog_listing.
Qed.

Lemma mutation_then_full_catalog_example :
  exists ds,
    outbox (snd (handleDesignAction "a" "archive" None host_two))
    = [designs_list ds]
    /\ exists d, d ∈ ds /\ filePath d = "b_mobile.html".
Proof.
  set (h' := snd (handleDesignAction "a" "archive" None host_two)).
  destruct (mutation_then_full_catalog host_two h' "a" "archive" None)
    as (Hout & Hpush).
  - right. left. reflexivity.
  - vm_compute. reflexivity.
  - destruct Hpush as (ds & Hds & Hlist).
    + eexists. vm_compute. reflexivity.
    + exists ds. split; [by rewrite Hout, Hds|].
      destruct Hlist as (_ & _ & _ & Hall).
      apply Hall; [reflexivity|]. vm_compute. by eexists.
Qed.

End ArchiveAndPush.


Module NameProps.
Import DesignManager DesignManagerSpec CanvasMessageHandler
  CanvasMessageHandlerSpec CanvasMessageHandlerProps
  CanvasMessageHandlerExtra.

Lemma substring_none s : forall n, String.substring n 0 s = "".
Proof. induction s as [|c s IH]; intros [|n]; simpl; auto. Qed.

Lemma append_empty_r s : String.append s "" = s.
Proof.
  induction s as [|c s IH]; [done|].
  change (String c (String.append s "") = String c s). by rewrite IH.
Qed.

Lemma substring_split s :
  forall i, (i <= String.length s)%nat ->
    String.append (String.substring 0 i s)
      (String.substring i (String.length s - i) s) = s.
Proof.
  induction s as [|c s IH]; intros [|i] Hi; simpl in *; try lia; try done.
  - change (String c (String.substring 0 (String.length s) s) = String c s).
    f_equal. specialize (IH 0%nat ltac:(lia)).
    rewrite substring_none, Nat.sub_0_r in IH. exact IH.
  - change (String c (String.append (String.substring 0 i s)
                        (String.substring i (String.length s - i) s))
            = String c s).
    f_equal. apply IH. lia.
Qed.

Lemma entry_name_names_its_file
    (st : DesignManager.State) (ds : list DesignFile) (d : DesignFile) :
  catalog st = inr ds ->
  d ∈ ds ->
  String.index 0 ".html" (filePath d)
  = Some (String.length (filePath d) - 5)%nat ->
  String.append (name d) ".html" = filePath d.
Proof.
  intros Hcat Hd Hfirst.
  destruct (catalog_entry_facts st ds d Hcat Hd)
    as (stats & m & _ & _ & Hentry).
  set (f := filePath d) in *.
  assert (name d = replace f ".html" "") as -> by (by rewrite Hentry).
  assert (endsWith f ".html" = true) as Hend.
  { destruct (proj1 (catalog_files st ds Hcat f)) as [Hend _]; [|done].
    by exists d. }
  unfold endsWith in Hend. apply andb_true_iff in Hend as [Hlen Hsuffix].
  apply Nat.leb_le in Hlen. apply String.eqb_eq in Hsuffix.
  change (String.length ".html") with 5%nat in *.
  unfold replace. rewrite Hfirst.
  change (String.length ".html") with 5%nat.
  replace (String.length f - 5 + 5)%nat with (String.length f) by lia.
  rewrite Nat.sub_diag, substring_none.
  change (String.append "" "") with "". rewrite append_empty_r.
  set (k := (String.length f - 5)%nat) in *.
  assert (String.substring k (String.length f - k) f = ".html") as <-.
  { replace (String.length f - k)%nat with 5%nat by lia. exact Hsuffix. }
  apply substring_split. lia.
Qed.

(** X29: the webview names a design by its file name without the first
    ['.html'], and the handler finds the file of an action by putting
    ['.html'] back at the end.  For a catalog entry whose file name has
    ['.html'] only as its ending, the two agree: an action sent with the
    entry's name reaches the entry's own file, and is an action on the
    record and the file the entry was built from. *)
Theorem action_reaches_the_file_of_the_entry
    (st : DesignManager.State) (ds : list DesignFile) (d : DesignFile) :
  catalog st = inr ds ->
  d ∈ ds ->
  String.index 0 ".html" (filePath d)
  = Some (String.length (filePath d) - 5)%nat ->
  String.append (name d) ".html" = filePath d
  /\ is_Some (file_at design_iterations (String.append (name d) ".html") st).
Proof.
  intros Hcat Hd Hfirst.
  rewrite (entry_name_names_its_file st ds d Hcat Hd Hfirst).
  split; [done|].
  destruct (catalog_entry_facts st ds d Hcat Hd) as (stats & m & -> & _).
  by eexists.
Qed.

Lemma action_reaches_the_file_witness :
  String.append (name (entry_of "a.html" file_a (Some record_a))) ".html"
  = filePath (entry_of "a.html" file_a (Some record_a))
  /\ is_Some (file_at design_iterations
                (String.append
                   (name (entry_of "a.html" file_a (Some record_a)))
                   ".html") workspace_a).
Proof.
  apply (action_reaches_the_file_of_the_entry workspace_a
           [entry_of "a.html" file_a (Some record_a)]).
  - vm_compute. reflexivity.
  - left.
  - reflexivity.
Defined.

End NameProps.

(** * The age label and the development server *)

Module DesignCardProps.
Import DesignCard.

(** X8: the label [formatDate] prints counts whole minutes, hours or
    days of the age of the file, each within its unit: 1 to 59 minutes,
    1 to 23 hours, 1 to 6 days.  Under a minute old, and for a time in
    the future, it prints 'Just now'; from a week on, the date. *)
Theorem formatDate_counts_whole_units (now timestamp : Z) :
  Z.abs timestamp <= max_time ->
  match formatDate now timestamp with
  | just_now => now - timestamp < 60000
  | minutes_ago n =>
      1 <= n < 60 /\ 60000 * n <= now - timestamp < 60000 * (n + 1)
  | hours_ago n =>
      1 <= n < 24 /\ 3600000 * n <= now - timestamp < 3600000 * (n + 1)
  | days_ago n =>
      1 <= n < 7 /\ 86400000 * n <= now - timestamp < 86400000 * (n + 1)
  | locale_date date =>
      date = Some timestamp /\ 7 * 86400000 <= now - timestamp
  end.
Proof.
  intros Hrange. unfold formatDate, new_Date.
  apply Z.leb_le in Hrange. rewrite Hrange.
  set (diffMs := now - timestamp).
  pose proof (Z.div_mod diffMs 60000 ltac:(lia)) as Hm.
  pose proof (Z.mod_pos_bound diffMs 60000 ltac:(lia)) as Hmb.
  pose proof (Z.div_mod diffMs 3600000 ltac:(lia)) as Hh.
  pose proof (Z.mod_pos_bound diffMs 3600000 ltac:(lia)) as Hhb.
  pose proof (Z.div_mod diffMs 86400000 ltac:(lia)) as Hd.
  pose proof (Z.mod_pos_bound diffMs 86400000 ltac:(lia)) as Hdb.
  destruct (diffMs / 60000 <? 1) eqn:H1; [lia|].
  destruct (diffMs / 60000 <? 60) eqn:H2; [lia|].
  destruct (diffMs / 3600000 <? 24) eqn:H3; [lia|].
  destruct (diffMs / 86400000 <? 7) eqn:H4; [lia|].
  split; [done|lia].
Qed.

Lemma formatDate_witness :
  match formatDate 7200000 0 with
  | hours_ago n => 1 <= n < 24
  | _ => False
  end.
Proof.
  pose proof (formatDate_counts_whole_units 7200000 0) as H.
  change (formatDate 7200000 0) with (hours_ago 2) in *.
  apply H. vm_compute. discriminate.
Defined.

End DesignCardProps.

Module DevServerProps.
Import DevServer.

Lemma scan_spec s n :
  forall p,
    match scan s p n with
    | Some r =>
        p <= r < p + Z.of_nat n /\ (r ∉ busy s)
        /\ forall q, p <= q < r -> q ∈ busy s
    | None => forall q, p <= q < p + Z.of_nat n -> q ∈ busy s
    end.
Proof.
  induction n as [|n IH]; intros p; simpl scan.
  - intros q Hq. lia.
  - unfold isPortAvailable. destruct (bool_decide (p ∉ busy s)) eqn:Hp.
    + apply bool_decide_eq_true in Hp. split; [lia|]. split; [done|].
      intros q Hq. lia.
    + apply bool_decide_eq_false in Hp.
      assert (p ∈ busy s) as Hin.
      { destruct (decide (p ∈ busy s)); [done|]. by destruct Hp. }
      specialize (IH (p + 1)). destruct (scan s (p + 1) n) as [r|].
      * destruct IH as (Hr & Hfree & Hbelow). split; [lia|]. split; [done|].
        intros q Hq. destruct (decide (q = p)) as [->|Hne]; [done|].
        apply Hbelow. lia.
      * intros q Hq. destruct (decide (q = p)) as [->|Hne]; [done|].
        apply IH. lia.
Qed.

(** X9: [findAvailablePort] returns the lowest free port among the fifty
    from [startPort] on, and throws exactly when all fifty are held.  From
    3456 these are the ports up to 3505: port 3506, which the error
    message names, is never probed. *)
Theorem findAvailablePort_takes_the_lowest_free_port (s : State)
    (startPort : Z) :
  match findAvailablePort s startPort with
  | inr p =>
      startPort <= p < startPort + 50 /\ (p ∉ busy s)
      /\ forall q, startPort <= q < p -> q ∈ busy s
  | inl e =>
      e = no_port /\ forall q, startPort <= q < startPort + 50 -> q ∈ busy s
  end.
Proof.
  unfold findAvailablePort. pose proof (scan_spec s 50 startPort) as H.
  destruct (scan s startPort 50) as [p|]; [exact H|]. split; [done|exact H].
Qed.

Lemma findAvailablePort_first s :
  match findAvailablePort s 3456 with
  | inr p =>
      3456 <= p < 3506 /\ (p ∉ busy s)
      /\ forall q, 3456 <= q < p -> q ∈ busy s
  | inl e => e = no_port /\ forall q, 3456 <= q < 3506 -> q ∈ busy s
  end.
Proof.
  unfold findAvailablePort. pose proof (scan_spec s 50 3456) as H.
  destruct (scan s 3456 50) as [p|]; [exact H|]. split; [done|exact H].
Qed.

(** X10: a design URL is handed out only while the server runs.  A
    successful [start] binds a free port of 3456..3505 and is then
    repeated for free: a second [start] returns the same port and changes
    nothing.  After a failed [start], and after [stop], [getDesignUrl]
    throws. *)
Theorem urls_only_while_running (s : State) (listens : bool) :
  isRunning s = false ->
  match start listens s with
  | (inr p, s') =>
      3456 <= p < 3506 /\ (p ∉ busy s)
      /\ getPort s' = p /\ isServerRunning s' = true
      /\ (forall again, start again s' = (inr p, s'))
      /\ (forall fileName, exists url, getDesignUrl s' fileName = inr url)
      /\ (forall fileName,
            getDesignUrl (stop s') fileName = inl not_running)
  | (inl e, s') =>
      isServerRunning s' = false
      /\ forall fileName, getDesignUrl s' fileName = inl not_running
  end.
Proof.
  intros Hoff. unfold start. rewrite Hoff.
  pose proof (findAvailablePort_first s) as Hfind.
  destruct (findAvailablePort s 3456) as [e|p].
  - split; [done|]. intros f. unfold getDesignUrl. by rewrite Hoff.
  - destruct Hfind as (Hr & Hfree & _). destruct listens.
    + split; [lia|]. split; [done|]. split; [done|]. split; [done|].
      split; [done|]. split; [|done]. intros f. by eexists.
    + split; [done|]. done.
Qed.

Lemma urls_only_while_running_witness :
  exists s',
    start true (initial {[ 3456; 3457 ]}) = (inr 3458, s')
    /\ forall fileName, getDesignUrl (stop s') fileName = inl not_running.
Proof.
  pose proof (urls_only_while_running (initial {[ 3456; 3457 ]}) true
                eq_refl) as H.
  assert (start true (initial {[ 3456; 3457 ]})
          = (inr 3458,
             {| port := 3458; isRunning := true; server := true;
                busy := {[ 3456; 3457 ]} |})) as Hrun.
  { vm_compute. reflexivity. }
  rewrite Hrun in H. destruct H as (_ & _ & _ & _ & _ & _ & Hstop).
  eexists. split; [exact Hrun|exact Hstop].
Defined.

End DevServerProps.

(** * From a frame of the webview to the host and back *)

Module ChannelExtra.
Import DesignManager DesignManagerSpec DesignManagerProps
  DesignManagerExtraSpec DesignManagerExtra
  CanvasMessageHandler CanvasMessageHandlerSpec CanvasMessageHandlerProps
  CanvasMessageHandlerExtraSpec CanvasMessageHandlerExtra NameProps
  ChannelSpec.

Lemma shown_status_of_name chosen :
  chosen <> exported ->
  shown_status (Some (JStr (status_name chosen)))
  = JStr (status_name chosen).
Proof. by destruct chosen. Qed.

(** X30: a status change, from the request to the store of the webview.
    A ['design:action'] request for [setStatus] that names an entry of
    the catalog, the design having a record (the file name having
    ['.html'] only as its ending, the metadata file writable), makes the
    host post one catalog, and once the message listener of the webview
    has received it the store lists the design under the same name, path
    and time with the status that was asked for. *)
Theorem chosen_status_comes_back_in_the_catalog
    (h : CanvasMessageHandler.State) (s : CanvasStore.State)
    (ds : list DesignFile) (d : DesignFile) (chosen : DesignStatus)
    (rec : DesignMetadata.t) :
  catalog (manager h) = inr ds ->
  d ∈ ds ->
  String.index 0 ".html" (filePath d)
  = Some (String.length (filePath d) - 5)%nat ->
  fst (record_of (filePath d) (manager h)) = inr (Some rec) ->
  writable (manager h) = true ->
  chosen <> exported ->
  let h' := host_run [design_action (name d) "setStatus"
                        (Some (JStr (status_name chosen)))] h in
  exists ds' d',
    outbox h' = (outbox h ++ [designs_list ds'])%list
    /\ listing (manager h') ds'
    /\ CanvasStore.designs (webview_receive [designs_list ds'] s) = ds'
    /\ d' ∈ ds'
    /\ name d' = name d
    /\ filePath d' = filePath d
    /\ timestamp d' = timestamp d
    /\ status d' = JStr (status_name chosen).
Proof.
  intros Hcat Hd Hfirst Hrec Hw Hstatus. cbv zeta.
  set (f := filePath d) in *.
  pose proof (entry_name_names_its_file _ _ _ Hcat Hd Hfirst) as Hname.
  fold f in Hname.
  destruct (catalog_entry_facts _ _ _ Hcat Hd)
    as (stats & m & Hfile & Ht & Hentry).
  fold f in Hfile, Hentry.
  rewrite record_of_spec, Ht in Hrec. cbn [fst] in Hrec.
  injection Hrec as Hf.
  assert (endsWith f ".html" = true) as Hend.
  { destruct (proj1 (catalog_files _ _ Hcat f)) as [Hend _]; [|done].
    by exists d. }
  unfold host_run. cbn [fold_left handleMessage].
  set (val := Some (JStr (status_name chosen))).
  rewrite <- Hname in Hf.
  destruct (setStatus_mutation (name d) val h m rec Ht Hf Hw)
    as (st' & m' & Hrun & Ht' & Hf' & _ & Hit & _ & Hsettled).
  rewrite Hname in Hf'.
  rewrite Hrun, sendDesignsList_settled by done.
  cbn [snd outbox post manager set_manager].
  destruct (catalog_returns st') as [ds' Hcat']; [by rewrite Ht'|].
  assert (file_at design_iterations f st' = Some stats) as Hfile'.
  { unfold file_at in *. cbn [folder] in *. by rewrite Hit. }
  destruct (proj2 (catalog_files st' ds' Hcat' f)) as (d' & Hd' & Hpath).
  { split; [done|]. unfold file_at in Hfile'. cbn [folder] in Hfile'.
    by rewrite Hfile'. }
  destruct (catalog_entry_facts _ _ _ Hcat' Hd')
    as (stats' & m'' & Hstats' & Ht'' & Hentry').
  rewrite Hpath in Hstats', Hentry'.
  rewrite Ht' in Ht''. injection Ht'' as <-.
  rewrite Hfile' in Hstats'. injection Hstats' as <-.
  exists ds', d'. unfold push_of. rewrite Hcat'.
  split; [done|]. split; [by apply catalog_listing|].
  split; [done|]. split; [done|].
  rewrite Hentry', Hentry, Hf'. cbn [name filePath timestamp
    status entry_of].
  split; [done|]. split; [done|]. split; [done|].
  by apply shown_status_of_name.
Qed.

Lemma chosen_status_witness :
  exists ds' d',
    outbox (host_run [design_action "a" "setStatus" (Some (JStr "review"))]
              host_a)
    = (outbox host_a ++ [designs_list ds'])%list
    /\ d' ∈ ds'
    /\ filePath d' = "a.html"
    /\ status d' = JStr "review".
Proof.
  destruct (chosen_status_comes_back_in_the_catalog host_a
              CanvasStore.initial
              [entry_of "a.html" file_a (Some record_a)]
              (entry_of "a.html" file_a (Some record_a)) review record_a)
    as (ds' & d' & Hout & _ & _ & Hd' & _ & Hpath & _ & Hstatus).
  - vm_compute. reflexivity.
  - left.
  - reflexivity.
  - vm_compute. reflexivity.
  - reflexivity.
  - discriminate.
  - exists ds', d'. split; [exact Hout|]. split; [exact Hd'|].
    split; [exact Hpath|exact Hstatus].
Defined.

End ChannelExtra.
